(** * Secondary DBSCAN clustering prototype: a shallow embedding

    This development embeds [pipeline/prototype_secondary_dbscan.py] and
    checks its specification against it.

    Modelling conventions.
    - A pandas table is the list of its rows, in [iterrows] order.
    - A Python [dict] is an association list in insertion order whose keys are
      pairwise different according to the key type's own equality; assigning
      to a present key keeps its position, assigning to an absent key appends.
      Iterating a dict visits the keys in that order.
    - Python [int] values are [Z]; [float] values are exact rationals [Q]
      (rounding is not modelled).
    - Statements that can raise return in the [result] monad.
    - The clustering primitive of the R package is a parameter.
    - Files are the data read from or written to them: the marker table is
      the list of its lines, the assembly the list of its records, the
      FASTA output the list of the paths written with their records.
    - [str] of an [int] is its decimal rendering; a [float] written with
      [str] is read back unchanged by [float]. *)

From Stdlib Require Import List ZArith QArith Qabs String Ascii Bool Lia Arith.
From Stdlib Require Import DecimalString DecimalZ.
From Stdlib Require Import Permutation Sorted Mergesort Orders.
Import ListNotations.

Set Implicit Arguments.

(** * Part I: the program *)

(** ** Exceptions and loops *)

Inductive pyexn : Type :=
| KeyError
| IndexError
| ZeroDivisionError.

Inductive result (A : Type) : Type :=
| Ok (a : A)
| Raise (e : pyexn).

Arguments Ok {A} a.

Arguments Raise {A} e.

Definition bind {A B : Type} (m : result A) (k : A -> result B) : result B :=
  match m with
  | Ok a => k a
  | Raise e => Raise e
  end.

Notation "x <- m ;; k" := (bind m (fun x => k))
  (at level 61, m at next level, right associativity).

(** [for x in xs: body], threading the loop's variables as a state. *)
Fixpoint for_in {A S : Type} (xs : list A) (body : A -> S -> result S) (s : S)
  : result S :=
  match xs with
  | [] => Ok s
  | x :: xs' => s' <- body x s ;; for_in xs' body s'
  end.

(** [float(a) / b] *)
Definition py_truediv (a b : Q) : result Q :=
  if Qeq_bool b 0 then Raise ZeroDivisionError else Ok (a / b)%Q.

(** [a > b] on floats *)
Definition Qgt_bool (a b : Q) : bool := negb (Qle_bool a b).

(** [l[0]] *)
Definition list_first {A : Type} (l : list A) : result A :=
  match l with
  | x :: _ => Ok x
  | [] => Raise IndexError
  end.

(** ** Dictionaries *)

(** The equality a key type brings along ([__eq__]). *)
Class PyKey (K : Type) : Type := {
  key_eqb : K -> K -> bool
}.

(** It is an equivalence. *)
Class PyKeyLaws (K : Type) {HK : PyKey K} : Prop := {
  key_eqb_refl : forall k : K, key_eqb k k = true;
  key_eqb_sym : forall a b : K, key_eqb a b = key_eqb b a;
  key_eqb_trans : forall a b c : K,
      key_eqb a b = true -> key_eqb b c = true -> key_eqb a c = true
}.

Arguments PyKeyLaws K {HK}.

(** Key types whose equality is syntactic. *)
Class LeibnizKey (K : Type) {HK : PyKey K} : Prop := {
  key_eqb_eq : forall a b : K, key_eqb a b = true -> a = b
}.

Arguments LeibnizKey K {HK}.

#[export] Instance string_key : PyKey string := {| key_eqb := String.eqb |}.

#[export] Instance Z_key : PyKey Z := {| key_eqb := Z.eqb |}.

(** Two floats are the same key when they are numerically equal. *)
#[export] Instance Q_key : PyKey Q := {| key_eqb := Qeq_bool |}.

Section Dict.
Context {K V : Type} {HK : PyKey K}.

Definition dict : Type := list (K * V).

(** [d.get(k)] *)
Fixpoint dict_get (d : dict) (k : K) : option V :=
  match d with
  | [] => None
  | (k0, v0) :: d' => if key_eqb k k0 then Some v0 else dict_get d' k
  end.

(** [k in d] *)
Definition dict_mem (d : dict) (k : K) : bool :=
  match dict_get d k with
  | Some _ => true
  | None => false
  end.

(** [d[k]] *)
Definition dict_getitem (d : dict) (k : K) : result V :=
  match dict_get d k with
  | Some v => Ok v
  | None => Raise KeyError
  end.

(** [d[k] = v] *)
Fixpoint dict_set (d : dict) (k : K) (v : V) : dict :=
  match d with
  | [] => [(k, v)]
  | (k0, v0) :: d' =>
      if key_eqb k k0 then (k0, v) :: d' else (k0, v0) :: dict_set d' k v
  end.

Definition dict_keys (d : dict) : list K := map fst d.

Definition dict_values (d : dict) : list V := map snd d.

(** The representation invariant of a dict: no key occurs twice. *)
Fixpoint dict_wf (d : dict) : Prop :=
  match d with
  | [] => True
  | (k0, _) :: d' => dict_get d' k0 = None /\ dict_wf d'
  end.
End Dict.

Arguments dict : clear implicits.

(** ** Tables *)

(** One row of the vizbin table, with the [db_cluster] column that
    [dbscan_simple] attaches. *)
Module TableRow.
Record t : Type := mk {
  contig : string;
  vizbin_x : Q;
  vizbin_y : Q;
  length : Z;
  gc : Q;
  cov : Q;
  db_cluster : Z
}.
End TableRow.

Definition row : Type := TableRow.t.

Definition table : Type := list row.

Definition with_cluster (r : row) (c : Z) : row :=
  TableRow.mk (TableRow.contig r) (TableRow.vizbin_x r) (TableRow.vizbin_y r)
    (TableRow.length r) (TableRow.gc r) (TableRow.cov r) c.

(** ** [countClusters] (lines 53-62) *)

Definition countClusters (pandas_table : table) : nat :=
  let clusters :=
    fold_left
      (fun (clusters : dict Z Z) (row : row) =>
         let cluster := TableRow.db_cluster row in
         match dict_get clusters cluster with
         | None => dict_set clusters cluster 1%Z
         | Some n => dict_set clusters cluster (n + 1)%Z
         end)
      pandas_table [] in
  List.length (dict_keys clusters).

(** ** [getClusterInfo] (lines 64-97) *)

Record quality : Type := mk_quality {
  completeness : Q;
  purity : Q
}.

(** The marker profile: contig -> marker -> number of occurrences. *)
Definition hmm_dict : Type := dict string (dict string Z).

(** Lines 81-83. *)
Definition expected_number (life_domain : string) : Z :=
  if String.eqb life_domain "archaea" then 162%Z else 139%Z.

(** The body of the loop [for pfam in hmm_dictionary[contig]]. *)
Definition add_marker (hmm_contig : dict string Z) (cluster : Z)
    (pfam : string) (marker_totals : dict Z (dict string Z))
  : result (dict Z (dict string Z)) :=
  totals <- dict_getitem marker_totals cluster ;;
  n <- dict_getitem hmm_contig pfam ;;
  if dict_mem totals pfam then
    old <- dict_getitem totals pfam ;;
    Ok (dict_set marker_totals cluster (dict_set totals pfam (old + n)%Z))
  else
    Ok (dict_set marker_totals cluster (dict_set totals pfam n)).

(** Lines 75-79. *)
Definition add_contig_markers (hmm_contig : dict string Z) (cluster : Z)
    (marker_totals : dict Z (dict string Z))
  : result (dict Z (dict string Z)) :=
  for_in (dict_keys hmm_contig) (add_marker hmm_contig cluster) marker_totals.

(** The body of the loop over the rows of the table (lines 66-79). *)
Definition marker_totals_row (hmm_dictionary : hmm_dict) (row : row)
    (marker_totals : dict Z (dict string Z))
  : result (dict Z (dict string Z)) :=
  let contig := TableRow.contig row in
  let cluster := TableRow.db_cluster row in
  let marker_totals :=
    if dict_mem marker_totals cluster then marker_totals
    else dict_set marker_totals cluster [] in
  match dict_get hmm_dictionary contig with
  | None => Ok marker_totals
  | Some hmm_contig => add_contig_markers hmm_contig cluster marker_totals
  end.

(** The loop counting the markers of a cluster whose total is 1. *)
Definition count_unique (totals : dict string Z) : result Z :=
  for_in (dict_keys totals)
    (fun marker total_unique =>
       n <- dict_getitem totals marker ;;
       Ok (if Z.eqb n 1 then (total_unique + 1)%Z else total_unique))
    0%Z.

(** The body of the loop [for cluster in marker_totals] (lines 87-95). *)
Definition cluster_details_step (marker_totals : dict Z (dict string Z))
    (expected_number : Z) (cluster : Z) (cluster_details : dict Z quality)
  : result (dict Z quality) :=
  totals <- dict_getitem marker_totals cluster ;;
  let total_markers := Z.of_nat (List.length totals) in
  total_unique <- count_unique totals ;;
  c <- py_truediv (inject_Z total_markers) (inject_Z expected_number) ;;
  p <- py_truediv (inject_Z total_unique) (inject_Z expected_number) ;;
  let completeness := (c * 100)%Q in
  let purity := (p * 100)%Q in
  Ok (dict_set cluster_details cluster (mk_quality completeness purity)).

Definition getClusterInfo (pandas_table : table) (hmm_dictionary : hmm_dict)
    (life_domain : string) : result (dict Z quality) :=
  marker_totals <-
    for_in pandas_table (marker_totals_row hmm_dictionary) [] ;;
  let expected_number := expected_number life_domain in
  for_in (dict_keys marker_totals)
    (cluster_details_step marker_totals expected_number) [].

(** ** [getClusterSummaryInfo] (lines 99-168) *)

(** The per-contig record [{'length': .., 'gc': .., 'cov': ..}]; the key
    ['length_fraction'] is added later. *)
Module Info.
Record t : Type := mk {
  length : Z;
  gc : Q;
  cov : Q;
  length_fraction : option Q
}.

Definition of_row (r : row) : t :=
  mk (TableRow.length r) (TableRow.gc r) (TableRow.cov r) None.

Definition set_length_fraction (i : t) (f : Q) : t :=
  mk (length i) (gc i) (cov i) (Some f).

(** [info['length_fraction']] *)
Definition get_length_fraction (i : t) : result Q :=
  match length_fraction i with
  | Some f => Ok f
  | None => Raise KeyError
  end.
End Info.

Definition contig_dict : Type := dict string Info.t.

(** The body of the loop of lines 101-105. *)
Definition cluster_contig_info_row (cluster_contig_info : dict Z contig_dict)
    (row : row) : dict Z contig_dict :=
  match dict_get cluster_contig_info (TableRow.db_cluster row) with
  | Some contigs =>
      dict_set cluster_contig_info (TableRow.db_cluster row)
        (dict_set contigs (TableRow.contig row) (Info.of_row row))
  | None =>
      dict_set cluster_contig_info (TableRow.db_cluster row)
        [(TableRow.contig row, Info.of_row row)]
  end.

Definition cluster_contig_info (pandas_table : table) : dict Z contig_dict :=
  fold_left cluster_contig_info_row pandas_table [].

(** [for i in range(len(l)): if l[i] < length: insertion_index = i; break] *)
Fixpoint insertion_index_from (i : nat) (l : list Z) (length : Z)
  : option nat :=
  match l with
  | [] => None
  | x :: l' =>
      if Z.ltb x length then Some i else insertion_index_from (S i) l' length
  end.

Definition insertion_index (l : list Z) (length : Z) : option nat :=
  insertion_index_from 0 l length.

(** [l.insert(i, x)] *)
Definition list_insert (i : nat) (x : Z) (l : list Z) : list Z :=
  firstn i l ++ x :: skipn i l.

(** Lines 117-130: where the new length goes in the list of the cluster. *)
Definition insert_length (lengths : list Z) (length : Z) : list Z :=
  match lengths with
  | [] => [length]
  | _ =>
      match insertion_index lengths length with
      | None => lengths ++ [length]
      | Some i => list_insert i length lengths
      end
  end.

Definition lengths_state : Type := (dict Z (list Z) * dict Z Z)%type.

(** The body of the loop [for contig in cluster_contig_info[cluster]]
    (lines 115-130). *)
Definition add_contig_length (cluster_contig_info : dict Z contig_dict)
    (cluster : Z) (contig : string) (st : lengths_state)
  : result lengths_state :=
  let '(cluster_contig_lengths, cluster_total_lengths) := st in
  contigs <- dict_getitem cluster_contig_info cluster ;;
  info <- dict_getitem contigs contig ;;
  let length := Info.length info in
  total <- dict_getitem cluster_total_lengths cluster ;;
  let cluster_total_lengths :=
    dict_set cluster_total_lengths cluster (total + length)%Z in
  lengths <- dict_getitem cluster_contig_lengths cluster ;;
  Ok (dict_set cluster_contig_lengths cluster (insert_length lengths length),
      cluster_total_lengths).

(** The body of the loop [for cluster in cluster_contig_info]
    (lines 111-130). *)
Definition cluster_lengths_step (cluster_contig_info : dict Z contig_dict)
    (cluster : Z) (st : lengths_state) : result lengths_state :=
  let '(cluster_contig_lengths, cluster_total_lengths) := st in
  let cluster_contig_lengths := dict_set cluster_contig_lengths cluster [] in
  let cluster_total_lengths := dict_set cluster_total_lengths cluster 0%Z in
  contigs <- dict_getitem cluster_contig_info cluster ;;
  for_in (dict_keys contigs) (add_contig_length cluster_contig_info cluster)
    (cluster_contig_lengths, cluster_total_lengths).

(** The loop [for current_length in ...: ... break]. *)
Fixpoint n50_scan (lengths : list Z) (running_total : Z) (target_length : Q)
  : option Z :=
  match lengths with
  | [] => None
  | current_length :: rest =>
      let running_total := (running_total + current_length)%Z in
      if Qle_bool target_length (inject_Z running_total)
      then Some current_length
      else n50_scan rest running_total target_length
  end.

(** The body of the loop [for cluster in cluster_contig_lengths]
    (lines 133-142). *)
Definition cluster_n50_step (cluster_contig_lengths : dict Z (list Z))
    (cluster_total_lengths : dict Z Z) (cluster : Z)
    (cluster_n50s : dict Z (option Z)) : result (dict Z (option Z)) :=
  total <- dict_getitem cluster_total_lengths cluster ;;
  let target_length := (inject_Z total / 2)%Q in
  lengths <- dict_getitem cluster_contig_lengths cluster ;;
  let n50 := n50_scan lengths 0 target_length in
  Ok (dict_set cluster_n50s cluster n50).

(** Lines 147-149. *)
Definition length_fraction_contig (cluster_total_lengths : dict Z Z)
    (cluster : Z) (contig : string) (cluster_contig_info : dict Z contig_dict)
  : result (dict Z contig_dict) :=
  contigs <- dict_getitem cluster_contig_info cluster ;;
  info <- dict_getitem contigs contig ;;
  let length := Info.length info in
  total <- dict_getitem cluster_total_lengths cluster ;;
  length_fraction <- py_truediv (inject_Z length) (inject_Z total) ;;
  Ok (dict_set cluster_contig_info cluster
        (dict_set contigs contig
           (Info.set_length_fraction info length_fraction))).

(** Lines 145-149; the loop runs over the keys of the dict it updates. *)
Definition length_fraction_step (cluster_total_lengths : dict Z Z)
    (cluster : Z) (cluster_contig_info : dict Z contig_dict)
  : result (dict Z contig_dict) :=
  contigs <- dict_getitem cluster_contig_info cluster ;;
  for_in (dict_keys contigs)
    (length_fraction_contig cluster_total_lengths cluster)
    cluster_contig_info.

Definition averages_state : Type := (dict Z Q * dict Z Q)%type.

(** Lines 158-161. *)
Definition add_contig_average (cluster_contig_info : dict Z contig_dict)
    (cluster : Z) (contig : string) (st : averages_state)
  : result averages_state :=
  let '(cluster_gc_weighted_av, cluster_cov_weighted_av) := st in
  contigs <- dict_getitem cluster_contig_info cluster ;;
  info <- dict_getitem contigs contig ;;
  fraction <- Info.get_length_fraction info ;;
  let gc_addition := (Info.gc info * fraction)%Q in
  av <- dict_getitem cluster_gc_weighted_av cluster ;;
  let cluster_gc_weighted_av :=
    dict_set cluster_gc_weighted_av cluster (av + gc_addition)%Q in
  let cov_addition := (Info.cov info * fraction)%Q in
  av <- dict_getitem cluster_cov_weighted_av cluster ;;
  let cluster_cov_weighted_av :=
    dict_set cluster_cov_weighted_av cluster (av + cov_addition)%Q in
  Ok (cluster_gc_weighted_av, cluster_cov_weighted_av).

(** Lines 154-161. *)
Definition averages_step (cluster_contig_info : dict Z contig_dict)
    (cluster : Z) (st : averages_state) : result averages_state :=
  let '(cluster_gc_weighted_av, cluster_cov_weighted_av) := st in
  let cluster_gc_weighted_av := dict_set cluster_gc_weighted_av cluster 0%Q in
  let cluster_cov_weighted_av :=
    dict_set cluster_cov_weighted_av cluster 0%Q in
  contigs <- dict_getitem cluster_contig_info cluster ;;
  for_in (dict_keys contigs) (add_contig_average cluster_contig_info cluster)
    (cluster_gc_weighted_av, cluster_cov_weighted_av).

Record summary : Type := mk_summary {
  size : Z;
  longest_contig : Z;
  n50 : option Z;
  number_contigs : Z;
  cov : Q;
  gc_percent : Q
}.

(** Line 166. *)
Definition output_step (cluster_total_lengths : dict Z Z)
    (cluster_contig_lengths : dict Z (list Z))
    (cluster_n50s : dict Z (option Z))
    (cluster_cov_weighted_av cluster_gc_weighted_av : dict Z Q)
    (cluster : Z) (output_dictionary : dict Z summary)
  : result (dict Z summary) :=
  size <- dict_getitem cluster_total_lengths cluster ;;
  lengths <- dict_getitem cluster_contig_lengths cluster ;;
  longest_contig <- list_first lengths ;;
  n50 <- dict_getitem cluster_n50s cluster ;;
  lengths' <- dict_getitem cluster_contig_lengths cluster ;;
  let number_contigs := Z.of_nat (List.length lengths') in
  cov <- dict_getitem cluster_cov_weighted_av cluster ;;
  gc_percent <- dict_getitem cluster_gc_weighted_av cluster ;;
  Ok (dict_set output_dictionary cluster
        (mk_summary size longest_contig n50 number_contigs cov gc_percent)).

Definition getClusterSummaryInfo (pandas_table : table)
  : result (dict Z summary) :=
  let cluster_contig_info := cluster_contig_info pandas_table in
  st <- for_in (dict_keys cluster_contig_info)
          (cluster_lengths_step cluster_contig_info) ([], []) ;;
  let '(cluster_contig_lengths, cluster_total_lengths) := st in
  cluster_n50s <-
    for_in (dict_keys cluster_contig_lengths)
      (cluster_n50_step cluster_contig_lengths cluster_total_lengths) [] ;;
  cluster_contig_info <-
    for_in (dict_keys cluster_contig_info)
      (length_fraction_step cluster_total_lengths) cluster_contig_info ;;
  av <- for_in (dict_keys cluster_contig_info)
          (averages_step cluster_contig_info) ([], []) ;;
  let '(cluster_gc_weighted_av, cluster_cov_weighted_av) := av in
  for_in (dict_keys cluster_contig_info)
    (output_step cluster_total_lengths cluster_contig_lengths cluster_n50s
       cluster_cov_weighted_av cluster_gc_weighted_av) [].

(** ** The marker table (lines 189-210) *)

(** A line of the marker table after the header: the contig and its second
    column, [None] for the sentinel 'NA', [Some pfamList] for a
    comma-separated list. *)
Definition hmm_line : Type := (string * option (list string))%type.

(** The body of the loop [for pfam in pfamList]. *)
Definition add_pfam (contig : string) (contig_markers : hmm_dict)
    (pfam : string) : hmm_dict :=
  match dict_get contig_markers contig with
  | Some markers =>
      match dict_get markers pfam with
      | Some n =>
          dict_set contig_markers contig (dict_set markers pfam (n + 1)%Z)
      | None => dict_set contig_markers contig (dict_set markers pfam 1%Z)
      end
  | None => dict_set contig_markers contig [(pfam, 1%Z)]
  end.

Definition parse_hmm_line (contig_markers : hmm_dict) (line : hmm_line)
  : hmm_dict :=
  match snd line with
  | None => contig_markers
  | Some pfamList => fold_left (add_pfam (fst line)) pfamList contig_markers
  end.

Definition parse_hmm_table (hmm_table_lines : list hmm_line) : hmm_dict :=
  fold_left parse_hmm_line hmm_table_lines [].

(** ** The R function [dbscan_simple] and the radius sweep (lines 34-47 and
    215-228) *)

(** [float('inf')] or an [int]. *)
Inductive cluster_count : Type :=
| Infinity
| Count (n : nat).

(** [number_of_clusters > 1] *)
Definition more_than_one (n : cluster_count) : bool :=
  match n with
  | Infinity => true
  | Count n => (1 <? n)%nat
  end.

Record sweep_state : Type := mk_sweep {
  current_eps : Q;
  db_tables : dict Q table;
  number_of_clusters : cluster_count
}.

Section Sweep.
(** The clustering primitive [dbscan(d, eps, minPts)] of the R package: one
    label per point, 0 for noise. *)
Variable dbscan : list (Q * Q) -> Q -> Z -> list Z.

(** The R function [dbscan_simple]: the input table with the labels as its
    [db_cluster] column. *)
Definition dbscan_simple (input_data_frame : table) (eps : Q) : table :=
  let d :=
    map (fun r => (TableRow.vizbin_x r, TableRow.vizbin_y r))
        input_data_frame in
  let db_cluster := dbscan d eps 3 in
  map (fun rc => with_cluster (fst rc) (snd rc))
      (combine input_data_frame db_cluster).

(** One pass through the body of the [while] loop. *)
Definition sweep_body (vizbin_r : table) (st : sweep_state) : sweep_state :=
  let dbscan_output := dbscan_simple vizbin_r (current_eps st) in
  let new_pd_copy := dbscan_output in
  let db_tables := dict_set (db_tables st) (current_eps st) new_pd_copy in
  let current_eps := (current_eps st + (1 # 10))%Q in
  mk_sweep current_eps db_tables (Count (countClusters new_pd_copy)).

(** [while number_of_clusters > 1: ...], at most [fuel] tests of the
    condition. *)
Fixpoint sweep_loop (fuel : nat) (vizbin_r : table) (st : sweep_state)
  : option sweep_state :=
  match fuel with
  | O => None
  | S fuel' =>
      if more_than_one (number_of_clusters st)
      then sweep_loop fuel' vizbin_r (sweep_body vizbin_r st)
      else Some st
  end.

Definition sweep_init : sweep_state := mk_sweep (3 # 10) [] Infinity.

Definition sweep (fuel : nat) (vizbin_r : table) : option (dict Q table) :=
  option_map db_tables (sweep_loop fuel vizbin_r sweep_init).

End Sweep.

(** ** Selecting the radius (lines 233-257) *)

Definition cluster_info_step (db_tables : dict Q table) (hmm : hmm_dict)
    (life_domain : string) (eps : Q) (cluster_info : dict Q (dict Z quality))
  : result (dict Q (dict Z quality)) :=
  current_table <- dict_getitem db_tables eps ;;
  current_cluster_info <- getClusterInfo current_table hmm life_domain ;;
  Ok (dict_set cluster_info eps current_cluster_info).

(** The body of the loop over the clusters of one radius. *)
Definition count_cluster (cluster_info : dict Q (dict Z quality)) (eps : Q)
    (completeness_cutoff purity_cutoff : Z) (cluster : Z) (st : Z * Z)
  : result (Z * Z) :=
  let '(complete_clusters, pure_clusters) := st in
  info <- dict_getitem cluster_info eps ;;
  q <- dict_getitem info cluster ;;
  let completeness := completeness q in
  info' <- dict_getitem cluster_info eps ;;
  q' <- dict_getitem info' cluster ;;
  let purity := purity q' in
  let complete_clusters :=
    if Qgt_bool completeness (inject_Z completeness_cutoff)
       && Qgt_bool purity (inject_Z purity_cutoff)
    then (complete_clusters + 1)%Z else complete_clusters in
  let pure_clusters :=
    if Qgt_bool purity (inject_Z purity_cutoff)
    then (pure_clusters + 1)%Z else pure_clusters in
  Ok (complete_clusters, pure_clusters).

Definition counts_state : Type := (dict Q Z * dict Q Z)%type.

(** The body of the loop [for eps in cluster_info] (lines 242-253). *)
Definition count_step (cluster_info : dict Q (dict Z quality))
    (completeness_cutoff purity_cutoff : Z) (eps : Q) (st : counts_state)
  : result counts_state :=
  let '(number_complete_and_pure_clusters, number_pure_clusters) := st in
  info <- dict_getitem cluster_info eps ;;
  counts <-
    for_in (dict_keys info)
      (count_cluster cluster_info eps completeness_cutoff purity_cutoff)
      (0%Z, 0%Z) ;;
  let '(complete_clusters, pure_clusters) := counts in
  Ok (dict_set number_complete_and_pure_clusters eps complete_clusters,
      dict_set number_pure_clusters eps pure_clusters).

(** [sorted(.., reverse=True)] is stable: elements with equal keys keep
    their order.  [insert_by_count x l] puts [x] in front of the first
    element whose count is not larger. *)
Fixpoint insert_by_count (x : Q * Z) (l : list (Q * Z)) : list (Q * Z) :=
  match l with
  | [] => [x]
  | y :: l' =>
      if Z.ltb (snd x) (snd y) then y :: insert_by_count x l' else x :: l
  end.

Definition sort_by_count_desc (l : list (Q * Z)) : list (Q * Z) :=
  fold_right insert_by_count [] l.

(** [sorted(counts, key=counts.__getitem__, reverse=True)] *)
Definition sorted_eps (counts : dict Q Z) : result (list Q) :=
  keyed <-
    for_in (dict_keys counts)
      (fun eps keyed =>
         n <- dict_getitem counts eps ;; Ok (keyed ++ [(eps, n)]))
      [] ;;
  Ok (map fst (sort_by_count_desc keyed)).

Record selection : Type := mk_selection {
  cluster_info : dict Q (dict Z quality);
  number_complete_and_pure_clusters : dict Q Z;
  number_pure_clusters : dict Q Z;
  best_eps_value : Q
}.

(** Lines 233-257. *)
Definition select_eps (db_tables : dict Q table) (hmm : hmm_dict)
    (life_domain : string) (completeness_cutoff purity_cutoff : Z)
  : result selection :=
  cluster_info <-
    for_in (dict_keys db_tables)
      (cluster_info_step db_tables hmm life_domain) [] ;;
  st <- for_in (dict_keys cluster_info)
          (count_step cluster_info completeness_cutoff purity_cutoff)
          ([], []) ;;
  let '(number_complete_and_pure_clusters, number_pure_clusters) := st in
  sorted_eps_values <- sorted_eps number_complete_and_pure_clusters ;;
  best_eps_value <- list_first sorted_eps_values ;;
  Ok (mk_selection cluster_info number_complete_and_pure_clusters
        number_pure_clusters best_eps_value).

(** ** Partitioning the selected assignment (lines 259-286) *)

(** [completeness > completeness_cutoff and purity > purity_cutoff] *)
Definition is_complete_and_pure (completeness_cutoff purity_cutoff : Z)
    (q : quality) : bool :=
  Qgt_bool (completeness q) (inject_Z completeness_cutoff)
  && Qgt_bool (purity q) (inject_Z purity_cutoff).

Definition classes : Type := (dict Z Z * dict Z Z)%type.

(** The body of the loop filling [complete_and_pure_clusters] and
    [other_clusters]. *)
Definition classify_cluster (info : dict Z quality)
    (completeness_cutoff purity_cutoff : Z) (cluster : Z) (st : classes)
  : result classes :=
  let '(complete_and_pure_clusters, other_clusters) := st in
  q <- dict_getitem info cluster ;;
  let completeness := completeness q in
  q' <- dict_getitem info cluster ;;
  let purity := purity q' in
  if Qgt_bool completeness (inject_Z completeness_cutoff)
     && Qgt_bool purity (inject_Z purity_cutoff)
  then Ok (dict_set complete_and_pure_clusters cluster 1%Z, other_clusters)
  else Ok (complete_and_pure_clusters, dict_set other_clusters cluster 1%Z).

(** Lines 263-271. *)
Definition classify_clusters (info : dict Z quality)
    (completeness_cutoff purity_cutoff : Z) : result classes :=
  for_in (dict_keys info)
    (classify_cluster info completeness_cutoff purity_cutoff) ([], []).

(** [table[table['db_cluster'] != cluster]] *)
Definition drop_cluster (t : table) (cluster : Z) : table :=
  filter (fun r => negb (Z.eqb (TableRow.db_cluster r) cluster)) t.

(** The tables written to [nonclustered_table] and [clustered_table]. *)
Definition subset_tables (best_db_table : table)
    (complete_and_pure_clusters other_clusters : dict Z Z) : table * table :=
  let subset_other_db_table :=
    fold_left drop_cluster (dict_keys complete_and_pure_clusters)
      best_db_table in
  let subset_complete_db_table :=
    fold_left drop_cluster (dict_keys other_clusters) best_db_table in
  (subset_other_db_table, subset_complete_db_table).

Record partition : Type := mk_partition {
  complete_and_pure_clusters : dict Z Z;
  other_clusters : dict Z Z;
  nonclustered_table : table;
  clustered_table : table
}.

(** Lines 263-286: [info] is [cluster_info[best_eps_value]]. *)
Definition partition_table (best_db_table : table) (info : dict Z quality)
    (completeness_cutoff purity_cutoff : Z) : result partition :=
  st <- classify_clusters info completeness_cutoff purity_cutoff ;;
  let '(complete_and_pure_clusters, other_clusters) := st in
  let '(subset_other_db_table, subset_complete_db_table) :=
    subset_tables best_db_table complete_and_pure_clusters other_clusters in
  Ok (mk_partition complete_and_pure_clusters other_clusters
        subset_other_db_table subset_complete_db_table).

(** ** FASTA output (lines 315-335) *)

(** A record of the assembly, as [SeqIO.parse] yields it. *)
Module SeqRecord.
Record t : Type := mk { id : string; seq : string }.
End SeqRecord.

Definition seq_record : Type := SeqRecord.t.

(** The keys of [output_fastas]: the string ['unclustered'] or a cluster
    label. *)
Inductive fasta_key : Type :=
| Unclustered
| Cluster (c : Z).

Definition fasta_key_eqb (a b : fasta_key) : bool :=
  match a, b with
  | Unclustered, Unclustered => true
  | Cluster x, Cluster y => Z.eqb x y
  | _, _ => false
  end.

#[export] Instance fasta_key_key : PyKey fasta_key :=
  {| key_eqb := fasta_key_eqb |}.

(** [for seq_record in SeqIO.parse(..): assembly_seqs[seq_record.id] = ..] *)
Definition parse_assembly (records : list seq_record)
  : dict string seq_record :=
  fold_left (fun assembly_seqs r => dict_set assembly_seqs (SeqRecord.id r) r)
            records [].

Definition fasta_dict : Type := dict fasta_key (list seq_record).

(** [output_fastas['unclustered'] = []] and one empty list per complete and
    pure cluster. *)
Definition init_output_fastas (complete_and_pure_clusters : dict Z Z)
  : fasta_dict :=
  fold_left (fun output_fastas cluster =>
               dict_set output_fastas (Cluster cluster) [])
            (dict_keys complete_and_pure_clusters)
            [(Unclustered, [])].

(** The body of the loop over the rows of [best_db_table]. *)
Definition append_record (assembly_seqs : dict string seq_record)
    (complete_and_pure_clusters : dict Z Z) (row : row)
    (output_fastas : fasta_dict) : result fasta_dict :=
  let contig := TableRow.contig row in
  let cluster := TableRow.db_cluster row in
  seq_record <- dict_getitem assembly_seqs contig ;;
  if dict_mem complete_and_pure_clusters cluster then
    records <- dict_getitem output_fastas (Cluster cluster) ;;
    Ok (dict_set output_fastas (Cluster cluster) (records ++ [seq_record]))
  else
    records <- dict_getitem output_fastas Unclustered ;;
    Ok (dict_set output_fastas Unclustered (records ++ [seq_record])).

(** Lines 317-335; [None] when no FASTA path was given. *)
Definition collect_fastas (fasta : option (list seq_record))
    (complete_and_pure_clusters : dict Z Z) (best_db_table : table)
  : result (option fasta_dict) :=
  match fasta with
  | None => Ok None
  | Some records =>
      let assembly_seqs := parse_assembly records in
      let output_fastas := init_output_fastas complete_and_pure_clusters in
      output_fastas <-
        for_in best_db_table
          (append_record assembly_seqs complete_and_pure_clusters)
          output_fastas ;;
      Ok (Some output_fastas)
  end.

(** ** Reading the marker table (lines 192-201) *)

(** [s.split(sep)] for a separator of one character: the pieces between
    the occurrences of [sep], at least one. *)
Fixpoint split_on (sep : ascii) (s : string) : list string :=
  match s with
  | EmptyString => [EmptyString]
  | String c s' =>
      if Ascii.eqb c sep then EmptyString :: split_on sep s'
      else
        match split_on sep s' with
        | piece :: pieces => String c piece :: pieces
        | [] => [String c EmptyString]
        end
  end.

(** [l[i]] for an index that is not negative *)
Definition list_item {A : Type} (l : list A) (i : nat) : result A :=
  match nth_error l i with
  | Some x => Ok x
  | None => Raise IndexError
  end.

Definition tab : ascii := "009"%char.

Definition comma : ascii := ","%char.

(** Lines 196-201: the contig and the marker list of one line. *)
Definition read_hmm_line (line : string) : result hmm_line :=
  let lineList := split_on tab line in
  contig <- list_item lineList 0 ;;
  pfamString <- list_item lineList 1 ;;
  if String.eqb pfamString "NA" then Ok (contig, None)
  else Ok (contig, Some (split_on comma pfamString)).

(** Lines 190-210: every line but the first is read and counted. *)
Definition read_contig_markers (hmm_table_lines : list string)
  : result hmm_dict :=
  for_in (tl hmm_table_lines)
    (fun line contig_markers =>
       fields <- read_hmm_line line ;;
       Ok (parse_hmm_line contig_markers fields))
    [].

(** ** The summary table (lines 288-313) *)

(** The fields of one line of the summary table, before they are joined by
    tabs.  Numbers are kept as numbers: [float(str(x))] is [x]. *)
Module SummaryLine.
Record t : Type := mk {
  cluster : Z;
  size : Z;
  longest_contig : Z;
  n50 : option Z;
  number_contigs : Z;
  completeness : Q;
  purity : Q;
  cov : Q;
  gc : Q;
  status : string
}.
End SummaryLine.

(** The body of the loop [for cluster in summary_info] (lines 295-312). *)
Definition summary_line_step (summary_info : dict Z summary)
    (cluster_info : dict Q (dict Z quality)) (best_eps_value : Q)
    (completeness_cutoff purity_cutoff : Z) (cluster : Z)
    (summary_table : list SummaryLine.t) : result (list SummaryLine.t) :=
  s <- dict_getitem summary_info cluster ;;
  let size := size s in
  s <- dict_getitem summary_info cluster ;;
  let longest_contig := longest_contig s in
  s <- dict_getitem summary_info cluster ;;
  let n50 := n50 s in
  s <- dict_getitem summary_info cluster ;;
  let number_contigs := number_contigs s in
  info <- dict_getitem cluster_info best_eps_value ;;
  q <- dict_getitem info cluster ;;
  let completeness := completeness q in
  info <- dict_getitem cluster_info best_eps_value ;;
  q <- dict_getitem info cluster ;;
  let purity := purity q in
  s <- dict_getitem summary_info cluster ;;
  let cov := cov s in
  s <- dict_getitem summary_info cluster ;;
  let gc := gc_percent s in
  let status :=
    if Qgt_bool completeness (inject_Z completeness_cutoff)
       && Qgt_bool purity (inject_Z purity_cutoff)
    then "complete_and_pure"%string
    else "incomplete_or_impure"%string in
  Ok (summary_table ++
      [SummaryLine.mk cluster size longest_contig n50 number_contigs
         completeness purity cov gc status]).

(** The lines written after the header, in order. *)
Definition summary_table (summary_info : dict Z summary)
    (cluster_info : dict Q (dict Z quality)) (best_eps_value : Q)
    (completeness_cutoff purity_cutoff : Z) : result (list SummaryLine.t) :=
  for_in (dict_keys summary_info)
    (summary_line_step summary_info cluster_info best_eps_value
       completeness_cutoff purity_cutoff)
    [].

(** ** The FASTA files (lines 338-343) *)

(** [str(n)] for an [int]: the decimal digits, with a minus sign in front of
    a negative number. *)
Definition str_of_Z (n : Z) : string := NilZero.string_of_int (Z.to_int n).

Definition fasta_output_path (outdir : string) (cluster : fasta_key)
  : string :=
  match cluster with
  | Unclustered => ((outdir ++ "/") ++ "unclustered") ++ ".fasta"
  | Cluster c => ((outdir ++ "/cluster_") ++ str_of_Z c) ++ ".fasta"
  end%string.

(** The calls of [SeqIO.write], in order: the path and the records. *)
Definition write_fastas (outdir : string) (output_fastas : fasta_dict)
  : result (list (string * list seq_record)) :=
  for_in (dict_keys output_fastas)
    (fun cluster written =>
       records <- dict_getitem output_fastas cluster ;;
       Ok (written ++ [(fasta_output_path outdir cluster, records)]))
    [].

(** ** The script after the sweep (lines 233-343) *)

Record outputs : Type := mk_outputs {
  out_selection : selection;
  out_best_db_table : table;
  out_partition : partition;
  out_summary_info : dict Z summary;
  out_summary_table : list SummaryLine.t;
  out_fastas : option (list (string * list seq_record))
}.

Definition after_sweep (db_tables : dict Q table) (contig_markers : hmm_dict)
    (domain : string) (completeness_cutoff purity_cutoff : Z)
    (fasta : option (list seq_record)) (outdir : string) : result outputs :=
  sel <- select_eps db_tables contig_markers domain completeness_cutoff
           purity_cutoff ;;
  best_db_table <- dict_getitem db_tables (best_eps_value sel) ;;
  info <- dict_getitem (cluster_info sel) (best_eps_value sel) ;;
  p <- partition_table best_db_table info completeness_cutoff purity_cutoff ;;
  summary_info <- getClusterSummaryInfo best_db_table ;;
  lines <- summary_table summary_info (cluster_info sel) (best_eps_value sel)
             completeness_cutoff purity_cutoff ;;
  output_fastas <-
    collect_fastas fasta (complete_and_pure_clusters p) best_db_table ;;
  written <-
    match output_fastas with
    | None => Ok None
    | Some output_fastas =>
        written <- write_fastas outdir output_fastas ;; Ok (Some written)
    end ;;
  Ok (mk_outputs sel best_db_table p summary_info lines written).

Section Script.
Variable dbscan : list (Q * Q) -> Q -> Z -> list Z.

(** The script from the marker table on; [None] when the sweep has not
    stopped after [fuel] tests of its condition. *)
Definition script (fuel : nat) (hmm_table_lines : list string)
    (vizbin_r : table) (domain : string)
    (completeness_cutoff purity_cutoff : Z)
    (fasta : option (list seq_record)) (outdir : string)
  : option (result outputs) :=
  match read_contig_markers hmm_table_lines with
  | Raise e => Some (Raise e)
  | Ok contig_markers =>
      match sweep dbscan fuel vizbin_r with
      | None => None
      | Some db_tables =>
          Some (after_sweep db_tables contig_markers domain
                  completeness_cutoff purity_cutoff fasta outdir)
      end
  end.
End Script.

(** * Part II: the vocabulary of the specification *)

(** ** Clusters, markers and scores *)

Definition labels (t : table) : list Z := map TableRow.db_cluster t.

Definition distinct_labels (t : table) : list Z :=
  nodup Z.eq_dec (map TableRow.db_cluster t).

Definition cluster_rows (t : table) (c : Z) : table :=
  filter (fun r => Z.eqb (TableRow.db_cluster r) c) t.

Definition Zsum (l : list Z) : Z := fold_right Z.add 0%Z l.

Definition Qsum (l : list Q) : Q := fold_right Qplus 0%Q l.

Definition contig_profile (hmm : hmm_dict) (contig : string) : dict string Z :=
  match dict_get hmm contig with
  | Some profile => profile
  | None => []
  end.

Definition marker_count (profile : dict string Z) (m : string) : Z :=
  match dict_get profile m with
  | Some n => n
  | None => 0%Z
  end.

(** Every marker observed on a contig of the cluster, with repetitions. *)
Definition cluster_marker_ids (hmm : hmm_dict) (t : table) (c : Z)
  : list string :=
  flat_map (fun r => dict_keys (contig_profile hmm (TableRow.contig r)))
           (cluster_rows t c).

(** Occurrences of marker [m] summed over the contigs of the cluster. *)
Definition summed_occurrence (hmm : hmm_dict) (t : table) (c : Z) (m : string)
  : Z :=
  Zsum (map (fun r => marker_count (contig_profile hmm (TableRow.contig r)) m)
            (cluster_rows t c)).

Definition distinct_markers (hmm : hmm_dict) (t : table) (c : Z)
  : list string :=
  nodup string_dec (cluster_marker_ids hmm t c).

Definition total_markers (hmm : hmm_dict) (t : table) (c : Z) : Z :=
  Z.of_nat (List.length (distinct_markers hmm t c)).

Definition total_unique (hmm : hmm_dict) (t : table) (c : Z) : Z :=
  Z.of_nat (List.length
    (filter (fun m => Z.eqb (summed_occurrence hmm t c m) 1)
            (distinct_markers hmm t c))).

(** A marker profile is a dict of dicts. *)
Definition hmm_wf (hmm : hmm_dict) : Prop :=
  forall contig profile, dict_get hmm contig = Some profile -> dict_wf profile.

(** The number of clusters of [info] that are complete and pure. *)
Definition complete_and_pure_count (completeness_cutoff purity_cutoff : Z)
    (info : dict Z quality) : Z :=
  Z.of_nat (List.length
    (filter (fun kq => is_complete_and_pure completeness_cutoff purity_cutoff
                         (snd kq)) info)).

Definition pure_count (purity_cutoff : Z) (info : dict Z quality) : Z :=
  Z.of_nat (List.length
    (filter (fun kq => Qgt_bool (purity (snd kq)) (inject_Z purity_cutoff))
            info)).

(** ** The contigs of a cluster and their summary *)

(** The last row of [rows] that carries the contig identifier [id]. *)
Definition last_row (rows : table) (id : string) : option row :=
  find (fun r => String.eqb (TableRow.contig r) id) (rev rows).

(** The distinct contig identifiers of the rows of cluster [c]. *)
Definition cluster_contig_ids (t : table) (c : Z) : list string :=
  nodup string_dec (map TableRow.contig (cluster_rows t c)).

(** One row per distinct contig identifier of the cluster: the last one. *)
Definition cluster_contigs (t : table) (c : Z) : list row :=
  flat_map
    (fun id =>
       match last_row (cluster_rows t c) id with
       | Some r => [r]
       | None => []
       end)
    (cluster_contig_ids t c).

Definition cluster_lengths (t : table) (c : Z) : list Z :=
  map TableRow.length (cluster_contigs t c).

(** Contig lengths are positive integers. *)
Definition lengths_positive (t : table) : Prop :=
  forall r, In r t -> (0 < TableRow.length r)%Z.

(** The weight of a contig in a cluster of total length [size]. *)
Definition contig_weight (size : Z) (r : row) : Q :=
  (inject_Z (TableRow.length r) / inject_Z size)%Q.

Definition is_maximum (l : list Z) (m : Z) : Prop :=
  In m l /\ forall x, In x l -> (x <= m)%Z.

(** The list [cluster_contig_lengths[cluster]] after the lengths [l] have been
    inserted one by one. *)
Definition sorted_insertion (l : list Z) : list Z :=
  fold_left insert_length l [].

Module ZDescending <: TotalLeBool.
Definition t : Type := Z.
Definition leb (x y : Z) : bool := Z.leb y x.
Lemma leb_total (x y : Z) : leb x y = true \/ leb y x = true.
Proof. unfold leb. rewrite !Z.leb_le. lia. Qed.
End ZDescending.

Module ZDescSort := Sort ZDescending.

(** [sorted(l, reverse=True)] *)
Definition sort_descending (l : list Z) : list Z := ZDescSort.sort l.

Definition descending (x y : Z) : Prop := (y <= x)%Z.

(** [n] is the element of [sorted] at the first position where the running
    sum reaches half of the total.  (Doubling the running sum avoids the
    fraction: [running >= total / 2] iff [total <= 2 * running].) *)
Definition first_reaching_half (sorted : list Z) (n : Z) : Prop :=
  exists k,
    nth_error sorted k = Some n /\
    (Zsum sorted <= 2 * Zsum (firstn (S k) sorted))%Z /\
    forall j, (j < k)%nat -> (2 * Zsum (firstn (S j) sorted) < Zsum sorted)%Z.

(** [n] is a length of the list whose lengths at least [n] sum to half of the
    total or more, and no larger length of the list does. *)
Definition largest_covering_half (lens : list Z) (n : Z) : Prop :=
  In n lens /\
  (Zsum lens <= 2 * Zsum (filter (fun x => Z.leb n x) lens))%Z /\
  forall n', In n' lens -> (n < n')%Z ->
             (2 * Zsum (filter (fun x => Z.leb n' x) lens) < Zsum lens)%Z.

(** ** Radii, assignments and FASTA collections *)

(** The radius of iteration [k] (counted from 0). *)
Definition radius (k : nat) : Q :=
  Nat.iter k (fun eps => (eps + (1 # 10))%Q) (3 # 10).

Section SweepAssignments.
Variable dbscan : list (Q * Q) -> Q -> Z -> list Z.

(** The assignment of iteration [k]. *)
Definition assignment (vizbin_r : table) (k : nat) : Q * table :=
  (radius k, dbscan_simple dbscan vizbin_r (radius k)).

Definition assignments (vizbin_r : table) (n : nat) : dict Q table :=
  map (assignment vizbin_r) (seq 0 n).
End SweepAssignments.

(** The collection a row goes to. *)
Definition fasta_key_of (cp : dict Z Z) (r : row) : fasta_key :=
  if dict_mem cp (TableRow.db_cluster r) then Cluster (TableRow.db_cluster r)
  else Unclustered.

(** The records of the rows [rows], in order. *)
Definition records_of (assembly_seqs : dict string seq_record) (rows : table)
  : list seq_record :=
  flat_map (fun r => match dict_get assembly_seqs (TableRow.contig r) with
                     | Some s => [s]
                     | None => []
                     end) rows.

(** ** Orders of labels, marker lines, coordinates and files *)

(** The labels of [l] in the order of their first occurrence. *)
Fixpoint first_seen (l : list Z) : list Z :=
  match l with
  | [] => []
  | c :: l' => c :: filter (fun c' => negb (Z.eqb c' c)) (first_seen l')
  end.

(** The occurrences of [pfam] on a line, when the line is one of [contig]. *)
Definition line_occurrences (contig pfam : string) (line : hmm_line) : Z :=
  if String.eqb (fst line) contig then
    match snd line with
    | Some pfamList => Z.of_nat (count_occ string_dec pfamList pfam)
    | None => 0%Z
    end
  else 0%Z.

Definition table_occurrences (lines : list hmm_line) (contig pfam : string)
  : Z :=
  Zsum (map (line_occurrences contig pfam) lines).

(** The character [c] occurs in [s]. *)
Definition has_char (c : ascii) (s : string) : bool :=
  existsb (Ascii.eqb c) (list_ascii_of_string s).

(** [sep.join(pieces)] *)
Fixpoint join (sep : ascii) (pieces : list string) : string :=
  match pieces with
  | [] => EmptyString
  | [piece] => piece
  | piece :: rest => (piece ++ String sep (join sep rest))%string
  end.

(** The points handed to the clustering primitive. *)
Definition coordinates (t : table) : list (Q * Q) :=
  map (fun r => (TableRow.vizbin_x r, TableRow.vizbin_y r)) t.

(** A row without its label. *)
Definition unlabelled (r : row) : row := with_cluster r 0.

(** The number of records in all the collections. *)
Definition total_records (output_fastas : fasta_dict) : nat :=
  list_sum (map (@List.length seq_record) (dict_values output_fastas)).

(** The last record of the assembly with identifier [id]. *)
Definition last_record (records : list seq_record) (id : string)
  : option seq_record :=
  find (fun r => String.eqb (SeqRecord.id r) id) (rev records).

(** The status the summary table gives a cluster. *)
Definition status_of (completeness_cutoff purity_cutoff : Z) (q : quality)
  : string :=
  if is_complete_and_pure completeness_cutoff purity_cutoff q
  then "complete_and_pure"%string else "incomplete_or_impure"%string.

(** * Part III: functional forms and invariants used in the proofs *)

(** [{k: g(v) for k, v in d.items()}] *)
Definition dict_map_values {K V W : Type} (g : V -> W) (d : dict K V)
  : dict K W :=
  map (fun kv => (fst kv, g (snd kv))) d.

Definition inner_wf {A : Type} (d : dict Z (dict string A)) : Prop :=
  forall k v, In (k, v) d -> dict_wf v.

(** The effect of [add_contig_markers] on the totals of one cluster. *)
Definition add_profile (totals profile : dict string Z) : dict string Z :=
  fold_left
    (fun totals kv =>
       match dict_get totals (fst kv) with
       | Some old => dict_set totals (fst kv) (old + snd kv)%Z
       | None => dict_set totals (fst kv) (snd kv)
       end)
    profile totals.

(** What [marker_totals] holds after the rows [t] have been read. *)
Definition totals_of (hmm : hmm_dict) (t : table) (c : Z)
    (totals : dict string Z) : Prop :=
  dict_wf totals /\
  forall m,
    dict_get totals m =
    if in_dec string_dec m (cluster_marker_ids hmm t c)
    then Some (summed_occurrence hmm t c m)
    else None.

Definition marker_totals_inv (hmm : hmm_dict) (t : table)
    (mt : dict Z (dict string Z)) : Prop :=
  dict_wf mt /\
  (forall c, dict_get mt c = None <-> ~ In c (map TableRow.db_cluster t)) /\
  (forall c totals, dict_get mt c = Some totals -> totals_of hmm t c totals).

Definition unique_items (totals : dict string Z) : list (string * Z) :=
  filter (fun kv => Z.eqb (snd kv) 1) totals.

Definition score (expected : Z) (totals : dict string Z) : quality :=
  mk_quality
    (inject_Z (Z.of_nat (List.length totals)) / inject_Z expected * 100)
    (inject_Z (Z.of_nat (List.length (unique_items totals)))
     / inject_Z expected * 100).

Definition info_of (hmm : hmm_dict) (life_domain : string) (t : table)
  : dict Z quality :=
  match getClusterInfo t hmm life_domain with
  | Ok info => info
  | Raise _ => []
  end.

Definition class_of (info : dict Z quality)
    (completeness_cutoff purity_cutoff : Z) (c : Z) : bool :=
  match dict_get info c with
  | Some q => is_complete_and_pure completeness_cutoff purity_cutoff q
  | None => false
  end.

(** The insertion as a recursion on the list. *)
Fixpoint insert_desc (l : list Z) (x : Z) : list Z :=
  match l with
  | [] => [x]
  | y :: l' => if Z.ltb y x then x :: y :: l' else y :: insert_desc l' x
  end.

Definition contig_lengths (contigs : contig_dict) : list Z :=
  map Info.length (dict_values contigs).

Definition lengths_of (contigs : contig_dict) : list Z :=
  sorted_insertion (contig_lengths contigs).

Definition total_of (contigs : contig_dict) : Z :=
  fold_left Z.add (contig_lengths contigs) 0%Z.

Definition n50_of (contigs : contig_dict) : option Z :=
  n50_scan (lengths_of contigs) 0 (inject_Z (total_of contigs) / 2).

Definition fraction_of (total : Z) (info : Info.t) : Q :=
  (inject_Z (Info.length info) / inject_Z total)%Q.

Definition with_fractions (contigs : contig_dict) : contig_dict :=
  dict_map_values
    (fun info =>
       Info.set_length_fraction info (fraction_of (total_of contigs) info))
    contigs.

(** [sum(value(contig) * length_fraction(contig))], added left to right. *)
Definition weighted_average (value : Info.t -> Q) (contigs : contig_dict) : Q :=
  fold_left
    (fun av info =>
       (av + value info * fraction_of (total_of contigs) info)%Q)
    (dict_values contigs) 0%Q.

Definition summarize (contigs : contig_dict) : summary :=
  mk_summary
    (total_of contigs)
    (hd 0%Z (lengths_of contigs))
    (n50_of contigs)
    (Z.of_nat (List.length (lengths_of contigs)))
    (weighted_average Info.cov contigs)
    (weighted_average Info.gc contigs).

Definition set_fraction (total : Z) (info : Info.t) : Info.t :=
  Info.set_length_fraction info (fraction_of total info).

Definition fraction_or_zero (info : Info.t) : Q :=
  match Info.length_fraction info with
  | Some f => f
  | None => 0%Q
  end.

Definition average_of (value : Info.t -> Q) (contigs : contig_dict) : Q :=
  fold_left (fun av info => (av + value info * fraction_or_zero info)%Q)
            (dict_values contigs) 0%Q.

Definition has_fractions (contigs : contig_dict) : Prop :=
  forall id info, In (id, info) contigs -> Info.length_fraction info <> None.

(** [contigs] maps each contig identifier of cluster [c] to the data of the
    last row of the cluster with that identifier. *)
Definition contigs_of (t : table) (c : Z) (contigs : contig_dict) : Prop :=
  dict_wf contigs /\
  forall id,
    dict_get contigs id
    = option_map Info.of_row (last_row (cluster_rows t c) id).

Definition cluster_contig_info_inv (t : table) (cci : dict Z contig_dict)
  : Prop :=
  dict_wf cci /\
  (forall c, dict_get cci c = None <-> ~ In c (map TableRow.db_cluster t)) /\
  (forall c contigs, dict_get cci c = Some contigs -> contigs_of t c contigs).

Definition contig_item (r : row) : string * Info.t :=
  (TableRow.contig r, Info.of_row r).

Definition fasta_ready (cp : dict Z Z) (out : fasta_dict) : Prop :=
  forall r : row, dict_get out (fasta_key_of cp r) <> None.

Definition count_row (clusters : dict Z Z) (r : row) : dict Z Z :=
  match dict_get clusters (TableRow.db_cluster r) with
  | None => dict_set clusters (TableRow.db_cluster r) 1%Z
  | Some n => dict_set clusters (TableRow.db_cluster r) (n + 1)%Z
  end.

Section SweepInvariant.
Variable dbscan : list (Q * Q) -> Q -> Z -> list Z.

Definition table_at (vizbin_r : table) (k : nat) : table :=
  dbscan_simple dbscan vizbin_r (radius k).

(** After [k] passes: the radii and assignments so far, every assignment
    but the latest with more than one label. *)
Definition sweep_inv (vizbin_r : table) (st : sweep_state) : Prop :=
  exists k,
    current_eps st = radius k /\
    db_tables st = assignments dbscan vizbin_r k /\
    (forall i, (S i < k)%nat ->
               (1 < countClusters (table_at vizbin_r i))%nat) /\
    number_of_clusters st =
    match k with
    | O => Infinity
    | S j => Count (countClusters (table_at vizbin_r j))
    end.
End SweepInvariant.

(** The keys of a dict after [d[k] = v]. *)
Definition add_key (ks : list Z) (k : Z) : list Z :=
  if existsb (Z.eqb k) ks then ks else ks ++ [k].

(** The line of the summary table for a cluster. *)
Definition summary_line_of (cc pc : Z) (c : Z) (s : summary) (q : quality)
  : SummaryLine.t :=
  SummaryLine.mk c (size s) (longest_contig s) (n50 s) (number_contigs s)
    (completeness q) (purity q) (cov s) (gc_percent s) (status_of cc pc q).

(** * Part IV: example inputs *)

Definition ex_row (contig : string) (len : Z) (cluster : Z) : row :=
  TableRow.mk contig 0 0 len (1 # 2) 10 cluster.

(** The marker table of the specification's scenario:
    C1 carries PF01 twice, C2 carries PF02 once. *)
Definition ex_hmm : hmm_dict :=
  parse_hmm_table
    [("C1", Some ["PF01"; "PF01"]); ("C2", Some ["PF02"]); ("C3", None)]%string.

Definition ex_table : table :=
  [ex_row "C1" 500 1; ex_row "C2" 300 1; ex_row "C3" 150 0]%string.

Definition ex_summary_table : table :=
  [ex_row "a" 500 1; ex_row "b" 300 1; ex_row "c" 150 1; ex_row "d" 50 1;
   ex_row "e" 40 0; ex_row "e" 60 0; ex_row "f" 60 0]%string.

Definition ex_records : list seq_record :=
  [SeqRecord.mk "C1" "ACGT"; SeqRecord.mk "C2" "GGCC";
   SeqRecord.mk "C3" "TTAA"]%string.

(** A primitive for the examples: below radius 0.5 the points left of the
    origin are noise and the others form cluster 1; from 0.5 on all points
    are in cluster 1. *)
Definition ex_dbscan (d : list (Q * Q)) (eps : Q) (minPts : Z) : list Z :=
  if Qle_bool (1 # 2) eps then map (fun _ => 1%Z) d
  else map (fun p => if Qle_bool (fst p) 0 then 0%Z else 1%Z) d.

Definition ex_point (contig : string) (x : Q) : row :=
  TableRow.mk contig x 0 100 (1 # 2) 10 0.

Definition ex_vizbin : table :=
  [ex_point "C1" (-1); ex_point "C2" 1; ex_point "C3" 2]%string.

(** A primitive that never merges the points on the two sides of the
    origin. *)
Definition ex_dbscan_apart (d : list (Q * Q)) (eps : Q) (minPts : Z)
  : list Z :=
  map (fun p => if Qle_bool (fst p) 0 then 0%Z else 1%Z) d.

(** A marker table as it is read from the file, header first. *)
Definition ex_hmm_lines : list string :=
  ["contig" ++ String tab "pfams";
   "C1" ++ String tab "PF01,PF01";
   "C2" ++ String tab "PF02";
   "C3" ++ String tab "NA"]%string.

(** Marker lines in which contig C1 is listed twice. *)
Definition ex_hmm_repeated : list hmm_line :=
  [("C1", Some ["PF01"]); ("C2", None); ("C1", Some ["PF01"; "PF02"])]%string.

(** * Part V: properties *)

(** ** Key equalities *)

Lemma string_eqb_sym (a b : string) : String.eqb a b = String.eqb b a.
Proof.
  destruct (String.eqb_spec a b), (String.eqb_spec b a); congruence.
Qed.

Lemma string_eqb_trans (a b c : string) :
  String.eqb a b = true -> String.eqb b c = true -> String.eqb a c = true.
Proof.
  rewrite !String.eqb_eq. congruence.
Qed.

#[export] Instance string_key_laws : PyKeyLaws string.
Proof.
  constructor.
  - exact String.eqb_refl.
  - exact string_eqb_sym.
  - exact string_eqb_trans.
Qed.

#[export] Instance string_leibniz : LeibnizKey string.
Proof. constructor. intros a b. apply String.eqb_eq. Qed.

Lemma Z_eqb_trans (a b c : Z) :
  Z.eqb a b = true -> Z.eqb b c = true -> Z.eqb a c = true.
Proof. rewrite !Z.eqb_eq. congruence. Qed.

#[export] Instance Z_key_laws : PyKeyLaws Z.
Proof.
  constructor.
  - exact Z.eqb_refl.
  - exact Z.eqb_sym.
  - exact Z_eqb_trans.
Qed.

#[export] Instance Z_leibniz : LeibnizKey Z.
Proof. constructor. intros a b. apply Z.eqb_eq. Qed.

Lemma Qeq_bool_sym' (a b : Q) : Qeq_bool a b = Qeq_bool b a.
Proof.
  destruct (Qeq_bool a b) eqn:E1, (Qeq_bool b a) eqn:E2; trivial.
  - apply Qeq_bool_sym in E1. congruence.
  - apply Qeq_bool_sym in E2. congruence.
Qed.

#[export] Instance Q_key_laws : PyKeyLaws Q.
Proof.
  constructor.
  - exact Qeq_bool_refl.
  - exact Qeq_bool_sym'.
  - exact Qeq_bool_trans.
Qed.

(** ** Dictionaries: what the operations do *)

Section DictLemmas.
Context {K V : Type} {HK : PyKey K} {HL : PyKeyLaws K}.

Lemma dict_get_set (d : dict K V) (k k' : K) (v : V) :
  dict_get (dict_set d k v) k' =
  if key_eqb k' k then Some v else dict_get d k'.
Proof.
  induction d as [|[k0 v0] d IH]; simpl.
  - reflexivity.
  - destruct (key_eqb k k0) eqn:E; simpl.
    + destruct (key_eqb k' k0) eqn:E0.
      * rewrite (key_eqb_sym k k0) in E.
        now rewrite (key_eqb_trans _ _ _ E0 E).
      * destruct (key_eqb k' k) eqn:E1; trivial.
        now rewrite (key_eqb_trans _ _ _ E1 E) in E0.
    + destruct (key_eqb k' k0) eqn:E0; trivial.
      destruct (key_eqb k' k) eqn:E1; trivial.
      rewrite key_eqb_sym in E1.
      now rewrite (key_eqb_trans _ _ _ E1 E0) in E.
Qed.

Lemma dict_get_set_same (d : dict K V) (k : K) (v : V) :
  dict_get (dict_set d k v) k = Some v.
Proof. now rewrite dict_get_set, key_eqb_refl. Qed.

Lemma dict_get_eqb (d : dict K V) (k k' : K) :
  key_eqb k k' = true -> dict_get d k = dict_get d k'.
Proof.
  intros E. induction d as [|[k0 v0] d IH]; simpl; trivial.
  destruct (key_eqb k k0) eqn:E0.
  - rewrite key_eqb_sym in E.
    now rewrite (key_eqb_trans _ _ _ E E0).
  - destruct (key_eqb k' k0) eqn:E1; trivial.
    now rewrite (key_eqb_trans _ _ _ E E1) in E0.
Qed.

Lemma dict_get_None (d : dict K V) (k : K) :
  dict_get d k = None <->
  forall k', In k' (dict_keys d) -> key_eqb k k' = false.
Proof.
  induction d as [|[k0 v0] d IH]; simpl.
  - split; [intros _ k' [] | trivial].
  - destruct (key_eqb k k0) eqn:E; split.
    + discriminate.
    + intros Hk. rewrite (Hk k0) in E; [discriminate | now left].
    + intros Hd k' [<- | Hin]; trivial. now apply IH.
    + intros Hk. apply IH. intros k' Hin. apply Hk. now right.
Qed.

Lemma dict_get_Some_In (d : dict K V) (k : K) (v : V) :
  dict_get d k = Some v ->
  exists k', key_eqb k k' = true /\ In (k', v) d.
Proof.
  induction d as [|[k0 v0] d IH]; simpl; [discriminate|].
  destruct (key_eqb k k0) eqn:E.
  - intros [= <-]. exists k0. auto.
  - intros Hg. destruct (IH Hg) as (k' & Ek & Hin). exists k'. auto.
Qed.

Lemma dict_get_In (d : dict K V) (k : K) (v : V) :
  dict_wf d -> In (k, v) d -> dict_get d k = Some v.
Proof.
  induction d as [|[k0 v0] d IH]; simpl; [intros _ []|].
  intros [Hfresh Hwf] [[= -> ->] | Hin].
  - now rewrite key_eqb_refl.
  - destruct (key_eqb k k0) eqn:E; [|auto].
    rewrite dict_get_None in Hfresh.
    rewrite key_eqb_sym in E.
    rewrite (Hfresh k) in E; [discriminate|].
    unfold dict_keys. now apply (in_map fst) in Hin.
Qed.

Lemma dict_set_fresh (d : dict K V) (k : K) (v : V) :
  dict_get d k = None -> dict_set d k v = d ++ [(k, v)].
Proof.
  induction d as [|[k0 v0] d IH]; simpl; trivial.
  destruct (key_eqb k k0); [discriminate|].
  intros Hg. now rewrite IH.
Qed.

Lemma dict_wf_set (d : dict K V) (k : K) (v : V) :
  dict_wf d -> dict_wf (dict_set d k v).
Proof.
  induction d as [|[k0 v0] d IH]; simpl.
  - auto.
  - intros [Hfresh Hwf]. destruct (key_eqb k k0) eqn:E; simpl.
    + auto.
    + split; [|auto]. rewrite dict_get_set.
      rewrite key_eqb_sym in E. now rewrite E.
Qed.

Lemma dict_mem_true (d : dict K V) (k : K) :
  dict_mem d k = true <-> exists v, dict_get d k = Some v.
Proof.
  unfold dict_mem. destruct (dict_get d k) as [v|].
  - split; eauto.
  - split; [discriminate | intros [v Hv]; discriminate].
Qed.

Lemma dict_mem_set (d : dict K V) (k k' : K) (v : V) :
  dict_mem (dict_set d k v) k' = key_eqb k' k || dict_mem d k'.
Proof.
  unfold dict_mem. rewrite dict_get_set. now destruct (key_eqb k' k).
Qed.

Lemma dict_wf_NoDup `{!LeibnizKey K} (d : dict K V) :
  dict_wf d -> NoDup (dict_keys d).
Proof.
  induction d as [|[k0 v0] d IH]; simpl; intros Hwf.
  - constructor.
  - destruct Hwf as [Hfresh Hwf]. constructor; [|auto].
    intros Hin. rewrite dict_get_None in Hfresh.
    specialize (Hfresh _ Hin). now rewrite key_eqb_refl in Hfresh.
Qed.

Lemma dict_mem_In `{!LeibnizKey K} (d : dict K V) (k : K) :
  dict_mem d k = true <-> In k (dict_keys d).
Proof.
  rewrite dict_mem_true. split.
  - intros [v Hv]. apply dict_get_Some_In in Hv as (k' & E & Hin).
    apply key_eqb_eq in E. subst k'.
    unfold dict_keys. now apply (in_map fst) in Hin.
  - intros Hin. destruct (dict_get d k) eqn:E; eauto.
    rewrite dict_get_None in E. specialize (E _ Hin).
    now rewrite key_eqb_refl in E.
Qed.
End DictLemmas.

(** ** Dictionaries: further facts *)

Section DictFacts.
Context {K V : Type} {HK : PyKey K} {HL : PyKeyLaws K}.

Lemma dict_set_set (d : dict K V) (k : K) (v v' : V) :
  dict_set (dict_set d k v) k v' = dict_set d k v'.
Proof.
  induction d as [|[k0 v0] d IH]; simpl.
  - now rewrite key_eqb_refl.
  - destruct (key_eqb k k0) eqn:E; simpl; rewrite E; congruence.
Qed.

Lemma dict_set_get_id (d : dict K V) (k : K) (v : V) :
  dict_get d k = Some v -> dict_set d k v = d.
Proof.
  induction d as [|[k0 v0] d IH]; simpl; [discriminate|].
  destruct (key_eqb k k0).
  - now intros [= ->].
  - intros Hg. now rewrite IH.
Qed.

Lemma dict_wf_app_get (a b : dict K V) (k : K) :
  dict_wf (a ++ b) -> In k (dict_keys b) -> dict_get a k = None.
Proof.
  induction a as [|[k0 v0] a IH]; simpl; trivial.
  intros [Hfresh Hwf] Hin.
  rewrite dict_get_None in Hfresh.
  rewrite key_eqb_sym, Hfresh; [auto|].
  unfold dict_keys. rewrite map_app. apply in_or_app. now right.
Qed.

Lemma dict_getitem_In (d : dict K V) (k : K) (v : V) :
  dict_wf d -> In (k, v) d -> dict_getitem d k = Ok v.
Proof.
  intros Hwf Hin. unfold dict_getitem. now rewrite (dict_get_In _ _ _ Hwf Hin).
Qed.
End DictFacts.

Section DictBuild.
Context {K V W : Type} {HK : PyKey K} {HL : PyKeyLaws K}.

Lemma dict_get_map_values (g : V -> W) (d : dict K V) (k : K) :
  dict_get (dict_map_values g d) k = option_map g (dict_get d k).
Proof.
  induction d as [|[k0 v0] d IH]; simpl; trivial.
  now destruct (key_eqb k k0).
Qed.

Lemma dict_keys_map_values (g : V -> W) (d : dict K V) :
  dict_keys (dict_map_values g d) = dict_keys d.
Proof.
  unfold dict_keys, dict_map_values. rewrite map_map. reflexivity.
Qed.

Lemma dict_map_values_app (g : V -> W) (a b : dict K V) :
  dict_map_values g (a ++ b) = dict_map_values g a ++ dict_map_values g b.
Proof. apply map_app. Qed.

(** A loop [for k in d: acc[k] = g(d[k])] builds the dict of the [g(v)],
    in the order of [d]. *)
Lemma for_in_dict_build (d : dict K V)
    (body : K -> dict K W -> result (dict K W)) (g : V -> W) :
  dict_wf d ->
  (forall k v acc, In (k, v) d -> body k acc = Ok (dict_set acc k (g v))) ->
  for_in (dict_keys d) body [] = Ok (dict_map_values g d).
Proof.
  intros Hwf Hbody.
  assert (Hgen : forall rest pre,
             d = pre ++ rest ->
             for_in (dict_keys rest) body (dict_map_values g pre)
             = Ok (dict_map_values g d)).
  { induction rest as [|[k v] rest IH]; intros pre Hd.
    - simpl. rewrite Hd, app_nil_r. reflexivity.
    - simpl. rewrite (Hbody k v).
      2:{ rewrite Hd. apply in_or_app. right. now left. }
      simpl. rewrite dict_set_fresh.
      + change [(k, g v)] with (dict_map_values g [(k, v)]).
        rewrite <- dict_map_values_app. apply IH.
        rewrite <- app_assoc. exact Hd.
      + rewrite dict_get_map_values.
        rewrite (dict_wf_app_get pre ((k, v) :: rest)).
        * reflexivity.
        * now rewrite <- Hd.
        * now left. }
  apply (Hgen d []). reflexivity.
Qed.
End DictBuild.

(** ** [getClusterInfo] accumulates summed occurrences (C1, C7) *)

Lemma add_markers_items (profile items : dict string Z) (c : Z) :
  (forall k v, In (k, v) items -> dict_get profile k = Some v) ->
  forall (mt : dict Z (dict string Z)) (totals0 : dict string Z),
    dict_get mt c = Some totals0 ->
    for_in (dict_keys items) (add_marker profile c) mt
    = Ok (dict_set mt c (add_profile totals0 items)).
Proof.
  unfold add_profile.
  induction items as [|[k v] items IH]; intros Hitems mt totals0 Hmt; simpl.
  - now rewrite dict_set_get_id.
  - unfold add_marker at 1. unfold dict_getitem at 1. rewrite Hmt. simpl.
    unfold dict_getitem at 1. rewrite (Hitems k v) by now left. simpl.
    unfold dict_mem, dict_getitem.
    destruct (dict_get totals0 k) as [old|] eqn:Eold; simpl.
    + rewrite IH with (totals0 := dict_set totals0 k (old + v)%Z).
      * now rewrite dict_set_set.
      * intros k' v' Hin. apply Hitems. now right.
      * apply dict_get_set_same.
    + rewrite IH with (totals0 := dict_set totals0 k v).
      * now rewrite dict_set_set.
      * intros k' v' Hin. apply Hitems. now right.
      * apply dict_get_set_same.
Qed.

Lemma add_contig_markers_ok (profile : dict string Z) (c : Z)
    (mt : dict Z (dict string Z)) (totals0 : dict string Z) :
  dict_wf profile ->
  dict_get mt c = Some totals0 ->
  add_contig_markers profile c mt
  = Ok (dict_set mt c (add_profile totals0 profile)).
Proof.
  intros Hwf Hmt. apply add_markers_items; trivial.
  intros k v Hin. now apply dict_get_In.
Qed.

Lemma add_profile_wf (totals profile : dict string Z) :
  dict_wf totals -> dict_wf (add_profile totals profile).
Proof.
  unfold add_profile. revert totals.
  induction profile as [|[k v] profile IH]; intros totals Hwf; simpl; trivial.
  apply IH. destruct (dict_get totals k); now apply dict_wf_set.
Qed.

Lemma add_profile_get (totals profile : dict string Z) (m : string) :
  dict_wf profile ->
  dict_get (add_profile totals profile) m =
  match dict_get profile m with
  | None => dict_get totals m
  | Some n => Some (marker_count totals m + n)%Z
  end.
Proof.
  unfold add_profile. revert totals.
  induction profile as [|[k v] profile IH]; intros totals Hwf; simpl; trivial.
  destruct Hwf as [Hfresh Hwf]. rewrite IH by assumption.
  destruct (String.eqb m k) eqn:E.
  - apply String.eqb_eq in E. subst m. rewrite Hfresh.
    unfold marker_count.
    destruct (dict_get totals k); now rewrite dict_get_set_same.
  - unfold marker_count.
    destruct (dict_get totals k);
      rewrite dict_get_set; simpl; now rewrite E.
Qed.

Lemma marker_totals_row_ok (hmm : hmm_dict) (r : row)
    (mt : dict Z (dict string Z)) :
  hmm_wf hmm ->
  marker_totals_row hmm r mt
  = Ok (dict_set mt (TableRow.db_cluster r)
          (add_profile
             (match dict_get mt (TableRow.db_cluster r) with
              | Some totals => totals
              | None => []
              end)
             (contig_profile hmm (TableRow.contig r)))).
Proof.
  intros Hhmm. unfold marker_totals_row, contig_profile, dict_mem.
  destruct (dict_get mt (TableRow.db_cluster r)) as [totals|] eqn:Emt;
    destruct (dict_get hmm (TableRow.contig r)) as [profile|] eqn:Ehmm.
  - apply add_contig_markers_ok; eauto.
  - simpl. now rewrite dict_set_get_id.
  - rewrite add_contig_markers_ok with (totals0 := []).
    + now rewrite dict_set_set.
    + eauto.
    + apply dict_get_set_same.
  - reflexivity.
Qed.

Lemma cluster_rows_app (t1 t2 : table) (c : Z) :
  cluster_rows (t1 ++ t2) c = cluster_rows t1 c ++ cluster_rows t2 c.
Proof. apply filter_app. Qed.

Lemma cluster_rows_nil (t : table) (c : Z) :
  ~ In c (map TableRow.db_cluster t) -> cluster_rows t c = [].
Proof.
  induction t as [|r t IH]; simpl; trivial.
  intros Hn. destruct (Z.eqb_spec (TableRow.db_cluster r) c) as [E|E].
  - exfalso. apply Hn. now left.
  - apply IH. intros Hin. apply Hn. now right.
Qed.

Lemma Zsum_app (a b : list Z) : Zsum (a ++ b) = (Zsum a + Zsum b)%Z.
Proof. induction a as [|x a IH]; simpl; [trivial | rewrite IH; lia]. Qed.

Lemma marker_count_absent (profile : dict string Z) (m : string) :
  ~ In m (dict_keys profile) -> marker_count profile m = 0%Z.
Proof.
  intros Hn. unfold marker_count.
  destruct (dict_get profile m) as [n|] eqn:E; trivial.
  exfalso. apply Hn. apply dict_mem_In. apply dict_mem_true. eauto.
Qed.

Lemma summed_occurrence_absent (hmm : hmm_dict) (t : table) (c : Z)
    (m : string) :
  ~ In m (cluster_marker_ids hmm t c) -> summed_occurrence hmm t c m = 0%Z.
Proof.
  unfold summed_occurrence, cluster_marker_ids.
  induction (cluster_rows t c) as [|r rows IH]; simpl; trivial.
  intros Hn. rewrite IH.
  - rewrite marker_count_absent; trivial.
    intros Hin. apply Hn. apply in_or_app. now left.
  - intros Hin. apply Hn. apply in_or_app. now right.
Qed.

Lemma totals_of_marker_count (hmm : hmm_dict) (t : table) (c : Z)
    (totals : dict string Z) (m : string) :
  totals_of hmm t c totals ->
  marker_count totals m = summed_occurrence hmm t c m.
Proof.
  intros [_ Hget]. unfold marker_count. rewrite Hget.
  destruct (in_dec string_dec m (cluster_marker_ids hmm t c)); trivial.
  now rewrite summed_occurrence_absent.
Qed.

Lemma totals_of_nil (hmm : hmm_dict) (t : table) (c : Z) :
  ~ In c (map TableRow.db_cluster t) -> totals_of hmm t c [].
Proof.
  intros Hn. split; [exact I|]. intros m.
  unfold cluster_marker_ids. rewrite cluster_rows_nil by assumption.
  simpl. reflexivity.
Qed.

Lemma marker_totals_inv_step (hmm : hmm_dict) (t : table) (r : row)
    (mt : dict Z (dict string Z)) :
  hmm_wf hmm ->
  marker_totals_inv hmm t mt ->
  exists mt',
    marker_totals_row hmm r mt = Ok mt' /\
    marker_totals_inv hmm (t ++ [r]) mt'.
Proof.
  intros Hhmm (Hwf & Hkeys & Htot).
  rewrite marker_totals_row_ok by assumption.
  eexists. split; [reflexivity|].
  set (c0 := TableRow.db_cluster r).
  set (profile := contig_profile hmm (TableRow.contig r)).
  set (T0 := match dict_get mt c0 with Some totals => totals | None => [] end).
  assert (Hprofile : dict_wf profile).
  { unfold profile, contig_profile.
    destruct (dict_get hmm (TableRow.contig r)) eqn:E; [eauto | exact I]. }
  assert (HT0 : totals_of hmm t c0 T0).
  { unfold T0. destruct (dict_get mt c0) eqn:E; [auto|].
    apply totals_of_nil. now apply Hkeys. }
  split; [|split].
  - now apply dict_wf_set.
  - intros c. rewrite dict_get_set. simpl. rewrite map_app, in_app_iff. simpl.
    destruct (Z.eqb_spec c c0) as [->|Hne].
    + split; [discriminate | intros Hn; exfalso; apply Hn; auto].
    + rewrite Hkeys. fold c0. intuition congruence.
  - intros c totals. rewrite dict_get_set. simpl.
    destruct (Z.eqb_spec c c0) as [->|Hne].
    + intros [= <-]. split; [apply add_profile_wf, HT0|].
      intros m. rewrite add_profile_get by assumption.
      rewrite (totals_of_marker_count m HT0).
      assert (Hids : cluster_marker_ids hmm (t ++ [r]) c0
                     = cluster_marker_ids hmm t c0 ++ dict_keys profile).
      { unfold cluster_marker_ids. rewrite cluster_rows_app, flat_map_app.
        simpl. unfold c0. rewrite Z.eqb_refl. simpl. now rewrite app_nil_r. }
      assert (Hocc : summed_occurrence hmm (t ++ [r]) c0 m
                     = (summed_occurrence hmm t c0 m
                        + marker_count profile m)%Z).
      { unfold summed_occurrence. rewrite cluster_rows_app, map_app, Zsum_app.
        simpl. unfold c0. rewrite Z.eqb_refl. simpl. fold profile.
        now rewrite Z.add_0_r. }
      rewrite Hids, Hocc. unfold marker_count.
      destruct (dict_get profile m) as [n|] eqn:Em.
      * destruct (in_dec string_dec m _) as [_|Hn]; trivial.
        exfalso. apply Hn, in_or_app. right.
        apply dict_mem_In, dict_mem_true. eauto.
      * destruct HT0 as [_ HT0]. rewrite HT0.
        assert (Hnp : ~ In m (dict_keys profile)).
        { intros Hin. apply dict_mem_In, dict_mem_true in Hin as [n Hn].
          congruence. }
        destruct (in_dec string_dec m (cluster_marker_ids hmm t c0));
          destruct (in_dec string_dec m _) as [Hi|Hn]; trivial.
        -- now rewrite Z.add_0_r.
        -- exfalso. apply Hn, in_or_app. now left.
        -- exfalso. apply in_app_or in Hi. tauto.
    + intros Hg. specialize (Htot _ _ Hg).
      assert (Hrows : cluster_rows (t ++ [r]) c = cluster_rows t c).
      { rewrite cluster_rows_app. simpl. fold c0.
        destruct (Z.eqb_spec c0 c); [congruence | apply app_nil_r]. }
      unfold totals_of, cluster_marker_ids, summed_occurrence in *.
      now rewrite Hrows.
Qed.

Lemma marker_totals_loop (hmm : hmm_dict) (rows t : table)
    (mt : dict Z (dict string Z)) :
  hmm_wf hmm ->
  marker_totals_inv hmm t mt ->
  exists mt',
    for_in rows (marker_totals_row hmm) mt = Ok mt' /\
    marker_totals_inv hmm (t ++ rows) mt'.
Proof.
  intros Hhmm. revert t mt.
  induction rows as [|r rows IH]; intros t mt Hinv; simpl.
  - exists mt. now rewrite app_nil_r.
  - destruct (marker_totals_inv_step r Hhmm Hinv) as (mt1 & E1 & Hinv1).
    rewrite E1. simpl.
    destruct (IH _ _ Hinv1) as (mt' & E' & Hinv').
    exists mt'. split; trivial. now rewrite <- app_assoc in Hinv'.
Qed.

Lemma marker_totals_inv_nil (hmm : hmm_dict) : marker_totals_inv hmm [] [].
Proof.
  split; [exact I|]. split.
  - intros c. simpl. tauto.
  - intros c totals. discriminate.
Qed.

Lemma count_unique_items (totals items : dict string Z) (acc : Z) :
  (forall k v, In (k, v) items -> dict_get totals k = Some v) ->
  for_in (dict_keys items)
    (fun marker total_unique =>
       n <- dict_getitem totals marker ;;
       Ok (if Z.eqb n 1 then (total_unique + 1)%Z else total_unique))
    acc
  = Ok (acc + Z.of_nat (List.length (unique_items items)))%Z.
Proof.
  revert acc. induction items as [|[k v] items IH]; intros acc Hitems.
  - simpl. now rewrite Z.add_0_r.
  - cbn [dict_keys map fst for_in]. unfold dict_getitem at 1.
    rewrite (Hitems k v) by now left. cbn [bind].
    unfold dict_keys in IH. rewrite IH.
    + f_equal. unfold unique_items. cbn [filter snd].
      destruct (Z.eqb v 1); cbn [List.length]; lia.
    + intros k' v' Hin. apply Hitems. now right.
Qed.

Lemma count_unique_ok (totals : dict string Z) :
  dict_wf totals ->
  count_unique totals = Ok (Z.of_nat (List.length (unique_items totals))).
Proof.
  intros Hwf. unfold count_unique. rewrite count_unique_items.
  - reflexivity.
  - intros k v Hin. now apply dict_get_In.
Qed.

Lemma expected_number_pos (life_domain : string) :
  (0 < expected_number life_domain)%Z.
Proof.
  unfold expected_number. destruct (String.eqb _ _); lia.
Qed.

Lemma py_truediv_ok (a b : Q) : ~ (b == 0)%Q -> py_truediv a b = Ok (a / b)%Q.
Proof.
  intros Hb. unfold py_truediv.
  destruct (Qeq_bool b 0) eqn:E; trivial.
  apply Qeq_bool_iff in E. contradiction.
Qed.

Lemma inject_Z_nonzero (z : Z) : z <> 0%Z -> ~ (inject_Z z == 0)%Q.
Proof.
  intros Hz E. apply Hz. unfold Qeq in E. simpl in E. lia.
Qed.

Lemma cluster_details_step_ok (mt : dict Z (dict string Z)) (expected : Z)
    (c : Z) (totals : dict string Z) (acc : dict Z quality) :
  dict_wf mt -> dict_wf totals -> expected <> 0%Z ->
  In (c, totals) mt ->
  cluster_details_step mt expected c acc
  = Ok (dict_set acc c (score expected totals)).
Proof.
  intros Hmt Htot Hexp Hin. unfold cluster_details_step.
  rewrite (dict_getitem_In _ _ _ Hmt Hin). cbn [bind].
  rewrite count_unique_ok by assumption. cbn [bind].
  rewrite !py_truediv_ok by now apply inject_Z_nonzero.
  reflexivity.
Qed.

(** [getClusterInfo] never raises on a marker profile, and returns the
    score of each cluster's accumulated totals. *)
Lemma getClusterInfo_ok (t : table) (hmm : hmm_dict) (life_domain : string) :
  hmm_wf hmm ->
  exists mt,
    marker_totals_inv hmm t mt /\
    getClusterInfo t hmm life_domain
    = Ok (dict_map_values (score (expected_number life_domain)) mt).
Proof.
  intros Hhmm.
  destruct (marker_totals_loop t Hhmm (marker_totals_inv_nil hmm))
    as (mt & Eloop & Hinv).
  simpl in Hinv. exists mt. split; trivial.
  unfold getClusterInfo. rewrite Eloop. cbn [bind].
  destruct Hinv as (Hwf & Hkeys & Htot).
  apply for_in_dict_build; trivial.
  intros c totals acc Hin. apply cluster_details_step_ok; trivial.
  - apply (Htot c). now apply dict_get_In.
  - pose proof (expected_number_pos life_domain). lia.
Qed.

Lemma nodup_filter_length {A B : Type} (l : list (A * B)) (p : A -> bool)
    (q : A * B -> bool) :
  (forall kv, In kv l -> q kv = p (fst kv)) ->
  List.length (filter q l) = List.length (filter p (map fst l)).
Proof.
  induction l as [|kv l IH]; intros Hq; simpl; trivial.
  rewrite (Hq kv) by now left.
  destruct (p (fst kv)); simpl; rewrite IH; auto.
  - intros kv' Hin. apply Hq. now right.
  - intros kv' Hin. apply Hq. now right.
Qed.

Lemma filter_Permutation {A : Type} (p : A -> bool) (l l' : list A) :
  Permutation l l' -> Permutation (filter p l) (filter p l').
Proof.
  induction 1; simpl.
  - constructor.
  - destruct (p x); auto.
  - destruct (p x), (p y); auto. constructor.
  - eapply Permutation_trans; eauto.
Qed.

(** The keys of a cluster's totals are its distinct markers. *)
Lemma totals_of_keys (hmm : hmm_dict) (t : table) (c : Z)
    (totals : dict string Z) :
  totals_of hmm t c totals ->
  Permutation (dict_keys totals) (distinct_markers hmm t c).
Proof.
  intros [Hwf Hget]. apply NoDup_Permutation.
  - now apply dict_wf_NoDup.
  - apply NoDup_nodup.
  - intros m. unfold distinct_markers. rewrite nodup_In.
    rewrite <- dict_mem_In, dict_mem_true, Hget.
    destruct (in_dec string_dec m (cluster_marker_ids hmm t c)).
    + split; eauto.
    + split; [intros [v Hv]; discriminate | contradiction].
Qed.

Lemma totals_of_length (hmm : hmm_dict) (t : table) (c : Z)
    (totals : dict string Z) :
  totals_of hmm t c totals ->
  Z.of_nat (List.length totals) = total_markers hmm t c.
Proof.
  intros Htot. unfold total_markers.
  rewrite <- (Permutation_length (totals_of_keys Htot)).
  unfold dict_keys. now rewrite length_map.
Qed.

Lemma totals_of_unique (hmm : hmm_dict) (t : table) (c : Z)
    (totals : dict string Z) :
  totals_of hmm t c totals ->
  Z.of_nat (List.length (unique_items totals)) = total_unique hmm t c.
Proof.
  intros Htot. unfold total_unique, unique_items.
  rewrite nodup_filter_length
    with (p := fun m => Z.eqb (summed_occurrence hmm t c m) 1).
  - f_equal. apply Permutation_length, filter_Permutation.
    now apply totals_of_keys.
  - intros [k v] Hin. simpl.
    rewrite <- (totals_of_marker_count k Htot). unfold marker_count.
    destruct Htot as [Hwf _]. now rewrite (dict_get_In _ _ _ Hwf Hin).
Qed.

(** C1. For every cluster label of the assignment, [getClusterInfo] returns
    completeness = 100 * total_markers / expected and
    purity = 100 * total_unique / expected, where total_markers counts the
    distinct marker identifiers over the contigs of the cluster (once each)
    and total_unique counts those whose summed occurrence over the cluster is
    exactly 1; a contig absent from the marker profile contributes nothing. *)
Theorem getClusterInfo_completeness_purity
    (t : table) (hmm : hmm_dict) (life_domain : string) (c : Z) :
  hmm_wf hmm ->
  In c (map TableRow.db_cluster t) ->
  exists cluster_details q,
    getClusterInfo t hmm life_domain = Ok cluster_details /\
    dict_get cluster_details c = Some q /\
    (completeness q ==
       100 * inject_Z (total_markers hmm t c)
       / inject_Z (expected_number life_domain))%Q /\
    (purity q ==
       100 * inject_Z (total_unique hmm t c)
       / inject_Z (expected_number life_domain))%Q.
Proof.
  intros Hhmm Hc.
  destruct (getClusterInfo_ok t life_domain Hhmm) as (mt & Hinv & Eq).
  destruct Hinv as (Hwf & Hkeys & Htot).
  destruct (dict_get mt c) as [totals|] eqn:Emt.
  2:{ apply Hkeys in Emt. contradiction. }
  exists (dict_map_values (score (expected_number life_domain)) mt).
  exists (score (expected_number life_domain) totals).
  split; [exact Eq|]. split.
  - rewrite dict_get_map_values, Emt. reflexivity.
  - specialize (Htot _ _ Emt). unfold score. cbn [completeness purity].
    rewrite (totals_of_length Htot), (totals_of_unique Htot).
    assert (Hexp : ~ (inject_Z (expected_number life_domain) == 0)%Q).
    { apply inject_Z_nonzero. pose proof (expected_number_pos life_domain).
      lia. }
    split; field; exact Hexp.
Qed.

(** The marker profile that the script builds is a dict of dicts. *)
Lemma add_pfam_wf (contig pfam : string) (hmm : hmm_dict) :
  hmm_wf hmm -> hmm_wf (add_pfam contig hmm pfam).
Proof.
  intros Hwf c profile. unfold add_pfam.
  destruct (dict_get hmm contig) as [markers|] eqn:Em.
  - destruct (dict_get markers pfam);
      rewrite dict_get_set; destruct (key_eqb c contig);
        try apply Hwf; intros [= <-]; apply dict_wf_set; eauto.
  - rewrite dict_get_set. destruct (key_eqb c contig); [|apply Hwf].
    intros [= <-]. simpl. auto.
Qed.

Lemma parse_hmm_table_wf (hmm_table_lines : list hmm_line) :
  hmm_wf (parse_hmm_table hmm_table_lines).
Proof.
  unfold parse_hmm_table.
  assert (Hnil : hmm_wf []) by (intros c profile; discriminate).
  revert Hnil. generalize (@nil (string * dict string Z)) as hmm.
  induction hmm_table_lines as [|[contig pfams] lines IH]; intros hmm Hwf;
    simpl; trivial.
  apply IH. unfold parse_hmm_line. simpl. destruct pfams as [pfamList|]; trivial.
  revert hmm Hwf. induction pfamList as [|pfam pfamList IHp]; intros hmm Hwf;
    simpl; trivial.
  apply IHp. now apply add_pfam_wf.
Qed.

Lemma ex_hmm_wf : hmm_wf ex_hmm.
Proof. apply parse_hmm_table_wf. Qed.

Lemma getClusterInfo_completeness_purity_witness :
  exists cluster_details q,
    getClusterInfo ex_table ex_hmm "bacteria" = Ok cluster_details /\
    dict_get cluster_details 1%Z = Some q /\
    (completeness q == 100 * inject_Z 2 / inject_Z 139)%Q /\
    (purity q == 100 * inject_Z 1 / inject_Z 139)%Q.
Proof.
  apply (@getClusterInfo_completeness_purity ex_table ex_hmm "bacteria" 1%Z).
  - exact ex_hmm_wf.
  - simpl. auto.
Defined.

(** C7. The expected marker count is 162 for the domain 'archaea' and 139 for
    every other domain string, 'bacteria' and unrecognized values alike. *)
Theorem expected_number_domain (life_domain : string) :
  expected_number "archaea" = 162%Z /\
  expected_number "bacteria" = 139%Z /\
  (life_domain <> "archaea"%string -> expected_number life_domain = 139%Z).
Proof.
  split; [reflexivity|]. split; [reflexivity|].
  intros Hd. unfold expected_number.
  destruct (String.eqb_spec life_domain "archaea"); congruence.
Qed.

Lemma expected_number_domain_witness :
  expected_number "archaea" = 162%Z /\
  expected_number "bacteria" = 139%Z /\
  expected_number "eukaryote" = 139%Z.
Proof.
  destruct (expected_number_domain "eukaryote") as (Ha & Hb & Hc).
  split; [exact Ha|]. split; [exact Hb|]. apply Hc. discriminate.
Defined.

(** ** Sorted insertion is sorting (C9) *)

Lemma insertion_index_from_S (i : nat) (l : list Z) (x : Z) :
  insertion_index_from (S i) l x = option_map S (insertion_index_from i l x).
Proof.
  revert i. induction l as [|y l IH]; intros i; simpl; trivial.
  destruct (Z.ltb y x); simpl; auto.
Qed.

Lemma insert_at_index (l : list Z) (x : Z) :
  match insertion_index l x with
  | None => l ++ [x]
  | Some i => list_insert i x l
  end = insert_desc l x.
Proof.
  unfold insertion_index. induction l as [|y l IH]; simpl; trivial.
  destruct (Z.ltb y x); simpl; trivial.
  rewrite insertion_index_from_S.
  destruct (insertion_index_from 0 l x) as [i|]; simpl.
  - unfold list_insert in *. simpl. now rewrite IH.
  - now rewrite IH.
Qed.

Lemma insert_length_desc (l : list Z) (x : Z) :
  insert_length l x = insert_desc l x.
Proof.
  destruct l as [|y l]; trivial.
  unfold insert_length. apply insert_at_index.
Qed.

Lemma insert_desc_perm (l : list Z) (x : Z) :
  Permutation (insert_desc l x) (x :: l).
Proof.
  induction l as [|y l IH]; simpl; auto.
  destruct (Z.ltb y x); auto.
  eapply perm_trans; [apply perm_skip, IH | apply perm_swap].
Qed.

Lemma insert_desc_sorted (l : list Z) (x : Z) :
  Sorted descending l -> Sorted descending (insert_desc l x).
Proof.
  induction l as [|y l IH]; simpl; intros Hs.
  - auto.
  - destruct (Z.ltb_spec y x) as [Hlt|Hge].
    + constructor; trivial. constructor. unfold descending. lia.
    + inversion Hs as [|? ? Hs' Hhd]; subst. constructor; [auto|].
      destruct l as [|z l]; simpl.
      * constructor. unfold descending. lia.
      * destruct (Z.ltb z x).
        -- constructor. unfold descending. lia.
        -- inversion Hhd; subst. now constructor.
Qed.

Lemma fold_insert_sorted (l acc : list Z) :
  Sorted descending acc ->
  Sorted descending (fold_left insert_length l acc) /\
  Permutation (fold_left insert_length l acc) (acc ++ l).
Proof.
  revert acc. induction l as [|x l IH]; intros acc Hs; simpl.
  - rewrite app_nil_r. auto.
  - rewrite insert_length_desc.
    destruct (IH (insert_desc acc x)) as [Hs' Hp].
    + now apply insert_desc_sorted.
    + split; trivial. eapply perm_trans; [exact Hp|].
      eapply perm_trans;
        [apply Permutation_app_tail, insert_desc_perm|].
      simpl. apply Permutation_middle.
Qed.

Lemma sorted_insertion_sorted (l : list Z) :
  Sorted descending (sorted_insertion l).
Proof. now apply fold_insert_sorted. Qed.

Lemma sorted_insertion_perm (l : list Z) :
  Permutation (sorted_insertion l) l.
Proof. now apply (fold_insert_sorted l (acc := [])). Qed.

Lemma descending_trans : Relations_1.Transitive descending.
Proof. intros x y z. unfold descending. lia. Qed.

(** A list has one descending arrangement. *)
Lemma descending_unique (l1 l2 : list Z) :
  Sorted descending l1 -> Sorted descending l2 -> Permutation l1 l2 ->
  l1 = l2.
Proof.
  intros H1 H2. apply (Sorted_StronglySorted descending_trans) in H1, H2.
  revert l2 H2. induction H1 as [|a l1 Hs1 IH Ha]; intros l2 H2 Hp.
  - apply Permutation_nil in Hp. now subst.
  - destruct H2 as [|b l2 Hs2 Hb].
    + apply Permutation_sym, Permutation_nil in Hp. discriminate.
    + assert (Hab : a = b).
      { assert (Ha2 : In a (b :: l2))
          by (eapply Permutation_in; [exact Hp | now left]).
        assert (Hb1 : In b (a :: l1))
          by (eapply Permutation_in;
              [apply Permutation_sym; exact Hp | now left]).
        rewrite Forall_forall in Ha, Hb. unfold descending in *.
        destruct Ha2 as [E|Ha2]; [congruence|].
        destruct Hb1 as [E|Hb1]; [congruence|].
        specialize (Ha _ Hb1). specialize (Hb _ Ha2). lia. }
      subst b. f_equal. apply IH; trivial.
      eapply Permutation_cons_inv; exact Hp.
Qed.

Lemma sort_descending_sorted (l : list Z) :
  Sorted descending (sort_descending l).
Proof.
  pose proof (ZDescSort.Sorted_sort l) as Hs.
  unfold sort_descending.
  induction Hs as [|a l' Hs IH Hhd]; constructor; trivial.
  destruct Hhd as [|b l'' Hab]; constructor.
  unfold descending. unfold ZDescending.leb in Hab.
  apply Z.leb_le. exact Hab.
Qed.

Lemma sort_descending_perm (l : list Z) :
  Permutation (sort_descending l) l.
Proof. apply Permutation_sym, ZDescSort.Permuted_sort. Qed.

Lemma sorted_insertion_is_sort_descending_aux (l : list Z) :
  sorted_insertion l = sort_descending l.
Proof.
  apply descending_unique.
  - apply sorted_insertion_sorted.
  - apply sort_descending_sorted.
  - eapply perm_trans; [apply sorted_insertion_perm|].
    apply Permutation_sym, sort_descending_perm.
Qed.

(** C9. Inserting each length before the first stored length that is strictly
    smaller (else appending) yields exactly the list sorted in descending
    order. *)
Theorem sorted_insertion_is_sort_descending (l : list Z) :
  sorted_insertion l = sort_descending l
  /\ Sorted descending (sorted_insertion l)
  /\ Permutation (sorted_insertion l) l.
Proof.
  split; [apply sorted_insertion_is_sort_descending_aux|].
  split; [apply sorted_insertion_sorted | apply sorted_insertion_perm].
Qed.

(** ** Loops over the keys of a dictionary *)
Section DictLoops.
Context {K V : Type} {HK : PyKey K} {HL : PyKeyLaws K}.

Lemma dict_get_app (a b : dict K V) (k : K) :
  dict_get (a ++ b) k =
  match dict_get a k with
  | Some v => Some v
  | None => dict_get b k
  end.
Proof.
  induction a as [|[k0 v0] a IH]; simpl; trivial.
  now destruct (key_eqb k k0).
Qed.

Lemma dict_set_app_r (a b : dict K V) (k : K) (v : V) :
  dict_get a k = None -> dict_set (a ++ b) k v = a ++ dict_set b k v.
Proof.
  induction a as [|[k0 v0] a IH]; simpl; trivial.
  destruct (key_eqb k k0); [discriminate|]. intros Hg. now rewrite IH.
Qed.

(** Position [k] of [a ++ (k, v) :: b] when [k] is not a key of [a]. *)
Lemma dict_getitem_middle (a b : dict K V) (k : K) (v : V) :
  dict_get a k = None -> dict_getitem (a ++ (k, v) :: b) k = Ok v.
Proof.
  intros Hg. unfold dict_getitem. rewrite dict_get_app, Hg. simpl.
  now rewrite key_eqb_refl.
Qed.

Lemma dict_set_middle (a b : dict K V) (k : K) (v v' : V) :
  dict_get a k = None ->
  dict_set (a ++ (k, v) :: b) k v' = a ++ (k, v') :: b.
Proof.
  intros Hg. rewrite dict_set_app_r by assumption. simpl.
  now rewrite key_eqb_refl.
Qed.

Lemma for_in_dict_inv {S : Type} (d : dict K V) (body : K -> S -> result S)
    (P : dict K V -> S -> Prop) (s0 : S) :
  P [] s0 ->
  (forall pre k v post s,
      d = pre ++ (k, v) :: post -> P pre s ->
      exists s', body k s = Ok s' /\ P (pre ++ [(k, v)]) s') ->
  exists s', for_in (dict_keys d) body s0 = Ok s' /\ P d s'.
Proof.
  intros H0 Hstep.
  assert (Hgen : forall rest pre s,
             d = pre ++ rest -> P pre s ->
             exists s', for_in (dict_keys rest) body s = Ok s' /\ P d s').
  { induction rest as [|[k v] rest IH]; intros pre s Hd HP.
    - exists s. rewrite Hd, app_nil_r. auto.
    - destruct (Hstep pre k v rest s Hd HP) as (s1 & E1 & HP1).
      simpl. rewrite E1. simpl. apply (IH (pre ++ [(k, v)])); trivial.
      now rewrite <- app_assoc. }
  apply (Hgen d [] s0); trivial.
Qed.
End DictLoops.

Lemma dict_map_values_map {K A B C : Type} (f : A -> B) (g : B -> C)
    (d : dict K A) :
  dict_map_values g (dict_map_values f d) = dict_map_values (fun x => g (f x)) d.
Proof. unfold dict_map_values. rewrite map_map. reflexivity. Qed.

(** ** The phases of [getClusterSummaryInfo] *)

(** *** Lengths and totals *)
Lemma add_contig_length_items (cci : dict Z contig_dict) (k : Z)
    (contigs items : contig_dict) (lens : dict Z (list Z)) (tot : dict Z Z) :
  dict_getitem cci k = Ok contigs ->
  (forall id info, In (id, info) items -> dict_get contigs id = Some info) ->
  dict_get lens k = None -> dict_get tot k = None ->
  forall (L : list Z) (T : Z),
    for_in (dict_keys items) (add_contig_length cci k)
      (lens ++ [(k, L)], tot ++ [(k, T)])
    = Ok (lens ++ [(k, fold_left insert_length (contig_lengths items) L)],
          tot ++ [(k, fold_left Z.add (contig_lengths items) T)]).
Proof.
  intros Hcci Hitems Hl Ht.
  induction items as [|[id info] items IH]; intros L T; simpl; trivial.
  rewrite Hcci. cbn [bind]. unfold dict_getitem at 1.
  rewrite (Hitems id info) by now left. cbn [bind].
  rewrite dict_getitem_middle by assumption. cbn [bind].
  rewrite dict_getitem_middle by assumption. cbn [bind].
  rewrite !dict_set_middle by assumption.
  apply IH. intros id' info' Hin. apply Hitems. now right.
Qed.

Lemma cluster_lengths_loop (cci : dict Z contig_dict) :
  dict_wf cci -> inner_wf cci ->
  for_in (dict_keys cci) (cluster_lengths_step cci) ([], [])
  = Ok (dict_map_values lengths_of cci, dict_map_values total_of cci).
Proof.
  intros Hwf Hin.
  destruct (for_in_dict_inv (d := cci) (cluster_lengths_step cci)
              (fun pre st => st = (dict_map_values lengths_of pre,
                                   dict_map_values total_of pre))
              ([], [])) as (st & E & HP).
  - reflexivity.
  - intros pre k contigs post st Hd ->.
    assert (Hk : dict_get pre k = None).
    { apply (dict_wf_app_get pre ((k, contigs) :: post)).
      - now rewrite <- Hd.
      - now left. }
    assert (Hkv : In (k, contigs) cci).
    { rewrite Hd. apply in_or_app. right. now left. }
    unfold cluster_lengths_step.
    rewrite (dict_getitem_In _ _ _ Hwf Hkv). cbn [bind].
    rewrite !dict_set_fresh
      by (rewrite dict_get_map_values, Hk; reflexivity).
    rewrite add_contig_length_items with (contigs := contigs).
    + eexists. split; [reflexivity|].
      rewrite !dict_map_values_app. reflexivity.
    + now apply dict_getitem_In.
    + intros id info Hi. apply dict_get_In; eauto.
    + rewrite dict_get_map_values, Hk. reflexivity.
    + rewrite dict_get_map_values, Hk. reflexivity.
  - now rewrite E, HP.
Qed.

(** *** N50 *)
Lemma cluster_n50_loop (cci : dict Z contig_dict) :
  dict_wf cci ->
  for_in (dict_keys (dict_map_values lengths_of cci))
    (cluster_n50_step (dict_map_values lengths_of cci)
       (dict_map_values total_of cci)) []
  = Ok (dict_map_values n50_of cci).
Proof.
  intros Hwf. rewrite dict_keys_map_values.
  apply for_in_dict_build; trivial.
  intros k contigs acc Hin. unfold cluster_n50_step, dict_getitem.
  rewrite !dict_get_map_values, (dict_get_In _ _ _ Hwf Hin). reflexivity.
Qed.

Lemma length_fraction_items (tot : dict Z Z) (k total : Z)
    (A B : dict Z contig_dict) :
  dict_get A k = None ->
  dict_getitem tot k = Ok total ->
  total <> 0%Z ->
  forall rest done : contig_dict,
    dict_wf rest ->
    (forall id, In id (dict_keys rest) -> dict_get done id = None) ->
    for_in (dict_keys rest) (length_fraction_contig tot k)
      (A ++ (k, done ++ rest) :: B)
    = Ok (A ++ (k, done ++ dict_map_values (set_fraction total) rest) :: B).
Proof.
  intros HA Htot Hnz.
  induction rest as [|[id info] rest IH]; intros done Hwf Hdone; simpl.
  - reflexivity.
  - destruct Hwf as [Hfresh Hwf].
    unfold length_fraction_contig at 1.
    rewrite dict_getitem_middle by assumption. cbn [bind].
    rewrite dict_getitem_middle by (apply Hdone; now left). cbn [bind].
    rewrite Htot. cbn [bind].
    rewrite py_truediv_ok by now apply inject_Z_nonzero. cbn [bind].
    rewrite dict_set_middle by assumption.
    rewrite dict_set_middle by (apply Hdone; now left).
    change (done ++ (id, Info.set_length_fraction info
                           (inject_Z (Info.length info) / inject_Z total))
                 :: rest)
      with (done ++ [(id, set_fraction total info)] ++ rest).
    rewrite app_assoc, IH; trivial.
    + now rewrite <- app_assoc.
    + intros id' Hin. rewrite dict_get_app, Hdone by now right.
      simpl. rewrite dict_get_None in Hfresh.
      change (String.eqb id' id) with (key_eqb id' id).
      now rewrite key_eqb_sym, Hfresh.
Qed.

Lemma length_fraction_loop (cci : dict Z contig_dict) :
  dict_wf cci -> inner_wf cci ->
  (forall k contigs, In (k, contigs) cci -> total_of contigs <> 0%Z) ->
  for_in (dict_keys cci) (length_fraction_step (dict_map_values total_of cci))
    cci
  = Ok (dict_map_values with_fractions cci).
Proof.
  intros Hwf Hin Hnz.
  destruct (for_in_dict_inv (d := cci)
              (length_fraction_step (dict_map_values total_of cci))
              (fun pre s => exists post,
                   cci = pre ++ post /\
                   s = dict_map_values with_fractions pre ++ post)
              cci) as (s & E & post & Hd & Hs).
  - exists cci. auto.
  - intros pre k contigs post0 s Hd (post & Hd' & ->).
    assert (post = (k, contigs) :: post0).
    { rewrite Hd in Hd'. now apply app_inv_head in Hd'. }
    subst post. clear Hd'.
    assert (Hk : dict_get (dict_map_values with_fractions pre) k = None).
    { rewrite dict_get_map_values.
      rewrite (dict_wf_app_get pre ((k, contigs) :: post0)).
      - reflexivity.
      - now rewrite <- Hd.
      - now left. }
    assert (Hkv : In (k, contigs) cci).
    { rewrite Hd. apply in_or_app. right. now left. }
    unfold length_fraction_step.
    rewrite dict_getitem_middle by assumption. cbn [bind].
    rewrite length_fraction_items with
      (total := total_of contigs) (done := []) (rest := contigs); eauto.
    + eexists. split; [reflexivity|]. exists post0. split.
      * rewrite Hd, <- app_assoc. reflexivity.
      * rewrite dict_map_values_app, <- app_assoc. reflexivity.
    + unfold dict_getitem.
      now rewrite dict_get_map_values, (dict_get_In _ _ _ Hwf Hkv).
  - rewrite E. f_equal. rewrite Hs.
    assert (post = []).
    { rewrite <- (app_nil_r cci) in Hd at 1. now apply app_inv_head in Hd. }
    subst post. apply app_nil_r.
Qed.

Lemma add_contig_average_items (cci : dict Z contig_dict) (k : Z)
    (contigs items : contig_dict) (gcw covw : dict Z Q) :
  dict_getitem cci k = Ok contigs ->
  (forall id info, In (id, info) items -> dict_get contigs id = Some info) ->
  has_fractions items ->
  dict_get gcw k = None -> dict_get covw k = None ->
  forall G C : Q,
    for_in (dict_keys items) (add_contig_average cci k)
      (gcw ++ [(k, G)], covw ++ [(k, C)])
    = Ok (gcw ++ [(k, fold_left
                        (fun av info =>
                           (av + Info.gc info * fraction_or_zero info)%Q)
                        (dict_values items) G)],
          covw ++ [(k, fold_left
                         (fun av info =>
                            (av + Info.cov info * fraction_or_zero info)%Q)
                         (dict_values items) C)]).
Proof.
  intros Hcci Hitems Hfrac Hg Hc.
  induction items as [|[id info] items IH]; intros G C; simpl; trivial.
  rewrite Hcci. cbn [bind]. unfold dict_getitem at 1.
  rewrite (Hitems id info) by now left. cbn [bind].
  unfold Info.get_length_fraction.
  destruct (Info.length_fraction info) as [f|] eqn:Ef.
  2:{ exfalso. apply (Hfrac id info); [now left | exact Ef]. }
  replace (fraction_or_zero info) with f
    by (unfold fraction_or_zero; now rewrite Ef).
  cbn [bind].
  rewrite dict_getitem_middle by assumption. cbn [bind].
  rewrite dict_getitem_middle by assumption. cbn [bind].
  rewrite !dict_set_middle by assumption.
  apply IH.
  - intros id' info' Hin. apply Hitems. now right.
  - intros id' info' Hin. apply (Hfrac id' info'). now right.
Qed.

Lemma averages_loop (cci : dict Z contig_dict) :
  dict_wf cci -> inner_wf cci ->
  (forall k contigs, In (k, contigs) cci -> has_fractions contigs) ->
  for_in (dict_keys cci) (averages_step cci) ([], [])
  = Ok (dict_map_values (average_of Info.gc) cci,
        dict_map_values (average_of Info.cov) cci).
Proof.
  intros Hwf Hin Hfrac.
  destruct (for_in_dict_inv (d := cci) (averages_step cci)
              (fun pre st => st = (dict_map_values (average_of Info.gc) pre,
                                   dict_map_values (average_of Info.cov) pre))
              ([], [])) as (st & E & HP).
  - reflexivity.
  - intros pre k contigs post st Hd ->.
    assert (Hk : dict_get pre k = None).
    { apply (dict_wf_app_get pre ((k, contigs) :: post)).
      - now rewrite <- Hd.
      - now left. }
    assert (Hkv : In (k, contigs) cci).
    { rewrite Hd. apply in_or_app. right. now left. }
    unfold averages_step.
    rewrite (dict_getitem_In _ _ _ Hwf Hkv). cbn [bind].
    rewrite !dict_set_fresh
      by (rewrite dict_get_map_values, Hk; reflexivity).
    rewrite add_contig_average_items with (contigs := contigs).
    + eexists. split; [reflexivity|].
      rewrite !dict_map_values_app. reflexivity.
    + now apply dict_getitem_In.
    + intros id info Hi. apply dict_get_In; eauto.
    + eauto.
    + rewrite dict_get_map_values, Hk. reflexivity.
    + rewrite dict_get_map_values, Hk. reflexivity.
  - now rewrite E, HP.
Qed.

Lemma fold_left_map {A B C : Type} (f : A -> B -> A) (g : C -> B)
    (l : list C) (a : A) :
  fold_left f (map g l) a = fold_left (fun a x => f a (g x)) l a.
Proof.
  revert a. induction l as [|x l IH]; intros a; simpl; auto.
Qed.

Lemma average_of_with_fractions (value : Info.t -> Q) (contigs : contig_dict) :
  (forall info f, value (Info.set_length_fraction info f) = value info) ->
  average_of value (with_fractions contigs) = weighted_average value contigs.
Proof.
  intros Hvalue. unfold average_of, weighted_average, with_fractions.
  unfold dict_values, dict_map_values. rewrite map_map. simpl.
  rewrite <- (map_map snd
                (fun info => Info.set_length_fraction info
                               (fraction_of (total_of contigs) info))).
  rewrite fold_left_map. unfold fraction_or_zero. simpl.
  generalize 0%Q as av.
  induction (map snd contigs) as [|info l IH]; intros av; simpl; trivial.
  now rewrite Hvalue, IH.
Qed.

(** *** The output dictionary *)
Lemma lengths_of_length (contigs : contig_dict) :
  List.length (lengths_of contigs) = List.length contigs.
Proof.
  unfold lengths_of.
  rewrite (Permutation_length (sorted_insertion_perm _)).
  unfold contig_lengths, dict_values. now rewrite !length_map.
Qed.

Lemma list_first_hd (l : list Z) : l <> [] -> list_first l = Ok (hd 0%Z l).
Proof. destruct l; [congruence | reflexivity]. Qed.

Lemma total_of_nonzero_nonempty (contigs : contig_dict) :
  total_of contigs <> 0%Z -> lengths_of contigs <> [].
Proof.
  intros Hnz E. apply (f_equal (@List.length Z)) in E.
  rewrite lengths_of_length in E. destruct contigs; [|discriminate].
  now apply Hnz.
Qed.

Lemma output_loop (cci : dict Z contig_dict) :
  dict_wf cci ->
  (forall k contigs, In (k, contigs) cci -> total_of contigs <> 0%Z) ->
  for_in (dict_keys (dict_map_values with_fractions cci))
    (output_step (dict_map_values total_of cci)
       (dict_map_values lengths_of cci)
       (dict_map_values n50_of cci)
       (dict_map_values (average_of Info.cov)
          (dict_map_values with_fractions cci))
       (dict_map_values (average_of Info.gc)
          (dict_map_values with_fractions cci))) []
  = Ok (dict_map_values summarize cci).
Proof.
  intros Hwf Hnz. rewrite dict_keys_map_values.
  apply for_in_dict_build; trivial.
  intros k contigs acc Hin. unfold output_step, dict_getitem.
  rewrite !dict_map_values_map, !dict_get_map_values.
  rewrite (dict_get_In _ _ _ Hwf Hin). cbn [option_map bind].
  rewrite list_first_hd by (apply total_of_nonzero_nonempty; eauto).
  cbn [bind]. unfold summarize.
  now rewrite !average_of_with_fractions.
Qed.

Lemma dict_map_values_wf {K A B : Type} {HK : PyKey K} {HL : PyKeyLaws K}
    (g : A -> B)
    (d : dict K A) :
  dict_wf d -> dict_wf (dict_map_values g d).
Proof.
  induction d as [|[k v] d IH]; simpl; trivial.
  intros [Hfresh Hwf]. split; [|auto].
  change (dict_get (dict_map_values g d) k = None).
  now rewrite dict_get_map_values, Hfresh.
Qed.

Lemma with_fractions_wf (contigs : contig_dict) :
  dict_wf contigs -> dict_wf (with_fractions contigs).
Proof. apply dict_map_values_wf. Qed.

(** [getClusterSummaryInfo] returns the summary of every cluster of
    [cluster_contig_info] provided no cluster has total length 0. *)
Lemma getClusterSummaryInfo_summarize (t : table) :
  dict_wf (cluster_contig_info t) ->
  inner_wf (cluster_contig_info t) ->
  (forall k contigs,
      In (k, contigs) (cluster_contig_info t) -> total_of contigs <> 0%Z) ->
  getClusterSummaryInfo t
  = Ok (dict_map_values summarize (cluster_contig_info t)).
Proof.
  intros Hwf Hin Hnz. unfold getClusterSummaryInfo.
  rewrite cluster_lengths_loop by assumption. cbn [bind].
  rewrite cluster_n50_loop by assumption. cbn [bind].
  rewrite length_fraction_loop by assumption. cbn [bind].
  rewrite averages_loop.
  - cbn [bind]. now apply output_loop.
  - now apply dict_map_values_wf.
  - intros k contigs Hi. apply in_map_iff in Hi as ([k' c'] & [= <- <-] & Hi).
    simpl. apply with_fractions_wf. eauto.
  - intros k contigs Hi. apply in_map_iff in Hi as ([k' c'] & [= <- <-] & Hi).
    simpl. intros id info Hi'.
    apply in_map_iff in Hi' as ([id' info'] & [= <- <-] & _).
    discriminate.
Qed.

(** ** The contigs of a cluster *)

Lemma last_row_snoc (rows : table) (r : row) (id : string) :
  last_row (rows ++ [r]) id =
  if String.eqb id (TableRow.contig r) then Some r else last_row rows id.
Proof.
  unfold last_row. rewrite rev_app_distr. simpl.
  now rewrite string_eqb_sym.
Qed.

Lemma cluster_contig_info_row_eq (cci : dict Z contig_dict) (r : row) :
  cluster_contig_info_row cci r
  = dict_set cci (TableRow.db_cluster r)
      (dict_set (match dict_get cci (TableRow.db_cluster r) with
                 | Some contigs => contigs
                 | None => []
                 end)
                (TableRow.contig r) (Info.of_row r)).
Proof.
  unfold cluster_contig_info_row.
  now destruct (dict_get cci (TableRow.db_cluster r)).
Qed.

Lemma contigs_of_nil (t : table) (c : Z) :
  ~ In c (map TableRow.db_cluster t) -> contigs_of t c [].
Proof.
  intros Hn. split; [exact I|]. intros id.
  now rewrite cluster_rows_nil.
Qed.

Lemma cluster_contig_info_inv_step (t : table) (r : row)
    (cci : dict Z contig_dict) :
  cluster_contig_info_inv t cci ->
  cluster_contig_info_inv (t ++ [r]) (cluster_contig_info_row cci r).
Proof.
  intros (Hwf & Hkeys & Hc). rewrite cluster_contig_info_row_eq.
  set (c0 := TableRow.db_cluster r).
  set (C0 := match dict_get cci c0 with Some contigs => contigs | None => [] end).
  assert (HC0 : contigs_of t c0 C0).
  { unfold C0. destruct (dict_get cci c0) eqn:E; [auto|].
    apply contigs_of_nil. now apply Hkeys. }
  split; [|split].
  - now apply dict_wf_set.
  - intros c. rewrite dict_get_set. simpl. rewrite map_app, in_app_iff. simpl.
    destruct (Z.eqb_spec c c0) as [->|Hne].
    + split; [discriminate | intros Hn; exfalso; apply Hn; auto].
    + rewrite Hkeys. fold c0. intuition congruence.
  - intros c contigs. rewrite dict_get_set. simpl.
    destruct (Z.eqb_spec c c0) as [->|Hne].
    + intros [= <-]. destruct HC0 as [HwfC HgetC]. split.
      * now apply dict_wf_set.
      * intros id. rewrite dict_get_set. simpl.
        rewrite cluster_rows_app. simpl. unfold c0 at 2.
        rewrite Z.eqb_refl, last_row_snoc.
        destruct (String.eqb id (TableRow.contig r)); [reflexivity | apply HgetC].
    + intros Hg. specialize (Hc _ _ Hg).
      assert (Hrows : cluster_rows (t ++ [r]) c = cluster_rows t c).
      { rewrite cluster_rows_app. simpl. fold c0.
        destruct (Z.eqb_spec c0 c); [congruence | apply app_nil_r]. }
      unfold contigs_of in *. now rewrite Hrows.
Qed.

Lemma cluster_contig_info_inv_fold (rows t : table) (cci : dict Z contig_dict) :
  cluster_contig_info_inv t cci ->
  cluster_contig_info_inv (t ++ rows) (fold_left cluster_contig_info_row rows cci).
Proof.
  revert t cci. induction rows as [|r rows IH]; intros t cci Hinv; simpl.
  - now rewrite app_nil_r.
  - replace (t ++ r :: rows) with ((t ++ [r]) ++ rows)
      by now rewrite <- app_assoc.
    apply IH. now apply cluster_contig_info_inv_step.
Qed.

Lemma cluster_contig_info_ok (t : table) :
  cluster_contig_info_inv t (cluster_contig_info t).
Proof.
  apply (cluster_contig_info_inv_fold t (t := [])).
  split; [exact I|]. split.
  - intros c. simpl. tauto.
  - intros c contigs. discriminate.
Qed.

Lemma last_row_Some (rows : table) (id : string) (r : row) :
  last_row rows id = Some r -> In r rows /\ TableRow.contig r = id.
Proof.
  unfold last_row. intros Hf. apply find_some in Hf as [Hin E].
  apply in_rev in Hin. apply String.eqb_eq in E. auto.
Qed.

Lemma last_row_In (rows : table) (id : string) :
  In id (map TableRow.contig rows) -> exists r, last_row rows id = Some r.
Proof.
  intros Hin. apply in_map_iff in Hin as (r & E & Hin).
  unfold last_row.
  destruct (find (fun r0 => String.eqb (TableRow.contig r0) id) (rev rows)) eqn:Ef.
  - eauto.
  - exfalso. apply in_rev in Hin.
    pose proof (find_none _ _ Ef r Hin) as Hf. simpl in Hf.
    rewrite E, String.eqb_refl in Hf. discriminate.
Qed.

Lemma cluster_contigs_ids (t : table) (c : Z) :
  map TableRow.contig (cluster_contigs t c) = cluster_contig_ids t c.
Proof.
  unfold cluster_contigs.
  assert (Hgen : forall l,
             (forall id, In id l -> In id (map TableRow.contig (cluster_rows t c))) ->
             map TableRow.contig
               (flat_map
                  (fun id =>
                     match last_row (cluster_rows t c) id with
                     | Some r => [r]
                     | None => []
                     end) l) = l).
  { induction l as [|id l IH]; intros Hl; simpl; trivial.
    destruct (last_row_In _ _ (Hl id (or_introl eq_refl))) as [r Hr].
    rewrite Hr. simpl. destruct (last_row_Some _ _ Hr) as [_ ->].
    f_equal. apply IH. intros id' Hin. apply Hl. now right. }
  apply Hgen. intros id Hin. unfold cluster_contig_ids in Hin.
  now apply nodup_In in Hin.
Qed.

Lemma cluster_contigs_In (t : table) (c : Z) (r : row) :
  In r (cluster_contigs t c) <->
  last_row (cluster_rows t c) (TableRow.contig r) = Some r.
Proof.
  unfold cluster_contigs. rewrite in_flat_map. split.
  - intros (id & Hid & Hin).
    destruct (last_row (cluster_rows t c) id) as [r'|] eqn:E; [|contradiction].
    destruct Hin as [<-|[]]. destruct (last_row_Some _ _ E) as [_ ->].
    exact E.
  - intros Hr. exists (TableRow.contig r). split.
    + unfold cluster_contig_ids. apply nodup_In.
      destruct (last_row_Some _ _ Hr) as [Hin _]. now apply in_map.
    + rewrite Hr. now left.
Qed.

Lemma NoDup_map_fst {A B : Type} (l : list (A * B)) :
  NoDup (map fst l) -> NoDup l.
Proof. apply NoDup_map_inv. Qed.

(** The dict that [cluster_contig_info] holds for a cluster lists the
    contigs of the cluster. *)
Lemma contigs_of_perm (t : table) (c : Z) (contigs : contig_dict) :
  contigs_of t c contigs ->
  Permutation contigs (map contig_item (cluster_contigs t c)).
Proof.
  intros [Hwf Hget]. apply NoDup_Permutation.
  - apply NoDup_map_fst. apply (dict_wf_NoDup _ Hwf).
  - apply NoDup_map_fst. rewrite map_map. simpl.
    change (NoDup (map TableRow.contig (cluster_contigs t c))).
    rewrite cluster_contigs_ids. apply NoDup_nodup.
  - intros [id info]. rewrite in_map_iff. split.
    + intros Hin. pose proof (dict_get_In _ _ _ Hwf Hin) as Hg.
      rewrite Hget in Hg.
      destruct (last_row (cluster_rows t c) id) as [r|] eqn:Er;
        [|discriminate].
      injection Hg as <-. exists r.
      destruct (last_row_Some _ _ Er) as [_ Hid]. split.
      * unfold contig_item. now rewrite Hid.
      * apply cluster_contigs_In. now rewrite Hid.
    + intros (r & [= <- <-] & Hin). apply cluster_contigs_In in Hin.
      specialize (Hget (TableRow.contig r)). rewrite Hin in Hget. simpl in Hget.
      apply dict_get_Some_In in Hget as (k' & E & Hin').
      apply key_eqb_eq in E. now subst k'.
Qed.

Lemma contigs_of_values (t : table) (c : Z) (contigs : contig_dict) :
  contigs_of t c contigs ->
  Permutation (dict_values contigs) (map Info.of_row (cluster_contigs t c)).
Proof.
  intros Hc. apply contigs_of_perm in Hc.
  apply (Permutation_map snd) in Hc. unfold dict_values.
  now rewrite map_map in Hc.
Qed.

Lemma contigs_of_lengths (t : table) (c : Z) (contigs : contig_dict) :
  contigs_of t c contigs ->
  Permutation (contig_lengths contigs) (cluster_lengths t c).
Proof.
  intros Hc. apply contigs_of_values in Hc.
  apply (Permutation_map Info.length) in Hc.
  unfold contig_lengths, cluster_lengths. now rewrite map_map in Hc.
Qed.

Lemma Zsum_perm (l l' : list Z) : Permutation l l' -> Zsum l = Zsum l'.
Proof.
  induction 1; simpl; lia.
Qed.

Lemma fold_left_Zadd (l : list Z) (a : Z) :
  fold_left Z.add l a = (a + Zsum l)%Z.
Proof.
  revert a. induction l as [|x l IH]; intros a; simpl.
  - lia.
  - rewrite IH. lia.
Qed.

Lemma contigs_of_total (t : table) (c : Z) (contigs : contig_dict) :
  contigs_of t c contigs -> total_of contigs = Zsum (cluster_lengths t c).
Proof.
  intros Hc. unfold total_of. rewrite fold_left_Zadd.
  now rewrite (Zsum_perm (contigs_of_lengths Hc)).
Qed.

Lemma sort_descending_perm_eq (l l' : list Z) :
  Permutation l l' -> sort_descending l = sort_descending l'.
Proof.
  intros Hp. apply descending_unique; try apply sort_descending_sorted.
  eapply perm_trans; [apply sort_descending_perm|].
  eapply perm_trans; [exact Hp|].
  apply Permutation_sym, sort_descending_perm.
Qed.

Lemma contigs_of_sorted (t : table) (c : Z) (contigs : contig_dict) :
  contigs_of t c contigs ->
  lengths_of contigs = sort_descending (cluster_lengths t c).
Proof.
  intros Hc. unfold lengths_of.
  rewrite sorted_insertion_is_sort_descending_aux.
  apply sort_descending_perm_eq. now apply contigs_of_lengths.
Qed.

(** ** N50 (C4) *)

Lemma Qle_bool_half (L r : Z) :
  Qle_bool (inject_Z L / 2) (inject_Z r) = Z.leb L (2 * r).
Proof.
  destruct (Z.leb_spec L (2 * r)) as [Hle|Hgt].
  - apply Qle_bool_iff. unfold Qle. simpl. lia.
  - destruct (Qle_bool (inject_Z L / 2) (inject_Z r)) eqn:E; trivial.
    apply Qle_bool_iff in E. unfold Qle in E. simpl in E. lia.
Qed.

Lemma n50_scan_first (l : list Z) (acc L n : Z) :
  n50_scan l acc (inject_Z L / 2) = Some n ->
  exists k,
    nth_error l k = Some n /\
    (L <= 2 * (acc + Zsum (firstn (S k) l)))%Z /\
    forall j, (j < k)%nat -> (2 * (acc + Zsum (firstn (S j) l)) < L)%Z.
Proof.
  revert acc. induction l as [|x l IH]; intros acc; cbn [n50_scan];
    [discriminate|].
  rewrite Qle_bool_half. destruct (Z.leb_spec L (2 * (acc + x))) as [Hle|Hgt].
  - intros [= <-]. exists 0%nat. split; [reflexivity|]. split.
    + cbn [firstn Zsum fold_right]. lia.
    + intros j Hj. lia.
  - intros Hs. destruct (IH _ Hs) as (k & Hk & Hreach & Hbefore).
    exists (S k). split; trivial.
    assert (Hcons : forall i, Zsum (firstn (S (S i)) (x :: l))
                              = (x + Zsum (firstn (S i) l))%Z)
      by reflexivity.
    split.
    + rewrite Hcons. lia.
    + intros [|j] Hj.
      * cbn [firstn Zsum fold_right]. lia.
      * assert (Hj' : (j < k)%nat) by lia. specialize (Hbefore j Hj').
        rewrite Hcons. lia.
Qed.

Lemma n50_scan_found (l : list Z) (acc L : Z) :
  l <> [] -> (L <= 2 * (acc + Zsum l))%Z ->
  exists n, n50_scan l acc (inject_Z L / 2) = Some n.
Proof.
  revert acc. induction l as [|x l IH]; intros acc Hne HL; [congruence|].
  cbn [n50_scan]. rewrite Qle_bool_half.
  cbn [Zsum fold_right] in HL. fold (Zsum l) in HL.
  destruct (Z.leb_spec L (2 * (acc + x))) as [Hle|Hgt]; [eauto|].
  apply IH.
  - intros ->. cbn [Zsum fold_right] in HL. lia.
  - lia.
Qed.

Lemma descending_split (s : list Z) (k : nat) (n : Z) :
  StronglySorted descending s -> nth_error s k = Some n ->
  Forall (fun x => (n <= x)%Z) (firstn (S k) s) /\
  Forall (fun x => (x <= n)%Z) (skipn k s).
Proof.
  intros Hs. revert k. induction Hs as [|a s Hs IH Ha]; intros k Hk.
  - destruct k; discriminate.
  - destruct k as [|k]; simpl in Hk.
    + injection Hk as ->. split.
      * simpl. constructor; [lia | constructor].
      * simpl. constructor; [lia | exact Ha].
    + destruct (IH _ Hk) as [Hfirst Hskip]. split; [|exact Hskip].
      change (firstn (S (S k)) (a :: s)) with (a :: firstn (S k) s).
      constructor; trivial.
      apply nth_error_In in Hk. rewrite Forall_forall in Ha.
      apply (Ha _ Hk).
Qed.

Lemma filter_all {A : Type} (p : A -> bool) (l : list A) :
  Forall (fun x => p x = true) l -> filter p l = l.
Proof.
  induction 1 as [|x l Hx _ IH]; simpl; trivial. now rewrite Hx, IH.
Qed.

Lemma filter_none {A : Type} (p : A -> bool) (l : list A) :
  Forall (fun x => p x = false) l -> filter p l = [].
Proof.
  induction 1 as [|x l Hx _ IH]; simpl; trivial. now rewrite Hx, IH.
Qed.

Lemma Zsum_filter_bounds (p : Z -> bool) (l : list Z) :
  Forall (fun x => (0 <= x)%Z) l ->
  (0 <= Zsum (filter p l) <= Zsum l)%Z.
Proof.
  induction 1 as [|x l Hx _ IH]; simpl; [lia|].
  destruct (p x); simpl; lia.
Qed.

Lemma Zsum_nonneg (l : list Z) :
  Forall (fun x => (0 <= x)%Z) l -> (0 <= Zsum l)%Z.
Proof. induction 1; simpl; lia. Qed.

Lemma Zsum_ge_In (l : list Z) (x : Z) :
  Forall (fun y => (0 <= y)%Z) l -> In x l -> (x <= Zsum l)%Z.
Proof.
  induction 1 as [|y l Hy Hl IH]; simpl; [intros []|].
  pose proof (Zsum_nonneg Hl).
  intros [->|Hin]; [lia | specialize (IH Hin); lia].
Qed.

Lemma Forall_firstn {A : Type} (P : A -> Prop) (k : nat) (l : list A) :
  Forall P l -> Forall P (firstn k l).
Proof.
  intros Hl. rewrite <- (firstn_skipn k l) in Hl.
  now apply Forall_app in Hl.
Qed.

Lemma Forall_skipn {A : Type} (P : A -> Prop) (k : nat) (l : list A) :
  Forall P l -> Forall P (skipn k l).
Proof.
  intros Hl. rewrite <- (firstn_skipn k l) in Hl.
  now apply Forall_app in Hl.
Qed.

(** On a descending list of non-negative lengths the two readings of N50
    agree. *)
Lemma first_reaching_half_covering (s : list Z) (n : Z) :
  Sorted descending s ->
  Forall (fun x => (0 <= x)%Z) s ->
  first_reaching_half s n ->
  largest_covering_half s n.
Proof.
  intros Hs Hpos (k & Hk & Hreach & Hbefore).
  apply (Sorted_StronglySorted descending_trans) in Hs.
  destruct (@descending_split s k n Hs Hk) as [Hfirst Hskip].
  assert (Hn : In n s) by (eapply nth_error_In; eauto).
  split; [exact Hn|]. split.
  - rewrite <- (firstn_skipn (S k) s) at 2.
    rewrite filter_app, Zsum_app.
    rewrite (@filter_all _ (fun x => Z.leb n x) (firstn (S k) s)).
    + pose proof (@Zsum_filter_bounds (fun x => Z.leb n x) _
                    (@Forall_skipn _ _ (S k) _ Hpos)). lia.
    + eapply Forall_impl; [|exact Hfirst]. intros x Hx. cbv beta in *.
      now apply Z.leb_le.
  - intros n' Hn' Hlt.
    rewrite <- (firstn_skipn k s) at 1.
    rewrite filter_app, Zsum_app.
    rewrite (@filter_none _ (fun x => Z.leb n' x) (skipn k s)).
    + cbn [Zsum fold_right]. rewrite Z.add_0_r.
      pose proof (@Zsum_filter_bounds (fun x => Z.leb n' x) _
                    (@Forall_firstn _ _ k _ Hpos)) as Hb.
      destruct k as [|j].
      * cbn [firstn filter Zsum fold_right] in *.
        pose proof (@Zsum_ge_In s n' Hpos Hn').
        rewrite Forall_forall in Hpos. specialize (Hpos _ Hn). lia.
      * specialize (Hbefore j (Nat.lt_succ_diag_r j)). lia.
    + eapply Forall_impl; [|exact Hskip]. intros x Hx. cbv beta in *.
      apply Z.leb_gt. lia.
Qed.

Lemma largest_covering_half_perm (l l' : list Z) (n : Z) :
  Permutation l l' ->
  largest_covering_half l n -> largest_covering_half l' n.
Proof.
  intros Hp (Hin & Hcover & Hlarger).
  assert (Hsum : forall p, Zsum (filter p l) = Zsum (filter p l'))
    by (intros p; apply Zsum_perm, filter_Permutation, Hp).
  pose proof (Zsum_perm Hp) as Htot.
  split; [eapply Permutation_in; eauto|]. split.
  - rewrite <- Htot, <- Hsum. exact Hcover.
  - intros n' Hn' Hlt. rewrite <- Htot, <- Hsum. apply Hlarger; trivial.
    eapply Permutation_in; [apply Permutation_sym|]; eauto.
Qed.

(** The N50 that [getClusterSummaryInfo] computes for the lengths [lens]. *)
Lemma n50_scan_sorted (lens : list Z) :
  lens <> [] ->
  Forall (fun x => (0 <= x)%Z) lens ->
  exists n,
    n50_scan (sort_descending lens) 0 (inject_Z (Zsum lens) / 2) = Some n /\
    first_reaching_half (sort_descending lens) n /\
    largest_covering_half lens n.
Proof.
  intros Hne Hpos.
  pose proof (sort_descending_perm lens) as Hp.
  assert (Hpos' : Forall (fun x => (0 <= x)%Z) (sort_descending lens)).
  { rewrite Forall_forall in *. intros x Hx. apply Hpos.
    eapply Permutation_in; eauto. }
  assert (Hsum : Zsum (sort_descending lens) = Zsum lens)
    by now apply Zsum_perm.
  destruct (@n50_scan_found (sort_descending lens) 0 (Zsum lens)) as [n Hn].
  - intros E. rewrite E in Hp. apply Permutation_nil in Hp. congruence.
  - pose proof (Zsum_nonneg Hpos). lia.
  - exists n. split; trivial.
    assert (Hfirst : first_reaching_half (sort_descending lens) n).
    { destruct (n50_scan_first _ _ _ Hn) as (k & Hk & Hreach & Hbefore).
      exists k. rewrite Hsum. split; trivial. split; [lia|].
      intros j Hj. specialize (Hbefore j Hj). lia. }
    split; trivial.
    apply (largest_covering_half_perm Hp).
    apply first_reaching_half_covering; trivial.
    apply sort_descending_sorted.
Qed.

(** ** Weighted averages (C6) *)

Lemma fold_left_Qsum {A : Type} (f : A -> Q) (l : list A) (a : Q) :
  (fold_left (fun av x => av + f x) l a == a + Qsum (map f l))%Q.
Proof.
  revert a. induction l as [|x l IH]; intros a; simpl.
  - ring.
  - rewrite IH. ring.
Qed.

Lemma Qsum_perm (l l' : list Q) : Permutation l l' -> (Qsum l == Qsum l')%Q.
Proof.
  induction 1 as [|x l l' _ IH|x y l|l l' l'' _ IH1 _ IH2]; simpl.
  - reflexivity.
  - now rewrite IH.
  - ring.
  - now rewrite IH1.
Qed.

Lemma Qsum_weights (d : Z) (l : list Z) :
  (Qsum (map (fun x => inject_Z x / inject_Z d) l)
   == inject_Z (Zsum l) / inject_Z d)%Q.
Proof.
  induction l as [|x l IH]; simpl.
  - unfold Qdiv. ring.
  - rewrite IH, inject_Z_plus. unfold Qdiv. ring.
Qed.

Lemma weighted_average_contigs (t : table) (c : Z) (contigs : contig_dict)
    (value : Info.t -> Q) :
  contigs_of t c contigs ->
  (weighted_average value contigs ==
   Qsum (map (fun r => value (Info.of_row r)
                       * contig_weight (Zsum (cluster_lengths t c)) r)
             (cluster_contigs t c)))%Q.
Proof.
  intros Hc. unfold weighted_average.
  rewrite (fold_left_Qsum
             (fun info => value info * fraction_of (total_of contigs) info)%Q).
  rewrite Qplus_0_l, (contigs_of_total Hc).
  rewrite (Qsum_perm
             (Permutation_map
                (fun info =>
                   (value info
                    * fraction_of (Zsum (cluster_lengths t c)) info)%Q)
                (contigs_of_values Hc))).
  rewrite map_map. reflexivity.
Qed.

Lemma weights_sum_one (t : table) (c : Z) :
  Zsum (cluster_lengths t c) <> 0%Z ->
  (Qsum (map (contig_weight (Zsum (cluster_lengths t c))) (cluster_contigs t c))
   == 1)%Q.
Proof.
  intros Hnz. unfold contig_weight.
  rewrite <- (map_map TableRow.length
                (fun x => (inject_Z x / inject_Z (Zsum (cluster_lengths t c)))%Q)).
  fold (cluster_lengths t c). rewrite Qsum_weights.
  field. now apply inject_Z_nonzero.
Qed.

(** ** The summary of every cluster (C4, C6, C10) *)

Lemma getClusterSummaryInfo_clusters (t : table) :
  (forall c, In c (labels t) -> Zsum (cluster_lengths t c) <> 0%Z) ->
  exists out,
    getClusterSummaryInfo t = Ok out /\
    forall c, In c (labels t) ->
      exists contigs,
        contigs_of t c contigs /\ dict_get out c = Some (summarize contigs).
Proof.
  intros Hnz.
  destruct (cluster_contig_info_ok t) as (Hwf & Hkeys & Hc).
  assert (Hin : forall k contigs,
             In (k, contigs) (cluster_contig_info t) ->
             In k (labels t) /\ contigs_of t k contigs).
  { intros k contigs Hi. pose proof (dict_get_In _ _ _ Hwf Hi) as Hg.
    split; [|eauto].
    destruct (in_dec Z.eq_dec k (labels t)) as [|Hn]; trivial.
    apply Hkeys in Hn. congruence. }
  exists (dict_map_values summarize (cluster_contig_info t)). split.
  - apply getClusterSummaryInfo_summarize; trivial.
    + intros k contigs Hi. apply (Hin k contigs Hi).
    + intros k contigs Hi. destruct (Hin k contigs Hi) as [Hk Hco].
      rewrite (contigs_of_total Hco). auto.
  - intros c Hc'.
    destruct (dict_get (cluster_contig_info t) c) as [contigs|] eqn:Eg.
    + exists contigs. split; [eauto|].
      now rewrite dict_get_map_values, Eg.
    + apply Hkeys in Eg. contradiction.
Qed.

Lemma cluster_contigs_rows (t : table) (c : Z) (r : row) :
  In r (cluster_contigs t c) -> In r t /\ TableRow.db_cluster r = c.
Proof.
  intros Hin. apply cluster_contigs_In in Hin.
  apply last_row_Some in Hin as [Hin _].
  unfold cluster_rows in Hin. apply filter_In in Hin as [Hin E].
  apply Z.eqb_eq in E. auto.
Qed.

Lemma cluster_contigs_nonempty (t : table) (c : Z) :
  In c (labels t) -> cluster_contigs t c <> [].
Proof.
  intros Hc E. apply in_map_iff in Hc as (r & Hr & Hin).
  assert (Hid : In (TableRow.contig r) (cluster_contig_ids t c)).
  { unfold cluster_contig_ids. apply nodup_In. apply in_map.
    unfold cluster_rows. apply filter_In. split; trivial.
    now apply Z.eqb_eq. }
  rewrite <- cluster_contigs_ids, E in Hid. contradiction.
Qed.

Lemma cluster_lengths_positive (t : table) (c : Z) :
  lengths_positive t -> Forall (fun x => (0 < x)%Z) (cluster_lengths t c).
Proof.
  intros Hpos. apply Forall_forall. intros x Hx.
  apply in_map_iff in Hx as (r & <- & Hr).
  apply Hpos. now apply cluster_contigs_rows in Hr.
Qed.

Lemma cluster_total_positive (t : table) (c : Z) :
  lengths_positive t -> In c (labels t) ->
  (0 < Zsum (cluster_lengths t c))%Z.
Proof.
  intros Hpos Hc. pose proof (@cluster_lengths_positive t c Hpos) as Hall.
  pose proof (@cluster_contigs_nonempty t c Hc) as Hne.
  unfold cluster_lengths in *.
  destruct (cluster_contigs t c) as [|r rows]; [congruence|].
  simpl in *. inversion Hall as [|? ? Hr Hrest]; subst.
  assert (0 <= Zsum (map TableRow.length rows))%Z; [|lia].
  apply Zsum_nonneg. eapply Forall_impl; [|exact Hrest].
  intros x Hx. cbv beta in Hx. lia.
Qed.

Lemma descending_hd_max (s : list Z) :
  Sorted descending s -> s <> [] -> is_maximum s (hd 0%Z s).
Proof.
  intros Hs Hne. apply (Sorted_StronglySorted descending_trans) in Hs.
  destruct Hs as [|a s Hs Ha]; [congruence|]. simpl. split; [now left|].
  intros x [<-|Hx]; [lia|]. rewrite Forall_forall in Ha. now apply Ha.
Qed.

Lemma is_maximum_perm (l l' : list Z) (m : Z) :
  Permutation l l' -> is_maximum l m -> is_maximum l' m.
Proof.
  intros Hp [Hin Hmax]. split.
  - eapply Permutation_in; eauto.
  - intros x Hx. apply Hmax.
    eapply Permutation_in; [apply Permutation_sym|]; eauto.
Qed.

Lemma contigs_of_count (t : table) (c : Z) (contigs : contig_dict) :
  contigs_of t c contigs ->
  List.length (lengths_of contigs) = List.length (cluster_contig_ids t c).
Proof.
  intros Hc. rewrite lengths_of_length.
  rewrite (Permutation_length (contigs_of_perm Hc)).
  rewrite <- cluster_contigs_ids. now rewrite !length_map.
Qed.

Lemma contigs_of_n50 (t : table) (c : Z) (contigs : contig_dict) :
  contigs_of t c contigs ->
  n50_of contigs
  = n50_scan (sort_descending (cluster_lengths t c)) 0
      (inject_Z (Zsum (cluster_lengths t c)) / 2).
Proof.
  intros Hc. unfold n50_of.
  now rewrite (contigs_of_sorted Hc), (contigs_of_total Hc).
Qed.

Lemma cluster_lengths_nonempty (t : table) (c : Z) :
  In c (labels t) -> cluster_lengths t c <> [].
Proof.
  intros Hc E. apply (@cluster_contigs_nonempty t c Hc).
  unfold cluster_lengths in E. now apply map_eq_nil in E.
Qed.

Lemma positive_nonneg (l : list Z) :
  Forall (fun x => (0 < x)%Z) l -> Forall (fun x => (0 <= x)%Z) l.
Proof.
  intros Hl. eapply Forall_impl; [|exact Hl]. intros x Hx.
  cbv beta in Hx. lia.
Qed.

Lemma lengths_positive_totals (t : table) :
  lengths_positive t ->
  forall c, In c (labels t) -> Zsum (cluster_lengths t c) <> 0%Z.
Proof.
  intros Hpos c Hc. pose proof (@cluster_total_positive t c Hpos Hc). lia.
Qed.


Lemma ex_summary_table_positive : lengths_positive ex_summary_table.
Proof.
  intros r Hr. simpl in Hr.
  repeat (destruct Hr as [<-|Hr]; [reflexivity|]). contradiction.
Qed.


(** C6. In a cluster of positive total length each contig weighs its length
    divided by the total; the weights sum to exactly 1, and the reported
    gc_percent and cov are the sums of the contigs' GC and coverage values
    times these weights, with no further normalisation. *)
Theorem weighted_averages_exact (t : table) (c : Z) :
  (forall c', In c' (labels t) -> (0 < Zsum (cluster_lengths t c'))%Z) ->
  In c (labels t) ->
  exists out s,
    getClusterSummaryInfo t = Ok out /\
    dict_get out c = Some s /\
    size s = Zsum (cluster_lengths t c) /\
    (Qsum (map (contig_weight (size s)) (cluster_contigs t c)) == 1)%Q /\
    (gc_percent s ==
     Qsum (map (fun r => TableRow.gc r * contig_weight (size s) r)
               (cluster_contigs t c)))%Q /\
    (cov s ==
     Qsum (map (fun r => TableRow.cov r * contig_weight (size s) r)
               (cluster_contigs t c)))%Q.
Proof.
  intros Htot Hc.
  assert (Hnz : forall c', In c' (labels t) ->
                           Zsum (cluster_lengths t c') <> 0%Z).
  { intros c' Hc'. specialize (Htot c' Hc'). lia. }
  destruct (@getClusterSummaryInfo_clusters t Hnz) as (out & Eout & Hout).
  destruct (Hout c Hc) as (contigs & Hco & Hs).
  exists out, (summarize contigs). split; trivial. split; trivial.
  cbn [size gc_percent cov summarize]. rewrite (contigs_of_total Hco).
  split; [reflexivity|]. split; [|split].
  - apply weights_sum_one. auto.
  - apply (weighted_average_contigs Info.gc Hco).
  - apply (weighted_average_contigs Info.cov Hco).
Qed.

Lemma weighted_averages_exact_witness :
  exists out s,
    getClusterSummaryInfo ex_summary_table = Ok out /\
    dict_get out 0%Z = Some s /\
    size s = Zsum (cluster_lengths ex_summary_table 0) /\
    (Qsum (map (contig_weight (size s)) (cluster_contigs ex_summary_table 0))
     == 1)%Q /\
    (gc_percent s ==
     Qsum (map (fun r => TableRow.gc r * contig_weight (size s) r)
               (cluster_contigs ex_summary_table 0)))%Q /\
    (cov s ==
     Qsum (map (fun r => TableRow.cov r * contig_weight (size s) r)
               (cluster_contigs ex_summary_table 0)))%Q.
Proof.
  apply (@weighted_averages_exact ex_summary_table 0%Z).
  - intros c' Hc'. simpl in Hc'.
    repeat (destruct Hc' as [<-|Hc']; [reflexivity|]). contradiction.
  - simpl. tauto.
Defined.



(** ** The partition (C5) *)

Lemma classify_loop (info : dict Z quality) (cc pc : Z) (ks : list Z) :
  (forall k, In k ks -> dict_get info k <> None) ->
  forall cp other : dict Z Z,
  exists cp' other',
    for_in ks (classify_cluster info cc pc) (cp, other) = Ok (cp', other') /\
    (forall c, dict_mem cp' c =
               dict_mem cp c
               || (existsb (Z.eqb c) ks && class_of info cc pc c)) /\
    (forall c, dict_mem other' c =
               dict_mem other c
               || (existsb (Z.eqb c) ks && negb (class_of info cc pc c))).
Proof.
  induction ks as [|k ks IH]; intros Hks cp other.
  - exists cp, other. simpl. split; trivial.
    split; intros c; now rewrite orb_false_r.
  - cbn [for_in]. unfold classify_cluster at 1.
    destruct (dict_get info k) as [q|] eqn:Eq.
    2:{ exfalso. apply (Hks k); [now left | exact Eq]. }
    unfold dict_getitem. rewrite Eq. cbn [bind].
    assert (Hks' : forall k', In k' ks -> dict_get info k' <> None)
      by (intros k' Hin; apply Hks; now right).
    assert (Hclass : forall c, Z.eqb c k = true ->
                               class_of info cc pc c
                               = is_complete_and_pure cc pc q).
    { intros c E. apply Z.eqb_eq in E. subst c. unfold class_of.
      now rewrite Eq. }
    fold (is_complete_and_pure cc pc q).
    destruct (is_complete_and_pure cc pc q) eqn:Ecp; cbn [bind].
    + destruct (IH Hks' (dict_set cp k 1%Z) other)
        as (cp' & other' & E & Hcp & Hother).
      exists cp', other'. split; trivial. split; intros c.
      * rewrite Hcp, dict_mem_set. cbn [existsb key_eqb Z_key].
        destruct (Z.eqb c k) eqn:Ek; [rewrite (Hclass c Ek)|];
          destruct (dict_mem cp c), (existsb (Z.eqb c) ks),
            (class_of info cc pc c); reflexivity.
      * rewrite Hother. cbn [existsb].
        destruct (Z.eqb c k) eqn:Ek; [rewrite (Hclass c Ek)|];
          destruct (dict_mem other c), (existsb (Z.eqb c) ks),
            (class_of info cc pc c); reflexivity.
    + destruct (IH Hks' cp (dict_set other k 1%Z))
        as (cp' & other' & E & Hcp & Hother).
      exists cp', other'. split; trivial. split; intros c.
      * rewrite Hcp. cbn [existsb].
        destruct (Z.eqb c k) eqn:Ek; [rewrite (Hclass c Ek)|];
          destruct (dict_mem cp c), (existsb (Z.eqb c) ks),
            (class_of info cc pc c); reflexivity.
      * rewrite Hother, dict_mem_set. cbn [existsb key_eqb Z_key].
        destruct (Z.eqb c k) eqn:Ek; [rewrite (Hclass c Ek)|];
          destruct (dict_mem other c), (existsb (Z.eqb c) ks),
            (class_of info cc pc c); reflexivity.
Qed.

Lemma dict_mem_existsb {V : Type} (d : dict Z V) (c : Z) :
  existsb (Z.eqb c) (dict_keys d) = dict_mem d c.
Proof.
  unfold dict_mem. induction d as [|[k v] d IH]; simpl; trivial.
  destruct (Z.eqb c k); simpl; trivial.
Qed.

Lemma drop_clusters_filter (ks : list Z) (t : table) :
  fold_left drop_cluster ks t
  = filter (fun r => negb (existsb (Z.eqb (TableRow.db_cluster r)) ks)) t.
Proof.
  revert t. induction ks as [|k ks IH]; intros t; simpl.
  - induction t as [|r t IHt]; simpl; [trivial | now rewrite <- IHt].
  - rewrite IH. unfold drop_cluster.
    induction t as [|r t IHt]; simpl; trivial.
    destruct (Z.eqb (TableRow.db_cluster r) k); simpl.
    + exact IHt.
    + destruct (existsb (Z.eqb (TableRow.db_cluster r)) ks); simpl; congruence.
Qed.

Lemma filter_partition_perm {A : Type} (p : A -> bool) (l : list A) :
  Permutation (filter p l ++ filter (fun x => negb (p x)) l) l.
Proof.
  induction l as [|x l IH]; simpl; trivial.
  destruct (p x); simpl.
  - now constructor.
  - apply Permutation_sym, Permutation_cons_app, Permutation_sym, IH.
Qed.

(** C5. A cluster label is classified complete_and_pure exactly when its
    completeness and its purity both strictly exceed their cutoffs, whatever
    the label; the clustered table holds the rows of those labels, the
    nonclustered table the other rows, so every row of the selected
    assignment is in exactly one of the two. *)
Theorem partition_exact (t : table) (hmm : hmm_dict) (life_domain : string)
    (completeness_cutoff purity_cutoff : Z) :
  hmm_wf hmm ->
  exists info p,
    getClusterInfo t hmm life_domain = Ok info /\
    partition_table t info completeness_cutoff purity_cutoff = Ok p /\
    (forall c q,
        dict_get info c = Some q ->
        (dict_mem (complete_and_pure_clusters p) c = true <->
         (inject_Z completeness_cutoff < completeness q
          /\ inject_Z purity_cutoff < purity q)%Q) /\
        dict_mem (other_clusters p) c
        = negb (dict_mem (complete_and_pure_clusters p) c)) /\
    clustered_table p
    = filter (fun r => dict_mem (complete_and_pure_clusters p)
                         (TableRow.db_cluster r)) t /\
    nonclustered_table p
    = filter (fun r => negb (dict_mem (complete_and_pure_clusters p)
                               (TableRow.db_cluster r))) t /\
    Permutation (clustered_table p ++ nonclustered_table p) t /\
    (forall r, In r t ->
               (In r (clustered_table p) /\ ~ In r (nonclustered_table p))
               \/ (In r (nonclustered_table p) /\ ~ In r (clustered_table p))).
Proof.
  intros Hhmm.
  destruct (getClusterInfo_ok t life_domain Hhmm) as (mt & Hinv & Einfo).
  remember (dict_map_values (score (expected_number life_domain)) mt)
    as info eqn:Hinfo.
  destruct Hinv as (Hwf & Hkeys & _).
  assert (Hlabel : forall r, In r t -> dict_mem info (TableRow.db_cluster r) = true).
  { intros r Hr. apply dict_mem_true. rewrite Hinfo.
    rewrite dict_get_map_values.
    destruct (dict_get mt (TableRow.db_cluster r)) eqn:E; [simpl; eauto|].
    apply Hkeys in E. exfalso. apply E. now apply in_map. }
  destruct (@classify_loop info completeness_cutoff purity_cutoff
              (dict_keys info)) with (cp := @nil (Z * Z)) (other := @nil (Z * Z))
    as (cp & other & Eclass & Hcp & Hother).
  { intros k Hk. apply dict_mem_In in Hk. apply dict_mem_true in Hk as [v Hv].
    congruence. }
  assert (Hcp' : forall c, dict_mem cp c
                           = dict_mem info c
                             && class_of info completeness_cutoff
                                  purity_cutoff c).
  { intros c. rewrite Hcp, dict_mem_existsb. reflexivity. }
  assert (Hother' : forall c, dict_mem other c
                              = dict_mem info c
                                && negb (class_of info completeness_cutoff
                                           purity_cutoff c)).
  { intros c. rewrite Hother, dict_mem_existsb. reflexivity. }
  exists info.
  exists (mk_partition cp other
            (fst (subset_tables t cp other)) (snd (subset_tables t cp other))).
  split; [exact Einfo|]. split.
  { assert (Eclass' : classify_clusters info completeness_cutoff purity_cutoff
                       = Ok (cp, other)) by exact Eclass.
    unfold partition_table. rewrite Eclass'. cbn [bind].
    now destruct (subset_tables t cp other). }
  cbn [complete_and_pure_clusters other_clusters clustered_table
       nonclustered_table subset_tables fst snd].
  assert (Hclustered :
            fold_left drop_cluster (dict_keys other) t
            = filter (fun r => dict_mem cp (TableRow.db_cluster r)) t).
  { rewrite drop_clusters_filter. apply filter_ext_in. intros r Hr.
    rewrite dict_mem_existsb, Hother', Hcp', (Hlabel r Hr). simpl.
    now rewrite negb_involutive. }
  assert (Hnon :
            fold_left drop_cluster (dict_keys cp) t
            = filter (fun r => negb (dict_mem cp (TableRow.db_cluster r))) t).
  { rewrite drop_clusters_filter. apply filter_ext_in. intros r Hr.
    now rewrite dict_mem_existsb. }
  rewrite Hclustered, Hnon.
  split; [|split; [reflexivity|split; [reflexivity|split]]].
  - intros c q Hq. split.
    + rewrite Hcp'. unfold class_of, dict_mem. rewrite Hq. simpl.
      unfold is_complete_and_pure, Qgt_bool.
      rewrite andb_true_iff, !negb_true_iff.
      rewrite <- !not_true_iff_false, !Qle_bool_iff.
      split; intros [H1 H2]; split;
        first [now apply Qnot_le_lt | now apply Qlt_not_le].
    + rewrite Hother', Hcp'. unfold dict_mem. rewrite Hq. simpl. reflexivity.
  - apply filter_partition_perm.
  - intros r Hr. rewrite !filter_In.
    destruct (dict_mem cp (TableRow.db_cluster r)); simpl.
    + left. split; [auto|]. intros [_ Hf]. discriminate.
    + right. split; [auto|]. intros [_ Hf]. discriminate.
Qed.

Lemma partition_exact_witness :
  exists info p,
    getClusterInfo ex_table ex_hmm "bacteria" = Ok info /\
    partition_table ex_table info 1 0 = Ok p /\
    clustered_table p = [ex_row "C1" 500 1; ex_row "C2" 300 1]%string /\
    nonclustered_table p = [ex_row "C3" 150 0]%string.
Proof.
  destruct (@partition_exact ex_table ex_hmm "bacteria" 1%Z 0%Z ex_hmm_wf)
    as (info & p & Einfo & Ep & _ & Hc & Hn & _).
  exists info, p. split; trivial. split; trivial.
  vm_compute in Einfo. injection Einfo as <-.
  vm_compute in Ep. injection Ep as <-. split; [exact Hc | exact Hn].
Defined.

(** ** FASTA output (C8) *)

Lemma fasta_key_eqb_refl (k : fasta_key) : fasta_key_eqb k k = true.
Proof. destruct k; simpl; trivial. apply Z.eqb_refl. Qed.

Lemma fasta_key_eqb_sym (a b : fasta_key) :
  fasta_key_eqb a b = fasta_key_eqb b a.
Proof. destruct a, b; simpl; trivial. apply Z.eqb_sym. Qed.

Lemma fasta_key_eqb_trans (a b c : fasta_key) :
  fasta_key_eqb a b = true -> fasta_key_eqb b c = true ->
  fasta_key_eqb a c = true.
Proof.
  destruct a, b, c; simpl; trivial; try discriminate. apply Z_eqb_trans.
Qed.

#[export] Instance fasta_key_key_laws : PyKeyLaws fasta_key.
Proof.
  constructor.
  - exact fasta_key_eqb_refl.
  - exact fasta_key_eqb_sym.
  - exact fasta_key_eqb_trans.
Qed.

Lemma append_record_eq (seqs : dict string seq_record) (cp : dict Z Z)
    (r : row) (out : fasta_dict) :
  append_record seqs cp r out
  = (s <- dict_getitem seqs (TableRow.contig r) ;;
     records <- dict_getitem out (fasta_key_of cp r) ;;
     Ok (dict_set out (fasta_key_of cp r) (records ++ [s]))).
Proof.
  unfold append_record, fasta_key_of.
  now destruct (dict_mem cp (TableRow.db_cluster r)).
Qed.

Lemma records_of_app (seqs : dict string seq_record) (a b : table) :
  records_of seqs (a ++ b) = records_of seqs a ++ records_of seqs b.
Proof. apply flat_map_app. Qed.

Lemma append_records_ok (seqs : dict string seq_record) (cp : dict Z Z)
    (rows : table) :
  (forall r, In r rows -> dict_get seqs (TableRow.contig r) <> None) ->
  forall out : fasta_dict,
    fasta_ready cp out ->
    exists out',
      for_in rows (append_record seqs cp) out = Ok out' /\
      forall k,
        dict_get out' k =
        option_map
          (fun records =>
             records ++
             records_of seqs
               (filter (fun r => fasta_key_eqb (fasta_key_of cp r) k) rows))
          (dict_get out k).
Proof.
  induction rows as [|r rows IH]; intros Hrows out Hready.
  - exists out. split; trivial. intros k. simpl.
    destruct (dict_get out k); simpl; trivial. now rewrite app_nil_r.
  - cbn [for_in]. rewrite append_record_eq. unfold dict_getitem.
    destruct (dict_get seqs (TableRow.contig r)) as [s|] eqn:Es.
    2:{ exfalso. apply (Hrows r); [now left | exact Es]. }
    destruct (dict_get out (fasta_key_of cp r)) as [records|] eqn:Er.
    2:{ exfalso. now apply (Hready r). }
    cbn [bind].
    destruct (IH (fun r' Hr' => Hrows r' (or_intror Hr'))
                (dict_set out (fasta_key_of cp r) (records ++ [s])))
      as (out' & Eout & Hget).
    + intros r'. rewrite dict_get_set.
      destruct (key_eqb (fasta_key_of cp r') (fasta_key_of cp r));
        [discriminate | apply Hready].
    + exists out'. split; trivial. intros k. rewrite Hget, dict_get_set.
      cbn [filter]. rewrite (fasta_key_eqb_sym (fasta_key_of cp r) k).
      change (key_eqb k (fasta_key_of cp r))
        with (fasta_key_eqb k (fasta_key_of cp r)).
      destruct (fasta_key_eqb k (fasta_key_of cp r)) eqn:Ek.
      * rewrite (@dict_get_eqb _ _ fasta_key_key _ out k (fasta_key_of cp r) Ek).
        rewrite Er. cbn [option_map].
        change (r :: filter (fun r0 => fasta_key_eqb (fasta_key_of cp r0) k) rows)
          with ([r] ++ filter (fun r0 => fasta_key_eqb (fasta_key_of cp r0) k)
                         rows).
        rewrite records_of_app. simpl. rewrite Es. simpl.
        now rewrite <- app_assoc.
      * reflexivity.
Qed.

Lemma append_records_missing (seqs : dict string seq_record) (cp : dict Z Z)
    (rows : table) :
  (exists r, In r rows /\ dict_get seqs (TableRow.contig r) = None) ->
  forall out : fasta_dict,
    fasta_ready cp out ->
    for_in rows (append_record seqs cp) out = Raise KeyError.
Proof.
  induction rows as [|r rows IH]; intros (r0 & Hin & Hmiss) out Hready.
  - contradiction.
  - cbn [for_in]. rewrite append_record_eq. unfold dict_getitem.
    destruct (dict_get seqs (TableRow.contig r)) as [s|] eqn:Es; [|reflexivity].
    destruct (dict_get out (fasta_key_of cp r)) as [records|] eqn:Er.
    2:{ exfalso. now apply (Hready r). }
    cbn [bind]. apply IH.
    + destruct Hin as [<-|Hin]; [congruence | eauto].
    + intros r'. rewrite dict_get_set.
      destruct (key_eqb (fasta_key_of cp r') (fasta_key_of cp r));
        [discriminate | apply Hready].
Qed.

Lemma init_output_fastas_get (ks : list Z) (out : fasta_dict) (k : fasta_key) :
  dict_get (fold_left (fun output_fastas cluster =>
                         dict_set output_fastas (Cluster cluster) [])
                      ks out) k
  = match k with
    | Cluster c => if existsb (Z.eqb c) ks then Some [] else dict_get out k
    | Unclustered => dict_get out k
    end.
Proof.
  revert out. induction ks as [|c0 ks IH]; intros out; simpl.
  - now destruct k.
  - rewrite IH. destruct k as [|c]; rewrite ?dict_get_set; simpl; trivial.
    destruct (Z.eqb c c0); simpl; trivial.
    now destruct (existsb (Z.eqb c) ks).
Qed.

Lemma init_output_fastas_spec (cp : dict Z Z) (k : fasta_key) :
  dict_get (init_output_fastas cp) k
  = match k with
    | Cluster c => if dict_mem cp c then Some [] else None
    | Unclustered => Some []
    end.
Proof.
  unfold init_output_fastas. rewrite init_output_fastas_get.
  destruct k as [|c]; simpl; trivial. now rewrite dict_mem_existsb.
Qed.

Lemma init_output_fastas_ready (cp : dict Z Z) :
  fasta_ready cp (init_output_fastas cp).
Proof.
  intros r. rewrite init_output_fastas_spec. unfold fasta_key_of.
  destruct (dict_mem cp (TableRow.db_cluster r)) eqn:E; [rewrite E|]; discriminate.
Qed.

(** C8. With a FASTA file, the step raises when a contig of the selected
    assignment has no sequence; when every contig has one the step succeeds,
    the records of the rows of each complete and pure cluster are collected
    under that cluster and the records of all other rows under
    'unclustered'. *)
Theorem collect_fastas_lookup (records : list seq_record) (cp : dict Z Z)
    (t : table) :
  ((exists r, In r t /\ dict_get (parse_assembly records) (TableRow.contig r) = None) ->
   collect_fastas (Some records) cp t = Raise KeyError) /\
  ((forall r, In r t -> dict_get (parse_assembly records) (TableRow.contig r) <> None) ->
   exists out,
     collect_fastas (Some records) cp t = Ok (Some out) /\
     dict_get out Unclustered
     = Some (records_of (parse_assembly records)
               (filter (fun r => negb (dict_mem cp (TableRow.db_cluster r))) t)) /\
     forall c,
       dict_get out (Cluster c)
       = if dict_mem cp c
         then Some (records_of (parse_assembly records) (cluster_rows t c))
         else None).
Proof.
  split.
  - intros Hmiss. unfold collect_fastas.
    rewrite append_records_missing; trivial.
    apply init_output_fastas_ready.
  - intros Hall.
    destruct (@append_records_ok (parse_assembly records) cp t Hall
                (init_output_fastas cp) (init_output_fastas_ready cp))
      as (out & Eout & Hget).
    exists out. unfold collect_fastas. rewrite Eout. cbn [bind].
    split; trivial. split.
    + rewrite Hget, init_output_fastas_spec. cbn [option_map app].
      do 2 f_equal. apply filter_ext. intros r. unfold fasta_key_of.
      now destruct (dict_mem cp (TableRow.db_cluster r)).
    + intros c. rewrite Hget, init_output_fastas_spec.
      destruct (dict_mem cp c) eqn:Ec; cbn [option_map app]; trivial.
      do 2 f_equal. unfold cluster_rows. apply filter_ext. intros r.
      unfold fasta_key_of.
      destruct (dict_mem cp (TableRow.db_cluster r)) eqn:Er; simpl; trivial.
      destruct (Z.eqb_spec (TableRow.db_cluster r) c); congruence.
Qed.

Lemma collect_fastas_lookup_witness :
  collect_fastas (Some (removelast ex_records)) [(1%Z, 1%Z)] ex_table
  = Raise KeyError /\
  exists out,
    collect_fastas (Some ex_records) [(1%Z, 1%Z)] ex_table = Ok (Some out) /\
    dict_get out Unclustered = Some [SeqRecord.mk "C3" "TTAA"]%string /\
    dict_get out (Cluster 1)
    = Some [SeqRecord.mk "C1" "ACGT"; SeqRecord.mk "C2" "GGCC"]%string.
Proof.
  split.
  - apply (@collect_fastas_lookup (removelast ex_records) [(1%Z, 1%Z)] ex_table).
    exists (ex_row "C3" 150 0). split; [simpl; tauto | reflexivity].
  - destruct (@collect_fastas_lookup ex_records [(1%Z, 1%Z)] ex_table)
      as [_ Hok].
    destruct Hok as (out & Eout & Hu & Hc).
    + intros r Hr. simpl in Hr.
      repeat (destruct Hr as [<-|Hr]; [discriminate|]). contradiction.
    + exists out. split; trivial. split; [exact Hu | exact (Hc 1%Z)].
Defined.

(** ** The radius sweep (C2) *)

Lemma count_rows_keys (rows : table) (clusters : dict Z Z) :
  dict_wf clusters ->
  dict_wf (fold_left count_row rows clusters) /\
  forall c,
    dict_mem (fold_left count_row rows clusters) c
    = dict_mem clusters c || existsb (Z.eqb c) (map TableRow.db_cluster rows).
Proof.
  revert clusters. induction rows as [|r rows IH]; intros clusters Hwf; simpl.
  - split; trivial. intros c. now rewrite orb_false_r.
  - destruct (IH (count_row clusters r)) as [Hwf' Hmem].
    + unfold count_row.
      destruct (dict_get clusters (TableRow.db_cluster r)); now apply dict_wf_set.
    + split; trivial. intros c. rewrite Hmem.
      assert (Hstep : dict_mem (count_row clusters r) c
                      = dict_mem clusters c || Z.eqb c (TableRow.db_cluster r)).
      { unfold count_row.
        destruct (dict_get clusters (TableRow.db_cluster r));
          rewrite dict_mem_set; apply orb_comm. }
      rewrite Hstep. now rewrite orb_assoc.
Qed.

(** [countClusters] counts the distinct labels of the table, whatever they
    are. *)
Lemma countClusters_distinct (t : table) :
  countClusters t = List.length (distinct_labels t).
Proof.
  unfold countClusters. fold count_row.
  destruct (@count_rows_keys t [] I) as [Hwf Hmem].
  apply Permutation_length, NoDup_Permutation.
  - now apply dict_wf_NoDup.
  - apply NoDup_nodup.
  - intros c. unfold distinct_labels. rewrite nodup_In, <- dict_mem_In, Hmem.
    simpl. rewrite existsb_exists. split.
    + intros (c' & Hin & E). apply Z.eqb_eq in E. now subst.
    + intros Hin. exists c. split; trivial. apply Z.eqb_refl.
Qed.

Lemma countClusters_nonempty (t : table) :
  t <> [] -> (1 <= countClusters t)%nat.
Proof.
  intros Hne. rewrite countClusters_distinct.
  destruct t as [|r t]; [congruence|].
  assert (Hin : In (TableRow.db_cluster r) (distinct_labels (r :: t))).
  { unfold distinct_labels. apply nodup_In. now left. }
  destruct (distinct_labels (r :: t)); [contradiction | simpl; lia].
Qed.

Lemma radius_value (k : nat) :
  (radius k == (3 # 10) + inject_Z (Z.of_nat k) * (1 # 10))%Q.
Proof.
  induction k as [|k IH].
  - reflexivity.
  - change (radius (S k)) with (radius k + (1 # 10))%Q.
    rewrite IH, Nat2Z.inj_succ. unfold Z.succ. rewrite inject_Z_plus. ring.
Qed.

Lemma radius_lt (j k : nat) : (j < k)%nat -> (radius j < radius k)%Q.
Proof.
  intros Hlt. rewrite !radius_value.
  apply Qplus_lt_r. apply Qmult_lt_compat_r; [reflexivity|].
  rewrite <- Zlt_Qlt. lia.
Qed.

Section SweepFacts.
Variable dbscan : list (Q * Q) -> Q -> Z -> list Z.
Variable vizbin_r : table.

Lemma assignments_fresh (k : nat) :
  dict_get (assignments dbscan vizbin_r k) (radius k) = None.
Proof.
  apply dict_get_None. intros eps Hin. unfold dict_keys, assignments in Hin.
  rewrite map_map in Hin. apply in_map_iff in Hin as (j & <- & Hj).
  apply in_seq in Hj. simpl.
  destruct (Qeq_bool (radius k) (radius j)) eqn:E; trivial.
  apply Qeq_bool_iff in E.
  assert (Hlt : (radius j < radius k)%Q) by (apply radius_lt; lia).
  rewrite E in Hlt. now apply Qlt_irrefl in Hlt.
Qed.

Lemma assignments_S (k : nat) :
  assignments dbscan vizbin_r (S k)
  = assignments dbscan vizbin_r k ++ [assignment dbscan vizbin_r k].
Proof.
  unfold assignments. now rewrite seq_S, map_app.
Qed.

Lemma sweep_body_inv (st : sweep_state) :
  sweep_inv dbscan vizbin_r st ->
  more_than_one (number_of_clusters st) = true ->
  sweep_inv dbscan vizbin_r (sweep_body dbscan vizbin_r st).
Proof.
  intros (k & Heps & Htables & Hbefore & Hcount) Hmore.
  exists (S k). unfold sweep_body. cbn [current_eps db_tables number_of_clusters].
  rewrite Heps, Htables. split; [reflexivity|]. split; [|split].
  - rewrite dict_set_fresh by apply assignments_fresh.
    now rewrite assignments_S.
  - intros i Hi. destruct k as [|j]; [lia|].
    destruct (Nat.eq_dec i j) as [->|Hne].
    + rewrite Hcount in Hmore. simpl in Hmore.
      now apply Nat.ltb_lt in Hmore.
    + apply Hbefore. lia.
  - reflexivity.
Qed.

Lemma sweep_loop_inv (fuel : nat) (st st' : sweep_state) :
  sweep_inv dbscan vizbin_r st ->
  sweep_loop dbscan fuel vizbin_r st = Some st' ->
  sweep_inv dbscan vizbin_r st' /\ more_than_one (number_of_clusters st') = false.
Proof.
  revert st. induction fuel as [|fuel IH]; intros st Hinv; simpl.
  - discriminate.
  - destruct (more_than_one (number_of_clusters st)) eqn:Hmore.
    + apply IH. now apply sweep_body_inv.
    + intros [= <-]. auto.
Qed.

Lemma sweep_init_inv : sweep_inv dbscan vizbin_r sweep_init.
Proof.
  exists 0%nat. repeat split. intros i Hi. lia.
Qed.

Lemma sweep_loop_stops (m : nat) :
  forall (k : nat) (st : sweep_state),
    current_eps st = radius k ->
    (countClusters (table_at dbscan vizbin_r (k + m)) <= 1)%nat ->
    exists st', sweep_loop dbscan (m + 2) vizbin_r st = Some st'.
Proof.
  induction m as [|m IH]; intros k st Heps Hstop.
  - simpl. destruct (more_than_one (number_of_clusters st)); [|eauto].
    unfold sweep_body at 1. cbn [number_of_clusters more_than_one].
    rewrite Heps. rewrite Nat.add_0_r in Hstop. fold (table_at dbscan vizbin_r k).
    apply Nat.ltb_ge in Hstop. rewrite Hstop. eauto.
  - change (S m + 2)%nat with (S (m + 2)). cbn [sweep_loop].
    destruct (more_than_one (number_of_clusters st)); [|eauto].
    apply (IH (S k)).
    + unfold sweep_body. cbn [current_eps]. now rewrite Heps.
    + now rewrite Nat.add_succ_comm.
Qed.

(** A sweep that ends has collected the assignments of the radii
    0.3, 0.4, ... up to the first one with at most one label. *)
Lemma sweep_result (fuel : nat) (tables : dict Q table) :
  sweep dbscan fuel vizbin_r = Some tables ->
  exists n,
    tables = assignments dbscan vizbin_r (S n) /\
    (forall i, (i < n)%nat -> (1 < countClusters (table_at dbscan vizbin_r i))%nat) /\
    (countClusters (table_at dbscan vizbin_r n) <= 1)%nat.
Proof.
  unfold sweep.
  destruct (sweep_loop dbscan fuel vizbin_r sweep_init) as [st|] eqn:E;
    [|discriminate].
  intros [= <-].
  destruct (sweep_loop_inv _ sweep_init_inv E)
    as [(k & _ & Htables & Hbefore & Hcount) Hstop].
  rewrite Hcount in Hstop. destruct k as [|n]; [discriminate|].
  exists n. split; trivial. split.
  - intros i Hi. apply Hbefore. lia.
  - simpl in Hstop. now apply Nat.ltb_ge in Hstop.
Qed.
End SweepFacts.




(** ** Selecting the radius (C3) *)

Lemma getClusterInfo_info_of (hmm : hmm_dict) (life_domain : string)
    (t : table) :
  hmm_wf hmm ->
  getClusterInfo t hmm life_domain = Ok (info_of hmm life_domain t) /\
  dict_wf (info_of hmm life_domain t).
Proof.
  intros Hhmm. unfold info_of.
  destruct (getClusterInfo_ok t life_domain Hhmm) as (mt & Hinv & ->).
  split; trivial. apply dict_map_values_wf. apply Hinv.
Qed.

Lemma cluster_info_loop (tables : dict Q table) (hmm : hmm_dict)
    (life_domain : string) :
  hmm_wf hmm -> dict_wf tables ->
  for_in (dict_keys tables) (cluster_info_step tables hmm life_domain) []
  = Ok (dict_map_values (info_of hmm life_domain) tables).
Proof.
  intros Hhmm Hwf. apply for_in_dict_build; trivial.
  intros eps t acc Hin. unfold cluster_info_step.
  rewrite (dict_getitem_In _ _ _ Hwf Hin). cbn [bind].
  destruct (@getClusterInfo_info_of hmm life_domain t Hhmm) as [-> _].
  reflexivity.
Qed.

Lemma count_cluster_items (ci : dict Q (dict Z quality)) (eps : Q)
    (cc pc : Z) (info items : dict Z quality) :
  dict_getitem ci eps = Ok info ->
  (forall k q, In (k, q) items -> dict_get info k = Some q) ->
  forall a b : Z,
    for_in (dict_keys items) (count_cluster ci eps cc pc) (a, b)
    = Ok ((a + complete_and_pure_count cc pc items)%Z,
          (b + pure_count pc items)%Z).
Proof.
  intros Hci Hitems.
  induction items as [|[k q] items IH]; intros a b.
  - simpl. unfold complete_and_pure_count, pure_count. simpl.
    now rewrite !Z.add_0_r.
  - cbn [dict_keys map fst for_in]. unfold count_cluster at 1.
    rewrite Hci. cbn [bind]. unfold dict_getitem.
    rewrite (Hitems k q) by now left. cbn [bind].
    fold (is_complete_and_pure cc pc q).
    unfold dict_keys in IH. rewrite IH.
    + f_equal. unfold complete_and_pure_count, pure_count.
      cbn [filter snd].
      destruct (is_complete_and_pure cc pc q),
        (Qgt_bool (purity q) (inject_Z pc));
        cbn [List.length]; f_equal; lia.
    + intros k' q' Hin. apply Hitems. now right.
Qed.

Lemma count_loop (ci : dict Q (dict Z quality)) (cc pc : Z) :
  dict_wf ci ->
  (forall eps info, In (eps, info) ci -> dict_wf info) ->
  for_in (dict_keys ci) (count_step ci cc pc) ([], [])
  = Ok (dict_map_values (complete_and_pure_count cc pc) ci,
        dict_map_values (pure_count pc) ci).
Proof.
  intros Hwf Hin.
  destruct (for_in_dict_inv (d := ci) (count_step ci cc pc)
              (fun pre st =>
                 st = (dict_map_values (complete_and_pure_count cc pc) pre,
                       dict_map_values (pure_count pc) pre))
              ([], [])) as (st & E & HP).
  - reflexivity.
  - intros pre eps info post st Hd ->.
    assert (Hk : dict_get pre eps = None).
    { apply (dict_wf_app_get pre ((eps, info) :: post)).
      - now rewrite <- Hd.
      - now left. }
    assert (Hkv : In (eps, info) ci).
    { rewrite Hd. apply in_or_app. right. now left. }
    unfold count_step.
    rewrite (dict_getitem_In _ _ _ Hwf Hkv). cbn [bind].
    rewrite count_cluster_items with (info := info).
    + cbn [bind]. rewrite !dict_set_fresh
        by (rewrite dict_get_map_values, Hk; reflexivity).
      eexists. split; [reflexivity|].
      rewrite !dict_map_values_app. reflexivity.
    + now apply dict_getitem_In.
    + intros k q Hi. apply dict_get_In; eauto.
  - now rewrite E, HP.
Qed.

Lemma sorted_eps_ok (counts : dict Q Z) :
  dict_wf counts ->
  sorted_eps counts = Ok (map fst (sort_by_count_desc counts)).
Proof.
  intros Hwf. unfold sorted_eps.
  destruct (for_in_dict_inv (d := counts)
              (fun eps keyed =>
                 n <- dict_getitem counts eps ;; Ok (keyed ++ [(eps, n)]))
              (fun pre keyed => keyed = pre) []) as (keyed & E & ->).
  - reflexivity.
  - intros pre eps n post keyed Hd ->.
    rewrite (dict_getitem_In counts eps n Hwf).
    + cbn [bind]. eauto.
    + rewrite Hd. apply in_or_app. right. now left.
  - now rewrite E.
Qed.

(** The head of the sorted list is the first element with the largest
    count. *)
Lemma sort_by_count_desc_hd (l : list (Q * Z)) :
  l <> [] ->
  exists x pre post,
    hd_error (sort_by_count_desc l) = Some x /\
    l = pre ++ x :: post /\
    (forall y, In y pre -> (snd y < snd x)%Z) /\
    (forall y, In y post -> (snd y <= snd x)%Z).
Proof.
  induction l as [|a l IH]; intros Hne; [congruence|].
  destruct l as [|b l].
  - exists a, [], []. simpl. repeat split; intros y [].
  - destruct IH as (x & pre & post & Hhd & Hl & Hpre & Hpost); [discriminate|].
    change (sort_by_count_desc (a :: b :: l))
      with (insert_by_count a (sort_by_count_desc (b :: l))).
    destruct (sort_by_count_desc (b :: l)) as [|x' rest]; [discriminate|].
    injection Hhd as ->. cbn [insert_by_count].
    destruct (Z.ltb_spec (snd a) (snd x)) as [Hlt|Hge].
    + exists x, (a :: pre), post. split; [reflexivity|]. split.
      * rewrite Hl. reflexivity.
      * split; [|exact Hpost]. intros y [<-|Hy]; auto.
    + exists a, [], (b :: l). split; [reflexivity|]. split; [reflexivity|].
      split; [intros y []|]. intros y Hy. rewrite Hl in Hy.
      apply in_app_or in Hy as [Hy|[<-|Hy]].
      * specialize (Hpre y Hy). lia.
      * lia.
      * specialize (Hpost y Hy). lia.
Qed.

Lemma StronglySorted_middle {A : Type} (R : A -> A -> Prop) (a b : list A)
    (x : A) :
  StronglySorted R (a ++ x :: b) -> Forall (R x) b.
Proof.
  induction a as [|y a IH]; simpl; intros Hs.
  - now inversion Hs.
  - inversion Hs; auto.
Qed.

Lemma sorted_keys_wf {V : Type} (d : dict Q V) :
  StronglySorted Qlt (dict_keys d) -> dict_wf d.
Proof.
  induction d as [|[k v] d IH]; simpl; trivial.
  intros Hs. inversion Hs as [|? ? Hs' Hall]; subst. split; [|auto].
  apply dict_get_None. intros k' Hin. rewrite Forall_forall in Hall.
  specialize (Hall _ Hin). simpl.
  destruct (Qeq_bool k k') eqn:E; trivial.
  apply Qeq_bool_iff in E. rewrite E in Hall. now apply Qlt_irrefl in Hall.
Qed.

Lemma radii_sorted (n : nat) (start : nat) :
  StronglySorted Qlt (map radius (seq start n)).
Proof.
  revert start. induction n as [|n IH]; intros start; simpl; constructor.
  - apply IH.
  - apply Forall_forall. intros eps Hin.
    apply in_map_iff in Hin as (j & <- & Hj). apply in_seq in Hj.
    apply radius_lt. lia.
Qed.

Lemma assignments_keys (dbscan : list (Q * Q) -> Q -> Z -> list Z)
    (vizbin_r : table) (n : nat) :
  dict_keys (assignments dbscan vizbin_r n) = map radius (seq 0 n).
Proof.
  unfold dict_keys, assignments. rewrite map_map. reflexivity.
Qed.

Lemma is_complete_and_pure_strict (cc pc : Z) (q : quality) :
  is_complete_and_pure cc pc q = true <->
  (inject_Z cc < completeness q /\ inject_Z pc < purity q)%Q.
Proof.
  unfold is_complete_and_pure, Qgt_bool.
  rewrite andb_true_iff, !negb_true_iff.
  rewrite <- !not_true_iff_false, !Qle_bool_iff.
  split; intros [H1 H2]; split;
    first [now apply Qnot_le_lt | now apply Qlt_not_le].
Qed.

(** Whatever the order of the dict of assignments, the selected radius is
    the first one, in that order, among those with the largest count. *)
Lemma select_eps_first_largest (tables : dict Q table) (hmm : hmm_dict)
    (life_domain : string) (cc pc : Z) :
  hmm_wf hmm ->
  dict_wf tables ->
  tables <> [] ->
  exists sel x pre post,
    select_eps tables hmm life_domain cc pc = Ok sel /\
    number_complete_and_pure_clusters sel
    = dict_map_values
        (fun t => complete_and_pure_count cc pc (info_of hmm life_domain t))
        tables /\
    number_complete_and_pure_clusters sel = pre ++ x :: post /\
    best_eps_value sel = fst x /\
    (forall y, In y pre -> (snd y < snd x)%Z) /\
    (forall y, In y post -> (snd y <= snd x)%Z).
Proof.
  intros Hhmm Hwf Hne.
  set (ci := dict_map_values (info_of hmm life_domain) tables).
  set (ncp := dict_map_values (complete_and_pure_count cc pc) ci).
  assert (Hci : dict_wf ci) by now apply dict_map_values_wf.
  assert (Hncp : dict_wf ncp) by now apply dict_map_values_wf.
  destruct (@sort_by_count_desc_hd ncp)
    as (x & pre & post & Hhd & Hl & Hpre & Hpost).
  { intros E. apply Hne. apply (f_equal (@List.length _)) in E.
    unfold ncp, ci, dict_map_values in E. rewrite !length_map in E.
    now destruct tables. }
  exists (mk_selection ci ncp (dict_map_values (pure_count pc) ci) (fst x)).
  exists x, pre, post.
  cbn [number_complete_and_pure_clusters best_eps_value].
  split; [|split; [|split; [|split; [|split]]]]; trivial.
  - unfold select_eps. rewrite cluster_info_loop by assumption. cbn [bind].
    fold ci. rewrite count_loop; trivial.
    + cbn [bind]. fold ncp. rewrite sorted_eps_ok by assumption. cbn [bind].
      destruct (sort_by_count_desc ncp) as [|x' rest]; [discriminate|].
      injection Hhd as ->. reflexivity.
    + intros eps info Hin. unfold ci in Hin.
      apply in_map_iff in Hin as ([eps' t] & [= <- <-] & _).
      apply getClusterInfo_info_of, Hhmm.
  - unfold ncp, ci. apply dict_map_values_map.
Qed.

(** With the assignments listed by increasing radius, that is the smallest
    radius with the largest count. *)
Lemma select_eps_sorted (tables : dict Q table) (hmm : hmm_dict)
    (life_domain : string) (cc pc : Z) :
  hmm_wf hmm ->
  StronglySorted Qlt (dict_keys tables) ->
  tables <> [] ->
  exists sel,
    select_eps tables hmm life_domain cc pc = Ok sel /\
    number_complete_and_pure_clusters sel
    = dict_map_values
        (fun t => complete_and_pure_count cc pc (info_of hmm life_domain t))
        tables /\
    In (best_eps_value sel) (dict_keys tables) /\
    exists nbest,
      dict_get (number_complete_and_pure_clusters sel) (best_eps_value sel)
      = Some nbest /\
      forall eps n,
        dict_get (number_complete_and_pure_clusters sel) eps = Some n ->
        (n <= nbest)%Z /\ (n = nbest -> (best_eps_value sel <= eps)%Q).
Proof.
  intros Hhmm Hsorted Hne.
  pose proof (sorted_keys_wf _ Hsorted) as Hwf.
  destruct (@select_eps_first_largest tables hmm life_domain cc pc Hhmm Hwf Hne)
    as (sel & x & pre & post & Esel & Hcounts & Hl & Hbest & Hpre & Hpost).
  exists sel. split; trivial. split; trivial.
  assert (Hkeys : dict_keys (number_complete_and_pure_clusters sel)
                  = dict_keys tables).
  { rewrite Hcounts. apply dict_keys_map_values. }
  assert (Hncp : dict_wf (number_complete_and_pure_clusters sel)).
  { rewrite Hcounts. now apply dict_map_values_wf. }
  assert (Hx : In x (number_complete_and_pure_clusters sel))
    by (rewrite Hl; apply in_or_app; right; now left).
  rewrite Hbest. split.
  - rewrite <- Hkeys. unfold dict_keys. now apply in_map.
  - exists (snd x). split.
    + apply dict_get_In; trivial. now destruct x.
    + intros eps n Hget.
      apply dict_get_Some_In in Hget as (k & Ek & Hin).
      simpl in Ek. apply Qeq_bool_iff in Ek.
      rewrite Hl in Hin. apply in_app_or in Hin as [Hin|[Hin|Hin]].
      * specialize (Hpre _ Hin). simpl in Hpre. split; lia.
      * subst x. simpl. split; [lia|]. intros _. rewrite Ek. apply Qle_refl.
      * specialize (Hpost _ Hin). simpl in Hpost. split; trivial. intros _.
        assert (Hs : StronglySorted Qlt
                       (map fst pre ++ fst x :: map fst post)).
        { rewrite <- Hkeys in Hsorted. unfold dict_keys in Hsorted.
          rewrite Hl, map_app in Hsorted. exact Hsorted. }
        apply StronglySorted_middle in Hs. rewrite Forall_forall in Hs.
        rewrite Ek. apply Qlt_le_weak. apply Hs.
        now apply (in_map fst) in Hin.
Qed.

(** C3. For every radius of a sweep the selector counts the clusters whose
    completeness and purity both strictly exceed their cutoffs; it selects a
    radius with the largest count, and the smallest radius among those that
    reach it. *)
Theorem select_eps_max_count_smallest_radius
    (dbscan : list (Q * Q) -> Q -> Z -> list Z) (vizbin_r : table)
    (fuel : nat) (tables : dict Q table) (hmm : hmm_dict)
    (life_domain : string) (completeness_cutoff purity_cutoff : Z) :
  hmm_wf hmm ->
  sweep dbscan fuel vizbin_r = Some tables ->
  exists sel,
    select_eps tables hmm life_domain completeness_cutoff purity_cutoff
    = Ok sel /\
    (forall eps t,
        In (eps, t) tables ->
        exists info,
          getClusterInfo t hmm life_domain = Ok info /\
          dict_get (number_complete_and_pure_clusters sel) eps
          = Some (Z.of_nat (List.length
                    (filter (fun kq =>
                               is_complete_and_pure completeness_cutoff
                                 purity_cutoff (snd kq)) info)))) /\
    (forall q,
        is_complete_and_pure completeness_cutoff purity_cutoff q = true <->
        (inject_Z completeness_cutoff < completeness q
         /\ inject_Z purity_cutoff < purity q)%Q) /\
    In (best_eps_value sel) (dict_keys tables) /\
    exists nbest,
      dict_get (number_complete_and_pure_clusters sel) (best_eps_value sel)
      = Some nbest /\
      forall eps n,
        dict_get (number_complete_and_pure_clusters sel) eps = Some n ->
        (n <= nbest)%Z /\ (n = nbest -> (best_eps_value sel <= eps)%Q).
Proof.
  intros Hhmm Hsweep.
  destruct (sweep_result _ _ _ Hsweep) as (n & -> & _).
  assert (Hsorted : StronglySorted Qlt
                      (dict_keys (assignments dbscan vizbin_r (S n)))).
  { rewrite assignments_keys. apply radii_sorted. }
  destruct (@select_eps_sorted (assignments dbscan vizbin_r (S n)) hmm
              life_domain completeness_cutoff purity_cutoff Hhmm Hsorted)
    as (sel & Esel & Hcounts & Hbest & Hmax).
  { discriminate. }
  exists sel. split; trivial. split; [|split; [|split]]; trivial.
  - intros eps t Hin. exists (info_of hmm life_domain t). split.
    + apply getClusterInfo_info_of, Hhmm.
    + rewrite Hcounts, dict_get_map_values.
      rewrite (dict_get_In _ _ _ (sorted_keys_wf _ Hsorted) Hin).
      reflexivity.
  - apply is_complete_and_pure_strict.
Qed.

Lemma select_eps_max_count_smallest_radius_witness :
  exists sel,
    select_eps (assignments ex_dbscan ex_vizbin 3) ex_hmm "bacteria" 0 0
    = Ok sel /\
    best_eps_value sel = (3 # 10)%Q.
Proof.
  destruct (@select_eps_max_count_smallest_radius ex_dbscan ex_vizbin 4
              (assignments ex_dbscan ex_vizbin 3) ex_hmm "bacteria" 0%Z 0%Z
              ex_hmm_wf eq_refl) as (sel & Esel & _).
  exists sel. split; trivial.
  vm_compute in Esel. injection Esel as <-. reflexivity.
Defined.

(** * Part VI: further properties of the code *)

(** ** Further properties of [countClusters] and [getClusterInfo] *)

(** X1. [countClusters] returns the number of distinct labels of the
    table: it is 0 exactly for the table without rows and never exceeds the
    number of rows. *)
Theorem countClusters_counts_labels (t : table) :
  countClusters t = List.length (distinct_labels t) /\
  (countClusters t = 0%nat <-> t = []) /\
  (countClusters t <= List.length t)%nat.
Proof.
  split; [apply countClusters_distinct|]. split.
  - split.
    + intros E. destruct t as [|r t]; trivial.
      assert (Hne : r :: t <> []) by discriminate.
      pose proof (countClusters_nonempty Hne). lia.
    + intros ->. reflexivity.
  - rewrite countClusters_distinct. unfold distinct_labels.
    assert (H : (List.length (nodup Z.eq_dec (map TableRow.db_cluster t))
                 <= List.length (map TableRow.db_cluster t))%nat).
    { apply NoDup_incl_length; [apply NoDup_nodup|].
      intros c Hc. now apply nodup_In in Hc. }
    now rewrite length_map in H.
Qed.

Lemma dict_keys_set {V : Type} (d : dict Z V) (k : Z) (v : V) :
  dict_keys (dict_set d k v) = add_key (dict_keys d) k.
Proof.
  unfold add_key. induction d as [|[k0 v0] d IH]; simpl; trivial.
  destruct (Z.eqb k k0) eqn:E; simpl; trivial.
  rewrite IH. now destruct (existsb (Z.eqb k) (dict_keys d)).
Qed.

Lemma filter_filter {A : Type} (p q : A -> bool) (l : list A) :
  filter p (filter q l) = filter (fun x => q x && p x) l.
Proof.
  induction l as [|x l IH]; simpl; trivial.
  destruct (q x); simpl; [destruct (p x)|]; now rewrite IH.
Qed.

Lemma fold_add_key (l ks : list Z) :
  fold_left add_key l ks
  = ks ++ filter (fun c => negb (existsb (Z.eqb c) ks)) (first_seen l).
Proof.
  revert ks. induction l as [|c l IH]; intros ks; simpl.
  - now rewrite app_nil_r.
  - rewrite IH. unfold add_key.
    destruct (existsb (Z.eqb c) ks) eqn:E; simpl.
    + f_equal. rewrite filter_filter. apply filter_ext. intros c'.
      destruct (Z.eqb_spec c' c) as [->|Hne]; simpl; trivial.
      now rewrite E.
    + rewrite <- app_assoc. simpl. f_equal. f_equal.
      rewrite filter_filter. apply filter_ext. intros c'.
      rewrite existsb_app. simpl. rewrite orb_false_r, negb_orb.
      apply andb_comm.
Qed.

Lemma fold_add_key_nil (l : list Z) : fold_left add_key l [] = first_seen l.
Proof.
  rewrite fold_add_key. simpl.
  induction (first_seen l) as [|c s IH]; simpl; [trivial | now rewrite IH].
Qed.

Lemma first_seen_In (l : list Z) (c : Z) : In c (first_seen l) <-> In c l.
Proof.
  induction l as [|c0 l IH]; simpl; [tauto|].
  rewrite filter_In, IH. destruct (Z.eqb_spec c c0) as [->|Hne]; simpl.
  - tauto.
  - split; [tauto|]. intros [E|Hin]; [congruence | auto].
Qed.

Lemma first_seen_NoDup (l : list Z) : NoDup (first_seen l).
Proof.
  induction l as [|c l IH]; simpl; constructor.
  - rewrite filter_In. intros [_ E]. now rewrite Z.eqb_refl in E.
  - now apply NoDup_filter.
Qed.

Lemma marker_totals_keys (hmm : hmm_dict) (rows : table) :
  hmm_wf hmm ->
  forall mt mt' : dict Z (dict string Z),
    for_in rows (marker_totals_row hmm) mt = Ok mt' ->
    dict_keys mt' = fold_left add_key (map TableRow.db_cluster rows) (dict_keys mt).
Proof.
  intros Hhmm. induction rows as [|r rows IH]; intros mt mt'; simpl.
  - now intros [= <-].
  - rewrite marker_totals_row_ok by assumption. cbn [bind]. intros E.
    rewrite (IH _ _ E). now rewrite dict_keys_set.
Qed.

Lemma info_of_keys (hmm : hmm_dict) (life_domain : string) (t : table) :
  hmm_wf hmm ->
  dict_keys (info_of hmm life_domain t) = first_seen (labels t).
Proof.
  intros Hhmm. unfold info_of, getClusterInfo.
  destruct (marker_totals_loop t Hhmm (marker_totals_inv_nil hmm))
    as (mt & Eloop & Hinv).
  rewrite Eloop. cbn [bind]. simpl in Hinv.
  destruct Hinv as (Hwf & Hkeys & Htot).
  rewrite (@for_in_dict_build Z (dict string Z) quality _ _ mt
             (cluster_details_step mt (expected_number life_domain))
             (score (expected_number life_domain))); trivial.
  - rewrite dict_keys_map_values, (@marker_totals_keys hmm t Hhmm [] mt Eloop).
    apply fold_add_key_nil.
  - intros c totals acc Hin. apply cluster_details_step_ok; trivial.
    + apply (Htot c). now apply dict_get_In.
    + pose proof (expected_number_pos life_domain). lia.
Qed.

(** X2. [getClusterInfo] returns one entry per distinct label of the table,
    in the order in which the labels first appear in the rows. *)
Theorem getClusterInfo_one_entry_per_label (t : table) (hmm : hmm_dict)
    (life_domain : string) :
  hmm_wf hmm ->
  exists info,
    getClusterInfo t hmm life_domain = Ok info /\
    dict_keys info = first_seen (labels t) /\
    NoDup (dict_keys info) /\
    (forall c, In c (dict_keys info) <-> In c (labels t)) /\
    List.length info = countClusters t.
Proof.
  intros Hhmm. exists (info_of hmm life_domain t).
  destruct (@getClusterInfo_info_of hmm life_domain t Hhmm) as [E Hwf].
  split; trivial. rewrite (@info_of_keys hmm life_domain t Hhmm).
  split; trivial. split; [apply first_seen_NoDup|]. split.
  - intros c. apply first_seen_In.
  - rewrite countClusters_distinct.
    rewrite <- (length_map fst (info_of hmm life_domain t)).
    change (map fst (info_of hmm life_domain t))
      with (dict_keys (info_of hmm life_domain t)).
    rewrite (@info_of_keys hmm life_domain t Hhmm).
    apply Permutation_length, NoDup_Permutation.
    + apply first_seen_NoDup.
    + apply NoDup_nodup.
    + intros c. unfold distinct_labels. rewrite nodup_In.
      apply first_seen_In.
Qed.

Lemma getClusterInfo_one_entry_per_label_witness :
  exists info,
    getClusterInfo ex_table ex_hmm "bacteria" = Ok info /\
    dict_keys info = [1%Z; 0%Z].
Proof.
  destruct (@getClusterInfo_one_entry_per_label ex_table ex_hmm "bacteria"
              ex_hmm_wf) as (info & E & Hkeys & _).
  exists info. split; [exact E | exact Hkeys].
Defined.

Lemma score_le (e a b : Z) :
  (0 < e)%Z -> (a <= b)%Z ->
  (inject_Z a / inject_Z e * 100 <= inject_Z b / inject_Z e * 100)%Q.
Proof.
  intros He Hab. apply Qmult_le_compat_r; [|discriminate].
  unfold Qdiv. apply Qmult_le_compat_r.
  - now rewrite <- Zle_Qle.
  - apply Qinv_le_0_compat. change 0%Q with (inject_Z 0).
    rewrite <- Zle_Qle. lia.
Qed.

Lemma score_zero (e : Z) : (inject_Z 0 / inject_Z e * 100 == 0)%Q.
Proof. unfold Qdiv. change (inject_Z 0) with 0%Q. ring. Qed.

Lemma dict_get_all_None {V : Type} (d : dict string V) :
  (forall k, dict_get d k = None) -> d = [].
Proof.
  destruct d as [|[k v] d]; trivial. intros H. specialize (H k).
  simpl in H. now rewrite String.eqb_refl in H.
Qed.

(** X3. For every cluster, purity is between 0 and completeness; both are
    0 for a cluster none of whose contigs has a marker in the profile,
    contigs that the profile does not list included. *)
Theorem getClusterInfo_purity_le_completeness (t : table) (hmm : hmm_dict)
    (life_domain : string) :
  hmm_wf hmm ->
  exists info,
    getClusterInfo t hmm life_domain = Ok info /\
    forall c q,
      dict_get info c = Some q ->
      (0 <= purity q)%Q /\ (purity q <= completeness q)%Q /\
      ((forall r, In r (cluster_rows t c) ->
                  contig_profile hmm (TableRow.contig r) = []) ->
       (completeness q == 0)%Q /\ (purity q == 0)%Q).
Proof.
  intros Hhmm.
  destruct (getClusterInfo_ok t life_domain Hhmm) as (mt & Hinv & E).
  eexists. split; [exact E|]. intros c q.
  rewrite dict_get_map_values.
  destruct (dict_get mt c) as [totals|] eqn:Emt; [|discriminate].
  intros [= <-]. cbn [purity completeness score].
  pose proof (expected_number_pos life_domain) as Hexp.
  split; [|split].
  - rewrite <- (score_zero (expected_number life_domain)).
    apply score_le; lia.
  - apply score_le; trivial. apply inj_le. unfold unique_items.
    apply filter_length_le.
  - intros Hnone. destruct Hinv as (_ & _ & Htot).
    destruct (Htot _ _ Emt) as [_ Hget].
    assert (Hids : cluster_marker_ids hmm t c = []).
    { unfold cluster_marker_ids.
      induction (cluster_rows t c) as [|r rows IH]; simpl; trivial.
      rewrite (Hnone r) by now left. simpl.
      apply IH. intros r' Hr'. apply Hnone. now right. }
    assert (Htotals : totals = []).
    { apply dict_get_all_None. intros m. rewrite Hget, Hids.
      now destruct (in_dec string_dec m []). }
    subst totals. simpl. split; apply score_zero.
Qed.

Lemma getClusterInfo_purity_le_completeness_witness :
  exists info q,
    getClusterInfo ex_table ex_hmm "bacteria" = Ok info /\
    dict_get info 0%Z = Some q /\
    (completeness q == 0)%Q /\ (purity q == 0)%Q.
Proof.
  destruct (@getClusterInfo_purity_le_completeness ex_table ex_hmm "bacteria"
              ex_hmm_wf) as (info & E & Hall).
  destruct (dict_get info 0%Z) as [q|] eqn:Eq.
  - exists info, q. split; trivial. split; trivial.
    destruct (Hall 0%Z q Eq) as (_ & _ & Hzero). apply Hzero.
    intros r Hr. simpl in Hr. destruct Hr as [<-|[]]. reflexivity.
  - exfalso. vm_compute in E. injection E as <-. discriminate.
Defined.

(** ** Further properties of [getClusterSummaryInfo] *)

Lemma for_in_app {A S : Type} (xs ys : list A) (body : A -> S -> result S)
    (s : S) :
  for_in (xs ++ ys) body s = (s' <- for_in xs body s ;; for_in ys body s').
Proof.
  revert s. induction xs as [|x xs IH]; intros s; simpl; trivial.
  destruct (body x s); simpl; auto.
Qed.

(** The clusters before the first one of total length 0 get their length
    fractions. *)
Lemma length_fraction_prefix (tot : dict Z Z) (pre : dict Z contig_dict) :
  forall done rest : dict Z contig_dict,
    dict_wf (pre ++ rest) ->
    (forall k, In k (dict_keys (pre ++ rest)) -> dict_get done k = None) ->
    (forall k contigs,
        In (k, contigs) pre ->
        dict_wf contigs /\ total_of contigs <> 0%Z /\
        dict_getitem tot k = Ok (total_of contigs)) ->
    for_in (dict_keys pre) (length_fraction_step tot) (done ++ pre ++ rest)
    = Ok (done ++ dict_map_values with_fractions pre ++ rest).
Proof.
  induction pre as [|[k contigs] pre IH]; intros done rest Hwf Hdone Hpre.
  - reflexivity.
  - cbn [dict_keys map fst for_in]. unfold length_fraction_step at 1.
    cbn [app].
    assert (Hk : dict_get done k = None) by (apply Hdone; now left).
    destruct (Hpre k contigs (or_introl eq_refl)) as (Hc & Hnz & Htot).
    rewrite dict_getitem_middle by assumption. cbn [bind].
    pose proof (@length_fraction_items tot k (total_of contigs) done
                  (pre ++ rest) Hk Htot Hnz contigs [] Hc
                  (fun id _ => eq_refl)) as Hitems.
    cbn [app] in Hitems.
    match goal with
    | |- bind _ ?f = _ =>
        transitivity
          (bind (Ok (done ++ (k, with_fractions contigs) :: pre ++ rest)) f);
        [apply (f_equal (fun m => bind m f)); exact Hitems|]
    end.
    clear Hitems. cbn [bind app].
    change (done ++ (k, with_fractions contigs) :: pre ++ rest)
      with (done ++ [(k, with_fractions contigs)] ++ pre ++ rest).
    rewrite app_assoc. unfold dict_keys in IH. rewrite IH.
    + rewrite <- app_assoc. reflexivity.
    + apply Hwf.
    + intros k' Hin. rewrite dict_get_app, Hdone by now right.
      simpl. destruct Hwf as [Hfresh _]. rewrite dict_get_None in Hfresh.
      specialize (Hfresh k' Hin). simpl in Hfresh.
      now rewrite Z.eqb_sym, Hfresh.
    + intros k' contigs' Hin. apply Hpre. now right.
Qed.

(** The first contig of a cluster of total length 0 raises. *)
Lemma length_fraction_zero (tot : dict Z Z) (k : Z) (A B : dict Z contig_dict)
    (contigs : contig_dict) :
  dict_get A k = None -> contigs <> [] -> dict_getitem tot k = Ok 0%Z ->
  length_fraction_step tot k (A ++ (k, contigs) :: B)
  = Raise ZeroDivisionError.
Proof.
  intros HA Hne Htot. unfold length_fraction_step.
  rewrite dict_getitem_middle by assumption. cbn [bind].
  destruct contigs as [|[id info] contigs]; [congruence|].
  cbn [dict_keys map fst for_in]. unfold length_fraction_contig at 1.
  rewrite dict_getitem_middle by assumption. cbn [bind].
  unfold dict_getitem at 1. cbn [dict_get key_eqb string_key].
  rewrite String.eqb_refl. cbn [bind]. rewrite Htot. reflexivity.
Qed.

Lemma split_first {A : Type} (p : A -> bool) (l : list A) :
  (exists x, In x l /\ p x = true) ->
  exists pre x post,
    l = pre ++ x :: post /\ p x = true /\ forall y, In y pre -> p y = false.
Proof.
  induction l as [|a l IH]; intros (x & Hin & Hp); [contradiction|].
  destruct (p a) eqn:Ea.
  - exists [], a, l. repeat split; trivial. intros y [].
  - destruct IH as (pre & x' & post & -> & Hx' & Hpre).
    + destruct Hin as [<-|Hin]; [congruence | eauto].
    + exists (a :: pre), x', post. repeat split; trivial.
      intros y [<-|Hy]; auto.
Qed.

Lemma length_fraction_loop_zero (cci : dict Z contig_dict) :
  dict_wf cci -> inner_wf cci ->
  (forall k contigs, In (k, contigs) cci -> contigs <> []) ->
  (exists k contigs, In (k, contigs) cci /\ total_of contigs = 0%Z) ->
  for_in (dict_keys cci) (length_fraction_step (dict_map_values total_of cci))
    cci
  = Raise ZeroDivisionError.
Proof.
  intros Hwf Hin Hne (k0 & contigs0 & Hin0 & Hzero0).
  remember (dict_map_values total_of cci) as tot eqn:Etot.
  assert (Htot : forall k contigs,
             In (k, contigs) cci -> dict_getitem tot k = Ok (total_of contigs)).
  { intros k contigs Hi. unfold dict_getitem.
    now rewrite Etot, dict_get_map_values, (dict_get_In _ _ _ Hwf Hi). }
  clear Etot.
  destruct (@split_first _ (fun kc => Z.eqb (total_of (snd kc)) 0) cci)
    as (pre & [k contigs] & post & Hsplit & Hz & Hpre).
  { exists (k0, contigs0). split; trivial. simpl. now apply Z.eqb_eq. }
  simpl in Hz. apply Z.eqb_eq in Hz. subst cci.
  unfold dict_keys. rewrite map_app. cbn [map fst].
  rewrite for_in_app.
  assert (Hprefix :
            for_in (dict_keys pre) (length_fraction_step tot)
              ([] ++ pre ++ (k, contigs) :: post)
            = Ok ([] ++ dict_map_values with_fractions pre
                     ++ (k, contigs) :: post)).
  { apply length_fraction_prefix; trivial.
    intros k' contigs' Hi.
    assert (Hi' : In (k', contigs') (pre ++ (k, contigs) :: post))
      by (apply in_or_app; now left).
    split; [eauto|]. split; [|auto].
    specialize (Hpre _ Hi). simpl in Hpre. now apply Z.eqb_neq in Hpre. }
  cbn [app] in Hprefix.
  match goal with
  | |- bind _ ?f = _ =>
      transitivity
        (bind (Ok (dict_map_values with_fractions pre ++ (k, contigs) :: post))
              f);
      [apply (f_equal (fun m => bind m f)); exact Hprefix|]
  end.
  cbn [bind app for_in].
  rewrite length_fraction_zero; trivial.
  - rewrite dict_get_map_values.
    rewrite (dict_wf_app_get pre ((k, contigs) :: post)); trivial.
    now left.
  - apply (Hne k). apply in_or_app. right. now left.
  - rewrite <- Hz. apply Htot. apply in_or_app. right. now left.
Qed.

Lemma cluster_contig_info_entries (t : table) (k : Z) (contigs : contig_dict) :
  In (k, contigs) (cluster_contig_info t) ->
  In k (labels t) /\ contigs_of t k contigs.
Proof.
  destruct (cluster_contig_info_ok t) as (Hwf & Hkeys & Hc).
  intros Hi. pose proof (dict_get_In _ _ _ Hwf Hi) as Hg.
  split; [|eauto].
  destruct (in_dec Z.eq_dec k (labels t)) as [|Hn]; trivial.
  apply Hkeys in Hn. congruence.
Qed.

Lemma contigs_of_nonempty (t : table) (c : Z) (contigs : contig_dict) :
  In c (labels t) -> contigs_of t c contigs -> contigs <> [].
Proof.
  intros Hc Hco E. apply contigs_of_perm in Hco. subst contigs.
  apply Permutation_nil in Hco. apply map_eq_nil in Hco.
  now apply (@cluster_contigs_nonempty t c Hc).
Qed.

(** X4. [getClusterSummaryInfo] raises ZeroDivisionError when the contig
    lengths of some cluster sum to 0, and returns a summary when no cluster
    has total length 0. *)
Theorem getClusterSummaryInfo_zero_total (t : table) :
  ((exists c, In c (labels t) /\ Zsum (cluster_lengths t c) = 0%Z) ->
   getClusterSummaryInfo t = Raise ZeroDivisionError) /\
  ((forall c, In c (labels t) -> Zsum (cluster_lengths t c) <> 0%Z) ->
   exists out, getClusterSummaryInfo t = Ok out).
Proof.
  split.
  - intros (c & Hc & Hzero).
    destruct (cluster_contig_info_ok t) as (Hwf & Hkeys & Hcontigs).
    assert (Hinner : inner_wf (cluster_contig_info t)).
    { intros k contigs Hi. apply (cluster_contig_info_entries _ _ _ Hi). }
    unfold getClusterSummaryInfo.
    rewrite cluster_lengths_loop by assumption. cbn [bind].
    rewrite cluster_n50_loop by assumption. cbn [bind].
    rewrite length_fraction_loop_zero; trivial.
    + intros k contigs Hi.
      destruct (cluster_contig_info_entries _ _ _ Hi) as [Hk Hco].
      now apply (contigs_of_nonempty Hk).
    + destruct (dict_get (cluster_contig_info t) c) as [contigs|] eqn:Eg.
      * exists c, contigs. split.
        -- apply dict_get_Some_In in Eg as (k' & E & Hi).
           apply key_eqb_eq in E. now subst k'.
        -- now rewrite (contigs_of_total (Hcontigs _ _ Eg)).
      * apply Hkeys in Eg. contradiction.
  - intros Hnz.
    destruct (@getClusterSummaryInfo_clusters t Hnz) as (out & E & _).
    eauto.
Qed.

Lemma getClusterSummaryInfo_zero_total_witness :
  getClusterSummaryInfo [ex_row "a" 500 1; ex_row "z" 0 2] = Raise ZeroDivisionError /\
  getClusterSummaryInfo [ex_row "a" 500 1; ex_row "p" 7 2; ex_row "m" (-7) 2]
  = Raise ZeroDivisionError /\
  exists out, getClusterSummaryInfo ex_summary_table = Ok out.
Proof.
  split; [|split].
  - apply (getClusterSummaryInfo_zero_total [ex_row "a" 500 1; ex_row "z" 0 2]).
    exists 2%Z. split; [simpl; tauto | reflexivity].
  - apply (getClusterSummaryInfo_zero_total
             [ex_row "a" 500 1; ex_row "p" 7 2; ex_row "m" (-7) 2]).
    exists 2%Z. split; [simpl; tauto | reflexivity].
  - apply (getClusterSummaryInfo_zero_total ex_summary_table).
    apply lengths_positive_totals. exact ex_summary_table_positive.
Defined.

Lemma Zsum_ge_length (l : list Z) :
  Forall (fun x => (0 < x)%Z) l -> (Z.of_nat (List.length l) <= Zsum l)%Z.
Proof.
  induction 1 as [|x l Hx Hl IH]; simpl; [lia|].
  cbn [Zsum fold_right] in *. lia.
Qed.

(** X5. For a table of positive contig lengths, every cluster's summary
    satisfies N50 <= longest_contig <= size, its N50 is positive, and it has
    at least one contig and at most as many contigs as its size and as the
    rows of the cluster. *)
Theorem summary_bounds (t : table) (c : Z) :
  lengths_positive t ->
  In c (labels t) ->
  exists out s n,
    getClusterSummaryInfo t = Ok out /\
    dict_get out c = Some s /\
    n50 s = Some n /\
    (0 < n <= longest_contig s)%Z /\
    (longest_contig s <= size s)%Z /\
    (1 <= number_contigs s <= size s)%Z /\
    (number_contigs s <= Z.of_nat (List.length (cluster_rows t c)))%Z.
Proof.
  intros Hpos Hc.
  destruct (@getClusterSummaryInfo_clusters t
              (@lengths_positive_totals t Hpos))
    as (out & Eout & Hout).
  destruct (Hout c Hc) as (contigs & Hco & Hs).
  pose proof (@cluster_lengths_positive t c Hpos) as Hall.
  pose proof (@cluster_lengths_nonempty t c Hc) as Hne.
  destruct (@n50_scan_sorted (cluster_lengths t c)) as (n & Hn & _ & Hcov);
    trivial.
  { now apply positive_nonneg. }
  assert (Hmax : is_maximum (cluster_lengths t c)
                   (hd 0%Z (sort_descending (cluster_lengths t c)))).
  { apply (is_maximum_perm (sort_descending_perm _)).
    apply descending_hd_max; [apply sort_descending_sorted|].
    intros E. apply Hne.
    pose proof (sort_descending_perm (cluster_lengths t c)) as Hp.
    rewrite E in Hp. now apply Permutation_nil in Hp. }
  exists out, (summarize contigs), n. split; trivial. split; trivial.
  cbn [size number_contigs longest_contig n50 summarize].
  rewrite (contigs_of_count Hco).
  rewrite (contigs_of_n50 Hco), (contigs_of_total Hco), (contigs_of_sorted Hco).
  split; trivial.
  destruct Hcov as (Hnin & _). destruct Hmax as [Hmin Hmax].
  rewrite Forall_forall in Hall.
  assert (Hcount : List.length (cluster_contig_ids t c)
                   = List.length (cluster_lengths t c)).
  { rewrite <- cluster_contigs_ids. unfold cluster_lengths.
    now rewrite !length_map. }
  split; [split; [now apply Hall | now apply Hmax]|].
  split; [|split; [split|]].
  - apply Zsum_ge_In; trivial. apply positive_nonneg.
    now apply Forall_forall.
  - rewrite Hcount. destruct (cluster_lengths t c); [congruence | simpl; lia].
  - rewrite Hcount. apply Zsum_ge_length. now apply Forall_forall.
  - apply inj_le. unfold cluster_contig_ids.
    assert (H : (List.length
                   (nodup string_dec (map TableRow.contig (cluster_rows t c)))
                 <= List.length (map TableRow.contig (cluster_rows t c)))%nat).
    { apply NoDup_incl_length; [apply NoDup_nodup|].
      intros id Hid. now apply nodup_In in Hid. }
    now rewrite length_map in H.
Qed.

Lemma summary_bounds_witness :
  exists out s n,
    getClusterSummaryInfo ex_summary_table = Ok out /\
    dict_get out 1%Z = Some s /\
    n50 s = Some n /\
    (0 < n <= longest_contig s)%Z /\
    (longest_contig s <= size s)%Z.
Proof.
  destruct (@summary_bounds ex_summary_table 1%Z)
    as (out & s & n & Eout & Es & En & Hn & Hl & _).
  - exact ex_summary_table_positive.
  - simpl. tauto.
  - exists out, s, n. auto.
Defined.

(** The rows of a cluster repeat no contig identifier when the table
    repeats none. *)
Lemma cluster_rows_contigs_NoDup (t : table) (c : Z) :
  NoDup (map TableRow.contig t) ->
  NoDup (map TableRow.contig (cluster_rows t c)).
Proof.
  unfold cluster_rows. induction t as [|r t IH]; simpl; trivial.
  intros Hnd. inversion Hnd as [|? ? Hr Ht]; subst.
  destruct (Z.eqb (TableRow.db_cluster r) c); simpl; [|auto].
  constructor; [|auto].
  intros Hin. apply Hr. apply in_map_iff in Hin as (r' & E & Hr').
  apply filter_In in Hr' as [Hr' _]. rewrite <- E. now apply in_map.
Qed.

Lemma NoDup_map_inj {A B : Type} (f : A -> B) (l : list A) (x y : A) :
  NoDup (map f l) -> In x l -> In y l -> f x = f y -> x = y.
Proof.
  induction l as [|a l IH]; simpl; [intros _ []|].
  intros Hnd Hx Hy E. inversion Hnd as [|? ? Ha Hl]; subst.
  destruct Hx as [<-|Hx], Hy as [<-|Hy]; trivial.
  - exfalso. apply Ha. rewrite E. now apply in_map.
  - exfalso. apply Ha. rewrite <- E. now apply in_map.
  - auto.
Qed.

(** When no contig identifier is repeated, the contigs of a cluster are its
    rows. *)
Lemma cluster_contigs_unique (t : table) (c : Z) :
  NoDup (map TableRow.contig t) -> cluster_contigs t c = cluster_rows t c.
Proof.
  intros Hnd.
  assert (Hrows : NoDup (map TableRow.contig (cluster_rows t c)))
    by now apply cluster_rows_contigs_NoDup.
  unfold cluster_contigs, cluster_contig_ids.
  rewrite nodup_fixed_point by assumption.
  assert (Hlast : forall r, In r (cluster_rows t c) ->
                            last_row (cluster_rows t c) (TableRow.contig r)
                            = Some r).
  { intros r Hr.
    destruct (@last_row_In (cluster_rows t c) (TableRow.contig r))
      as [r' Hr']; [now apply in_map|].
    rewrite Hr'. f_equal. destruct (last_row_Some _ _ Hr') as [Hin E].
    now apply (NoDup_map_inj TableRow.contig (cluster_rows t c)). }
  assert (Hgen : forall l,
             (forall r, In r l ->
                        last_row (cluster_rows t c) (TableRow.contig r)
                        = Some r) ->
             flat_map
               (fun id =>
                  match last_row (cluster_rows t c) id with
                  | Some r => [r]
                  | None => []
                  end) (map TableRow.contig l) = l).
  { induction l as [|r l IH]; intros Hl; simpl; trivial.
    rewrite (Hl r) by now left. simpl. f_equal.
    apply IH. intros r' Hr'. apply Hl. now right. }
  now apply Hgen.
Qed.

(** X6. For a table of positive contig lengths in which no contig
    identifier is repeated, a cluster's number_contigs is the number of its
    rows and its size is the sum of the lengths of its rows. *)
Theorem summary_of_unique_contigs (t : table) (c : Z) :
  lengths_positive t ->
  NoDup (map TableRow.contig t) ->
  In c (labels t) ->
  exists out s,
    getClusterSummaryInfo t = Ok out /\
    dict_get out c = Some s /\
    number_contigs s = Z.of_nat (List.length (cluster_rows t c)) /\
    size s = Zsum (map TableRow.length (cluster_rows t c)).
Proof.
  intros Hpos Hnd Hc.
  destruct (@getClusterSummaryInfo_clusters t
              (@lengths_positive_totals t Hpos))
    as (out & Eout & Hout).
  destruct (Hout c Hc) as (contigs & Hco & Hs).
  exists out, (summarize contigs). split; trivial. split; trivial.
  cbn [size number_contigs summarize].
  rewrite (contigs_of_total Hco), (contigs_of_count Hco).
  rewrite <- cluster_contigs_ids. unfold cluster_lengths.
  rewrite (@cluster_contigs_unique t c Hnd). now rewrite length_map.
Qed.

Lemma summary_of_unique_contigs_witness :
  exists out s,
    getClusterSummaryInfo ex_table = Ok out /\
    dict_get out 1%Z = Some s /\
    number_contigs s = 2%Z /\
    size s = 800%Z.
Proof.
  destruct (@summary_of_unique_contigs ex_table 1%Z)
    as (out & s & Eout & Es & Hn & Hsize).
  - intros r Hr. simpl in Hr.
    repeat (destruct Hr as [<-|Hr]; [reflexivity|]). contradiction.
  - simpl. repeat constructor; simpl; intuition discriminate.
  - simpl. tauto.
  - exists out, s. auto.
Defined.

(** ** Further properties of the sweep, the selection and the partition *)

Lemma relabel_combine (t : table) (relabel : row -> Z) (labs : list Z) :
  map (fun rc => with_cluster (fst rc) (snd rc))
      (combine (map (fun r => with_cluster r (relabel r)) t) labs)
  = map (fun rc => with_cluster (fst rc) (snd rc)) (combine t labs).
Proof.
  revert labs. induction t as [|r t IH]; intros [|c labs]; simpl; trivial.
  f_equal. apply IH.
Qed.

Lemma combine_columns (t : table) (labs : list Z) :
  List.length labs = List.length t ->
  map unlabelled (map (fun rc => with_cluster (fst rc) (snd rc))
                      (combine t labs)) = map unlabelled t /\
  labels (map (fun rc => with_cluster (fst rc) (snd rc)) (combine t labs))
  = labs.
Proof.
  revert labs. induction t as [|r t IH]; intros [|c labs] Hlen;
    try discriminate; simpl; [split; reflexivity|].
  injection Hlen as Hlen. destruct (IH labs Hlen) as [Hrows Hlabs].
  split; f_equal; assumption.
Qed.

(** X7. [dbscan_simple] hands the primitive the coordinates only and
    replaces the [db_cluster] column: the result does not depend on the
    labels the input table carries, and when the primitive returns one
    label per point the output has the rows of the input in the same order,
    with these labels and all other columns unchanged. *)
Theorem dbscan_simple_columns (dbscan : list (Q * Q) -> Q -> Z -> list Z)
    (t : table) (eps : Q) :
  (forall relabel : row -> Z,
      dbscan_simple dbscan (map (fun r => with_cluster r (relabel r)) t) eps
      = dbscan_simple dbscan t eps) /\
  (List.length (dbscan (coordinates t) eps 3%Z) = List.length t ->
   map unlabelled (dbscan_simple dbscan t eps) = map unlabelled t /\
   labels (dbscan_simple dbscan t eps) = dbscan (coordinates t) eps 3%Z).
Proof.
  split.
  - intros relabel. unfold dbscan_simple. rewrite map_map. cbn [with_cluster
      TableRow.vizbin_x TableRow.vizbin_y]. apply relabel_combine.
  - intros Hlen. unfold dbscan_simple. fold (coordinates t).
    now apply combine_columns.
Qed.

Lemma dbscan_simple_columns_witness :
  map unlabelled (dbscan_simple ex_dbscan ex_vizbin (3 # 10)) = map unlabelled ex_vizbin /\
  labels (dbscan_simple ex_dbscan ex_vizbin (3 # 10)) = [0%Z; 1%Z; 1%Z].
Proof.
  destruct (dbscan_simple_columns ex_dbscan ex_vizbin (3 # 10)) as [_ H].
  destruct H as [Hrows Hlabels]; [reflexivity|].
  split; [exact Hrows | exact Hlabels].
Defined.

Lemma dbscan_simple_rows (dbscan : list (Q * Q) -> Q -> Z -> list Z)
    (t : table) (eps : Q) (r : row) :
  In r (dbscan_simple dbscan t eps) ->
  exists r0 c, In r0 t /\ r = with_cluster r0 c.
Proof.
  unfold dbscan_simple. intros Hin.
  apply in_map_iff in Hin as ([r0 c] & <- & Hin).
  apply in_combine_l in Hin. exists r0, c. auto.
Qed.

Lemma sweep_loop_runs (dbscan : list (Q * Q) -> Q -> Z -> list Z)
    (vizbin_r : table) :
  (forall k, (1 < countClusters (table_at dbscan vizbin_r k))%nat) ->
  forall (fuel k : nat) (st : sweep_state),
    current_eps st = radius k ->
    more_than_one (number_of_clusters st) = true ->
    sweep_loop dbscan fuel vizbin_r st = None.
Proof.
  intros Hall. induction fuel as [|fuel IH]; intros k st Heps Hmore; simpl;
    trivial.
  rewrite Hmore. apply (IH (S k)).
  - unfold sweep_body. cbn [current_eps]. now rewrite Heps.
  - unfold sweep_body. cbn [number_of_clusters more_than_one]. rewrite Heps.
    apply Nat.ltb_lt. apply Hall.
Qed.

(** X8. The sweep has no bound on the radius: when the assignment of every
    radius 0.3, 0.4, ... has more than one distinct label, the loop never
    ends, whatever the number of iterations allowed. *)
Theorem sweep_unbounded (dbscan : list (Q * Q) -> Q -> Z -> list Z)
    (vizbin_r : table) :
  (forall k,
      (1 < countClusters (dbscan_simple dbscan vizbin_r (radius k)))%nat) ->
  forall fuel, sweep dbscan fuel vizbin_r = None.
Proof.
  intros Hall fuel. unfold sweep.
  now rewrite (@sweep_loop_runs dbscan vizbin_r Hall fuel 0%nat sweep_init).
Qed.

Lemma sweep_unbounded_witness :
  sweep ex_dbscan_apart 1000 ex_vizbin = None.
Proof.
  apply (@sweep_unbounded ex_dbscan_apart ex_vizbin).
  intros k. apply Nat.ltb_lt. reflexivity.
Defined.

Lemma info_of_length (hmm : hmm_dict) (life_domain : string) (t : table) :
  hmm_wf hmm ->
  List.length (info_of hmm life_domain t) = countClusters t.
Proof.
  intros Hhmm. rewrite countClusters_distinct.
  rewrite <- (length_map fst (info_of hmm life_domain t)).
  change (map fst (info_of hmm life_domain t))
    with (dict_keys (info_of hmm life_domain t)).
  rewrite (@info_of_keys hmm life_domain t Hhmm).
  apply Permutation_length, NoDup_Permutation.
  - apply first_seen_NoDup.
  - apply NoDup_nodup.
  - intros c. unfold distinct_labels. rewrite nodup_In.
    apply first_seen_In.
Qed.

(** What [select_eps] returns for a non-empty dict of assignments. *)
Lemma select_eps_ok (tables : dict Q table) (hmm : hmm_dict)
    (life_domain : string) (cc pc : Z) :
  hmm_wf hmm ->
  dict_wf tables ->
  tables <> [] ->
  exists sel,
    select_eps tables hmm life_domain cc pc = Ok sel /\
    cluster_info sel = dict_map_values (info_of hmm life_domain) tables /\
    number_complete_and_pure_clusters sel
    = dict_map_values (complete_and_pure_count cc pc) (cluster_info sel) /\
    number_pure_clusters sel
    = dict_map_values (pure_count pc) (cluster_info sel) /\
    In (best_eps_value sel) (dict_keys tables).
Proof.
  intros Hhmm Hwf Hne.
  set (ci := dict_map_values (info_of hmm life_domain) tables).
  set (ncp := dict_map_values (complete_and_pure_count cc pc) ci).
  assert (Hci : dict_wf ci) by now apply dict_map_values_wf.
  assert (Hncp : dict_wf ncp) by now apply dict_map_values_wf.
  destruct (@sort_by_count_desc_hd ncp)
    as (x & pre & post & Hhd & Hl & Hpre & Hpost).
  { intros E. apply Hne. apply (f_equal (@List.length _)) in E.
    unfold ncp, ci, dict_map_values in E. rewrite !length_map in E.
    now destruct tables. }
  exists (mk_selection ci ncp (dict_map_values (pure_count pc) ci) (fst x)).
  cbn [cluster_info number_complete_and_pure_clusters number_pure_clusters
       best_eps_value].
  split; [|split; [|split; [|split]]]; trivial.
  - unfold select_eps. rewrite cluster_info_loop by assumption. cbn [bind].
    fold ci. rewrite count_loop; trivial.
    + cbn [bind]. fold ncp. rewrite sorted_eps_ok by assumption. cbn [bind].
      destruct (sort_by_count_desc ncp) as [|x' rest]; [discriminate|].
      injection Hhd as ->. reflexivity.
    + intros eps info Hin. unfold ci in Hin.
      apply in_map_iff in Hin as ([eps' t] & [= <- <-] & _).
      apply getClusterInfo_info_of, Hhmm.
  - assert (Hx : In (fst x) (dict_keys ncp)).
    { unfold dict_keys. apply in_map. rewrite Hl. apply in_or_app.
      right. now left. }
    unfold ncp, ci in Hx. now rewrite !dict_keys_map_values in Hx.
Qed.

Lemma filter_length_impl {A : Type} (p q : A -> bool) (l : list A) :
  (forall x, p x = true -> q x = true) ->
  (List.length (filter p l) <= List.length (filter q l))%nat.
Proof.
  intros Himpl. induction l as [|x l IH]; simpl; trivial.
  destruct (p x) eqn:Ep.
  - rewrite (Himpl x Ep). simpl. lia.
  - destruct (q x); simpl; lia.
Qed.

(** X9. [select_eps] raises IndexError on an empty collection of
    assignments.  On a non-empty one it returns, selects one of the radii,
    and records for every radius, in the order of the collection, a number
    of complete and pure clusters between 0 and the number of pure clusters,
    which is at most the number of distinct labels of the assignment. *)
Theorem select_eps_counts (tables : dict Q table) (hmm : hmm_dict)
    (life_domain : string) (completeness_cutoff purity_cutoff : Z) :
  hmm_wf hmm ->
  dict_wf tables ->
  (tables = [] ->
   select_eps tables hmm life_domain completeness_cutoff purity_cutoff
   = Raise IndexError) /\
  (tables <> [] ->
   exists sel,
     select_eps tables hmm life_domain completeness_cutoff purity_cutoff
     = Ok sel /\
     In (best_eps_value sel) (dict_keys tables) /\
     dict_keys (cluster_info sel) = dict_keys tables /\
     dict_keys (number_complete_and_pure_clusters sel) = dict_keys tables /\
     dict_keys (number_pure_clusters sel) = dict_keys tables /\
     forall eps t,
       In (eps, t) tables ->
       exists a b,
         dict_get (number_complete_and_pure_clusters sel) eps = Some a /\
         dict_get (number_pure_clusters sel) eps = Some b /\
         (0 <= a <= b)%Z /\ (b <= Z.of_nat (countClusters t))%Z).
Proof.
  intros Hhmm Hwf. split; [intros ->; reflexivity|]. intros Hne.
  destruct (@select_eps_ok tables hmm life_domain completeness_cutoff
              purity_cutoff Hhmm Hwf Hne)
    as (sel & Esel & Hci & Hncp & Hnp & Hbest).
  exists sel. split; trivial. split; trivial.
  rewrite Hncp, Hnp, Hci, !dict_keys_map_values.
  split; trivial. split; trivial. split; trivial.
  intros eps t Hin. rewrite !dict_get_map_values.
  rewrite (dict_get_In _ _ _ Hwf Hin). cbn [option_map].
  eexists. eexists. split; [reflexivity|]. split; [reflexivity|].
  unfold complete_and_pure_count, pure_count. split; [split|].
  - lia.
  - apply inj_le. apply filter_length_impl. intros [c q] Hq.
    unfold is_complete_and_pure in Hq. cbn [snd] in *.
    now apply andb_true_iff in Hq as [_ Hq].
  - apply inj_le. rewrite <- (@info_of_length hmm life_domain t Hhmm).
    apply filter_length_le.
Qed.

Lemma select_eps_counts_witness :
  select_eps [] ex_hmm "bacteria" 0 0 = Raise IndexError /\
  exists sel,
    select_eps (assignments ex_dbscan ex_vizbin 3) ex_hmm "bacteria" 0 0
    = Ok sel /\
    dict_keys (number_pure_clusters sel)
    = dict_keys (assignments ex_dbscan ex_vizbin 3).
Proof.
  split.
  - apply (@select_eps_counts [] ex_hmm "bacteria" 0%Z 0%Z ex_hmm_wf I).
    reflexivity.
  - destruct (@select_eps_counts (assignments ex_dbscan ex_vizbin 3) ex_hmm
                "bacteria" 0%Z 0%Z ex_hmm_wf) as [_ Hok].
    + apply sorted_keys_wf. rewrite assignments_keys. apply radii_sorted.
    + destruct Hok as (sel & Esel & _ & _ & _ & Hnp & _); [discriminate|].
      exists sel. split; [exact Esel | exact Hnp].
Defined.

(** What [partition_table] returns, for any dict of cluster qualities. *)
Lemma partition_table_ok (t : table) (info : dict Z quality) (cc pc : Z) :
  exists p,
    partition_table t info cc pc = Ok p /\
    (forall c, dict_mem (complete_and_pure_clusters p) c
               = dict_mem info c && class_of info cc pc c) /\
    (forall c, dict_mem (other_clusters p) c
               = dict_mem info c && negb (class_of info cc pc c)) /\
    nonclustered_table p
    = filter (fun r => negb (dict_mem (complete_and_pure_clusters p)
                               (TableRow.db_cluster r))) t /\
    clustered_table p
    = filter (fun r => negb (dict_mem (other_clusters p)
                               (TableRow.db_cluster r))) t.
Proof.
  destruct (@classify_loop info cc pc (dict_keys info))
    with (cp := @nil (Z * Z)) (other := @nil (Z * Z))
    as (cp & other & Eclass & Hcp & Hother).
  { intros k Hk. apply dict_mem_In in Hk. apply dict_mem_true in Hk as [v Hv].
    congruence. }
  exists (mk_partition cp other
            (fst (subset_tables t cp other)) (snd (subset_tables t cp other))).
  split.
  { assert (Eclass' : classify_clusters info cc pc = Ok (cp, other))
      by exact Eclass.
    unfold partition_table. rewrite Eclass'. cbn [bind].
    now destruct (subset_tables t cp other). }
  cbn [complete_and_pure_clusters other_clusters clustered_table
       nonclustered_table subset_tables fst snd].
  split; [|split; [|split]].
  - intros c. rewrite Hcp, dict_mem_existsb. reflexivity.
  - intros c. rewrite Hother, dict_mem_existsb. reflexivity.
  - rewrite drop_clusters_filter. apply filter_ext. intros r.
    now rewrite dict_mem_existsb.
  - rewrite drop_clusters_filter. apply filter_ext. intros r.
    now rewrite dict_mem_existsb.
Qed.

Lemma Qgt_bool_inject_mono (x : Q) (a b : Z) :
  (a <= b)%Z -> Qgt_bool x (inject_Z b) = true -> Qgt_bool x (inject_Z a) = true.
Proof.
  unfold Qgt_bool. rewrite !negb_true_iff, <- !not_true_iff_false.
  rewrite !Qle_bool_iff. intros Hab Hb Ha. apply Hb.
  eapply Qle_trans; [exact Ha|]. now rewrite <- Zle_Qle.
Qed.

Lemma class_of_mono (info : dict Z quality) (cc pc cc' pc' : Z) (c : Z) :
  (cc <= cc')%Z -> (pc <= pc')%Z ->
  class_of info cc' pc' c = true -> class_of info cc pc c = true.
Proof.
  intros Hcc Hpc. unfold class_of.
  destruct (dict_get info c) as [q|]; trivial.
  unfold is_complete_and_pure. rewrite !andb_true_iff. intros [H1 H2].
  split; eapply Qgt_bool_inject_mono; eauto.
Qed.

(** X10. Raising a cutoff never promotes a cluster: with cutoffs at least
    as large, the complete and pure clusters are among the former ones, the
    rows of the clustered table are among the former ones, and every row
    that was in the nonclustered table still is. *)
Theorem partition_monotone (t : table) (info : dict Z quality)
    (cc pc cc' pc' : Z) :
  (cc <= cc')%Z -> (pc <= pc')%Z ->
  exists p p',
    partition_table t info cc pc = Ok p /\
    partition_table t info cc' pc' = Ok p' /\
    (forall c, dict_mem (complete_and_pure_clusters p') c = true ->
               dict_mem (complete_and_pure_clusters p) c = true) /\
    (forall r, In r (clustered_table p') -> In r (clustered_table p)) /\
    (forall r, In r (nonclustered_table p) -> In r (nonclustered_table p')).
Proof.
  intros Hcc Hpc.
  destruct (partition_table_ok t info cc pc)
    as (p & Ep & Hcp & Hother & Hnon & Hclu).
  destruct (partition_table_ok t info cc' pc')
    as (p' & Ep' & Hcp' & Hother' & Hnon' & Hclu').
  exists p, p'. split; trivial. split; trivial.
  assert (Hmono : forall c, dict_mem (complete_and_pure_clusters p') c = true ->
                            dict_mem (complete_and_pure_clusters p) c = true).
  { intros c. rewrite Hcp, Hcp', !andb_true_iff. intros [Hm Hc].
    split; trivial. eapply class_of_mono; eauto. }
  split; trivial. split.
  - intros r. rewrite Hclu, Hclu', !filter_In, !negb_true_iff.
    intros [Hin Ho]. split; trivial.
    rewrite Hother in *. rewrite Hother' in Ho.
    destruct (dict_mem info (TableRow.db_cluster r)); trivial.
    simpl in *. apply negb_false_iff in Ho. apply negb_false_iff.
    eapply class_of_mono; eauto.
  - intros r. rewrite Hnon, Hnon', !filter_In, !negb_true_iff.
    intros [Hin Hc]. split; trivial.
    destruct (dict_mem (complete_and_pure_clusters p') (TableRow.db_cluster r))
      eqn:E; trivial.
    apply Hmono in E. congruence.
Qed.

Lemma partition_monotone_witness :
  exists p p',
    partition_table ex_table (info_of ex_hmm "bacteria" ex_table) 0 0 = Ok p /\
    partition_table ex_table (info_of ex_hmm "bacteria" ex_table) 1 0 = Ok p' /\
    (forall r, In r (clustered_table p') -> In r (clustered_table p)).
Proof.
  destruct (@partition_monotone ex_table (info_of ex_hmm "bacteria" ex_table)
              0%Z 0%Z 1%Z 0%Z) as (p & p' & Ep & Ep' & _ & Hclu & _).
  - lia.
  - lia.
  - exists p, p'. auto.
Defined.

(** ** Further properties of the FASTA output *)

Lemma find_snoc {A : Type} (p : A -> bool) (l : list A) (x : A) :
  find p (l ++ [x]) =
  match find p l with
  | Some y => Some y
  | None => if p x then Some x else None
  end.
Proof.
  induction l as [|a l IH]; simpl; trivial. now destruct (p a).
Qed.

Lemma parse_assembly_fold (records : list seq_record)
    (d : dict string seq_record) (id : string) :
  dict_get (fold_left (fun assembly_seqs r =>
                         dict_set assembly_seqs (SeqRecord.id r) r)
                      records d) id
  = match last_record records id with
    | Some r => Some r
    | None => dict_get d id
    end.
Proof.
  revert d. induction records as [|r records IH]; intros d; simpl; trivial.
  rewrite IH. unfold last_record. cbn [rev]. rewrite find_snoc.
  destruct (find (fun r0 => String.eqb (SeqRecord.id r0) id) (rev records));
    trivial.
  rewrite dict_get_set. cbn [key_eqb string_key].
  rewrite (string_eqb_sym id (SeqRecord.id r)).
  now destruct (String.eqb (SeqRecord.id r) id).
Qed.

(** X11. The assembly is keyed by record identifier: the sequence used for
    an identifier is that of the last record of the FASTA file that carries
    it, and an identifier has no sequence exactly when no record carries
    it. *)
Theorem parse_assembly_keeps_last (records : list seq_record) (id : string) :
  dict_get (parse_assembly records) id = last_record records id /\
  (forall r, last_record records id = Some r ->
             In r records /\ SeqRecord.id r = id) /\
  (last_record records id = None <-> ~ In id (map SeqRecord.id records)).
Proof.
  split; [|split].
  - unfold parse_assembly. rewrite parse_assembly_fold.
    now destruct (last_record records id).
  - intros r Hr. unfold last_record in Hr. apply find_some in Hr as [Hin E].
    apply in_rev in Hin. apply String.eqb_eq in E. auto.
  - unfold last_record. split.
    + intros Hnone Hin. apply in_map_iff in Hin as (r & E & Hin).
      apply in_rev in Hin. pose proof (find_none _ _ Hnone r Hin) as Hf.
      simpl in Hf. rewrite E, String.eqb_refl in Hf. discriminate.
    + intros Hn.
      destruct (find (fun r => String.eqb (SeqRecord.id r) id) (rev records))
        as [r|] eqn:Ef; trivial.
      exfalso. apply Hn. apply find_some in Ef as [Hin E].
      apply in_rev in Hin. apply String.eqb_eq in E. rewrite <- E.
      now apply in_map.
Qed.

Lemma init_output_fastas_fold (ks : list Z) :
  NoDup ks ->
  forall out : fasta_dict,
    (forall c, In c ks -> dict_get out (Cluster c) = None) ->
    fold_left (fun output_fastas cluster =>
                 dict_set output_fastas (Cluster cluster) [])
              ks out
    = out ++ map (fun c => (Cluster c, [])) ks.
Proof.
  induction 1 as [|c ks Hc Hnd IH]; intros out Hout; simpl.
  - now rewrite app_nil_r.
  - rewrite dict_set_fresh by (apply Hout; now left).
    rewrite IH.
    + now rewrite <- app_assoc.
    + intros c' Hc'. rewrite dict_get_app, Hout by now right.
      simpl. destruct (Z.eqb_spec c' c) as [->|]; [contradiction | trivial].
Qed.

Lemma init_output_fastas_eq (cp : dict Z Z) :
  dict_wf cp ->
  init_output_fastas cp
  = (Unclustered, []) :: map (fun c => (Cluster c, [])) (dict_keys cp).
Proof.
  intros Hwf. unfold init_output_fastas.
  rewrite init_output_fastas_fold; trivial.
  now apply dict_wf_NoDup.
Qed.

Lemma init_output_fastas_wf (cp : dict Z Z) : dict_wf (init_output_fastas cp).
Proof.
  unfold init_output_fastas.
  assert (Hgen : forall ks (out : fasta_dict),
             dict_wf out ->
             dict_wf (fold_left (fun output_fastas cluster =>
                                   dict_set output_fastas (Cluster cluster) [])
                                ks out)).
  { induction ks as [|c ks IH]; intros out Hout; simpl; trivial.
    apply IH. now apply dict_wf_set. }
  apply Hgen. simpl. auto.
Qed.

Section DictPresent.
Context {K V : Type} {HK : PyKey K}.

Lemma dict_keys_set_present (d : dict K V) (k : K) (v old : V) :
  dict_get d k = Some old -> dict_keys (dict_set d k v) = dict_keys d.
Proof.
  induction d as [|[k0 v0] d IH]; simpl; [discriminate|].
  destruct (key_eqb k k0); simpl; trivial.
  intros Hg. f_equal. now apply IH.
Qed.
End DictPresent.

Lemma total_records_set (out : fasta_dict) (k : fasta_key)
    (old : list seq_record) (s : seq_record) :
  dict_get out k = Some old ->
  total_records (dict_set out k (old ++ [s])) = S (total_records out).
Proof.
  unfold total_records, dict_values.
  induction out as [|[k0 v0] out IH]; simpl; [discriminate|].
  change (key_eqb k k0) with (fasta_key_eqb k k0).
  destruct (fasta_key_eqb k k0); simpl.
  - intros [= ->]. rewrite length_app. simpl. lia.
  - intros Hg. rewrite (IH Hg). lia.
Qed.

Lemma append_records_keys (seqs : dict string seq_record) (cp : dict Z Z)
    (rows : table) :
  forall out out' : fasta_dict,
    for_in rows (append_record seqs cp) out = Ok out' ->
    dict_keys out' = dict_keys out /\
    (dict_wf out -> dict_wf out') /\
    total_records out' = (total_records out + List.length rows)%nat.
Proof.
  induction rows as [|r rows IH]; intros out out'.
  - simpl. intros [= <-]. split; [trivial|]. split; [trivial | lia].
  - cbn [for_in]. rewrite append_record_eq. unfold dict_getitem.
    destruct (dict_get seqs (TableRow.contig r)) as [s|]; [|discriminate].
    destruct (dict_get out (fasta_key_of cp r)) as [records|] eqn:Er;
      [|discriminate].
    cbn [bind]. intros E. destruct (IH _ _ E) as (Hkeys & Hwf & Htotal).
    split; [|split].
    + rewrite Hkeys. now apply dict_keys_set_present with (old := records).
    + intros Hout. apply Hwf. now apply dict_wf_set.
    + rewrite Htotal, (@total_records_set out _ records s Er). simpl. lia.
Qed.

Lemma write_fastas_ok (outdir : string) (out : fasta_dict) :
  dict_wf out ->
  write_fastas outdir out
  = Ok (map (fun kv => (fasta_output_path outdir (fst kv), snd kv)) out).
Proof.
  intros Hwf. unfold write_fastas.
  destruct (for_in_dict_inv (d := out)
              (fun cluster written =>
                 records <- dict_getitem out cluster ;;
                 Ok (written ++ [(fasta_output_path outdir cluster, records)]))
              (fun pre written =>
                 written
                 = map (fun kv => (fasta_output_path outdir (fst kv), snd kv))
                       pre)
              []) as (written & E & ->).
  - reflexivity.
  - intros pre k v post written Hd ->.
    rewrite (dict_getitem_In out k v Hwf).
    + cbn [bind]. eexists. split; [reflexivity|]. now rewrite map_app.
    + rewrite Hd. apply in_or_app. right. now left.
  - exact E.
Qed.

Lemma append_assoc (a b c : string) :
  ((a ++ b) ++ c = a ++ (b ++ c))%string.
Proof. induction a as [|x a IH]; simpl; [trivial | now rewrite IH]. Qed.

Lemma append_inv_head (a x y : string) :
  (a ++ x = a ++ y)%string -> x = y.
Proof.
  induction a as [|c a IH]; simpl; trivial. intros [= E]. auto.
Qed.

Lemma append_length (a b : string) :
  String.length (a ++ b) = (String.length a + String.length b)%nat.
Proof. induction a as [|c a IH]; simpl; [trivial | now rewrite IH]. Qed.

Lemma append_inv_tail (s x y : string) :
  (x ++ s = y ++ s)%string -> x = y.
Proof.
  revert y. induction x as [|c x IH]; intros [|c' y] E; simpl in *; trivial.
  - apply (f_equal String.length) in E. simpl in E.
    rewrite append_length in E. lia.
  - apply (f_equal String.length) in E. simpl in E.
    rewrite append_length in E. lia.
  - injection E as -> E. f_equal. auto.
Qed.

Lemma str_of_Z_inj (a b : Z) : str_of_Z a = str_of_Z b -> a = b.
Proof.
  unfold str_of_Z. intros E.
  assert (Hnil : forall z, Z.to_int z <> Decimal.Pos Decimal.Nil
                           /\ Z.to_int z <> Decimal.Neg Decimal.Nil).
  { intros [|p|p]; simpl; split; try discriminate;
      intros [= Hp]; now apply (DecimalPos.Unsigned.to_uint_nonnil p). }
  assert (Ei : Some (Z.to_int a) = Some (Z.to_int b)).
  { rewrite <- (NilZero.isi (Z.to_int a)) by apply Hnil.
    rewrite <- (NilZero.isi (Z.to_int b)) by apply Hnil.
    now rewrite E. }
  injection Ei as Ei.
  rewrite <- (DecimalZ.of_to a), <- (DecimalZ.of_to b). now rewrite Ei.
Qed.

Lemma fasta_output_path_inj (outdir : string) (k1 k2 : fasta_key) :
  fasta_output_path outdir k1 = fasta_output_path outdir k2 -> k1 = k2.
Proof.
  unfold fasta_output_path. intros E.
  destruct k1 as [|c1], k2 as [|c2]; trivial;
    rewrite !append_assoc in E; apply append_inv_head in E;
    try discriminate.
  cbn [String.append] in E. injection E as E.
  apply append_inv_tail in E. apply str_of_Z_inj in E. now subst.
Qed.

Lemma NoDup_map_Cluster (ks : list Z) : NoDup ks -> NoDup (map Cluster ks).
Proof.
  induction 1 as [|c ks Hc Hnd IH]; simpl; constructor; trivial.
  intros Hin. apply in_map_iff in Hin as (c' & [= ->] & Hc'). contradiction.
Qed.

Lemma fasta_output_path_NoDup (outdir : string) (ks : list fasta_key) :
  NoDup ks -> NoDup (map (fasta_output_path outdir) ks).
Proof.
  induction 1 as [|k ks Hk Hnd IH]; simpl; constructor; trivial.
  intros Hin. apply in_map_iff in Hin as (k' & E & Hk').
  apply fasta_output_path_inj in E. now subst k'.
Qed.

(** X12. No two collections are written to the same file: the path of a
    collection determines its key, 'unclustered' or the cluster label, and
    the decimal rendering of a label determines the label. *)
Theorem fasta_output_path_injective (outdir : string) :
  (forall k1 k2 : fasta_key,
      fasta_output_path outdir k1 = fasta_output_path outdir k2 -> k1 = k2) /\
  (forall a b : Z, str_of_Z a = str_of_Z b -> a = b) /\
  (forall ks : list fasta_key,
      NoDup ks -> NoDup (map (fasta_output_path outdir) ks)).
Proof.
  split; [apply fasta_output_path_inj|]. split; [apply str_of_Z_inj|].
  apply fasta_output_path_NoDup.
Qed.

Lemma fasta_output_path_injective_witness :
  NoDup (map (fasta_output_path "out") [Unclustered; Cluster 1; Cluster (-1)]).
Proof.
  destruct (fasta_output_path_injective "out") as (_ & _ & H).
  apply H. repeat constructor; simpl; intuition discriminate.
Defined.

(** X13. With a FASTA file that has a sequence for every contig of the
    selected assignment, the files are written in this order:
    unclustered.fasta, then cluster_<label>.fasta for each complete and pure
    cluster in the order of their classification; the paths are pairwise
    different, each file gets the records collected under its key, and
    together the files hold one record per row of the assignment. *)
Theorem fasta_files_written (records : list seq_record) (cp : dict Z Z)
    (t : table) (outdir : string) :
  dict_wf cp ->
  (forall r, In r t ->
             dict_get (parse_assembly records) (TableRow.contig r) <> None) ->
  exists output_fastas written,
    collect_fastas (Some records) cp t = Ok (Some output_fastas) /\
    write_fastas outdir output_fastas = Ok written /\
    map fst written
    = fasta_output_path outdir Unclustered
      :: map (fun c => fasta_output_path outdir (Cluster c)) (dict_keys cp) /\
    NoDup (map fst written) /\
    map snd written = dict_values output_fastas /\
    total_records output_fastas = List.length t.
Proof.
  intros Hcp Hall.
  destruct (@append_records_ok (parse_assembly records) cp t Hall
              (init_output_fastas cp) (init_output_fastas_ready cp))
    as (out & Eout & _).
  destruct (append_records_keys _ _ _ _ Eout) as (Hkeys & Hwf & Htotal).
  specialize (Hwf (init_output_fastas_wf cp)).
  exists out. eexists. split.
  { unfold collect_fastas. rewrite Eout. reflexivity. }
  split; [now apply write_fastas_ok|].
  assert (Hpaths :
            map fst (map (fun kv => (fasta_output_path outdir (fst kv), snd kv))
                         out)
            = map (fasta_output_path outdir)
                  (Unclustered :: map Cluster (dict_keys cp))).
  { rewrite map_map. cbn [fst].
    change (map (fun kv => fasta_output_path outdir (fst kv)) out)
      with (map (fun kv : fasta_key * list seq_record =>
                   fasta_output_path outdir (fst kv)) out).
    rewrite <- (map_map fst (fasta_output_path outdir)).
    change (map fst out) with (dict_keys out).
    rewrite Hkeys, (@init_output_fastas_eq cp Hcp). unfold dict_keys.
    cbn [map fst]. now rewrite !map_map. }
  split; [|split; [|split]].
  - rewrite Hpaths. cbn [map]. now rewrite map_map.
  - rewrite Hpaths. apply fasta_output_path_NoDup.
    constructor.
    + intros Hin. apply in_map_iff in Hin as (c & E & _). discriminate.
    + apply NoDup_map_Cluster. now apply dict_wf_NoDup.
  - rewrite map_map. reflexivity.
  - rewrite Htotal.
    assert (Hzero : total_records (init_output_fastas cp) = 0%nat).
    { rewrite (@init_output_fastas_eq cp Hcp). unfold total_records, dict_values.
      cbn [map snd List.length list_sum]. rewrite !map_map. cbn [snd List.length].
      cbn [list_sum fold_right Nat.add].
      clear. induction (dict_keys cp) as [|c ks IH]; simpl; trivial. }
    rewrite Hzero. reflexivity.
Qed.

Lemma fasta_files_written_witness :
  exists output_fastas written,
    collect_fastas (Some ex_records) [(1%Z, 1%Z)] ex_table
    = Ok (Some output_fastas) /\
    write_fastas "out" output_fastas = Ok written /\
    map fst written = ["out/unclustered.fasta"; "out/cluster_1.fasta"]%string /\
    total_records output_fastas = 3%nat.
Proof.
  destruct (@fasta_files_written ex_records [(1%Z, 1%Z)] ex_table "out")
    as (output_fastas & written & Ec & Ew & Hpaths & _ & _ & Htotal).
  - simpl. auto.
  - intros r Hr. simpl in Hr.
    repeat (destruct Hr as [<-|Hr]; [discriminate|]). contradiction.
  - exists output_fastas, written. split; trivial. split; trivial.
    split; [exact Hpaths | exact Htotal].
Defined.

(** ** Reading the marker table *)

Lemma split_on_nonempty (sep : ascii) (s : string) : split_on sep s <> [].
Proof.
  destruct s as [|c s]; simpl; [discriminate|].
  destruct (Ascii.eqb c sep); [discriminate|].
  destruct (split_on sep s); discriminate.
Qed.

Lemma split_on_none (sep : ascii) (s : string) :
  has_char sep s = false -> split_on sep s = [s].
Proof.
  unfold has_char. induction s as [|c s IH]; simpl; trivial.
  rewrite (Ascii.eqb_sym sep c). destruct (Ascii.eqb c sep); simpl.
  - discriminate.
  - intros H. now rewrite (IH H).
Qed.

Lemma split_on_some (sep : ascii) (s : string) :
  has_char sep s = true ->
  exists a b rest, split_on sep s = a :: b :: rest.
Proof.
  unfold has_char. induction s as [|c s IH]; simpl; [discriminate|].
  rewrite (Ascii.eqb_sym sep c). destruct (Ascii.eqb c sep); simpl.
  - intros _. destruct (split_on sep s) as [|b rest] eqn:E.
    + now apply split_on_nonempty in E.
    + eauto.
  - intros H. destruct (IH H) as (a & b & rest & ->). eauto.
Qed.

Lemma split_on_app (sep : ascii) (a b : string) :
  has_char sep a = false ->
  split_on sep (a ++ String sep b) = a :: split_on sep b.
Proof.
  unfold has_char. induction a as [|c a IH]; simpl.
  - intros _. now rewrite Ascii.eqb_refl.
  - rewrite (Ascii.eqb_sym sep c). destruct (Ascii.eqb c sep); simpl.
    + discriminate.
    + intros H. now rewrite (IH H).
Qed.

Lemma split_join (sep : ascii) (pieces : list string) :
  pieces <> [] ->
  Forall (fun p => has_char sep p = false) pieces ->
  split_on sep (join sep pieces) = pieces.
Proof.
  induction pieces as [|p pieces IH]; intros Hne Hall; [congruence|].
  inversion Hall as [|? ? Hp Hrest]; subst.
  destruct pieces as [|q pieces].
  - simpl. now apply split_on_none.
  - change (join sep (p :: q :: pieces))
      with (p ++ String sep (join sep (q :: pieces)))%string.
    rewrite split_on_app by assumption. f_equal.
    apply IH; [discriminate | assumption].
Qed.

Lemma has_char_app (c : ascii) (a b : string) :
  has_char c (a ++ b) = has_char c a || has_char c b.
Proof.
  unfold has_char. induction a as [|x a IH]; simpl; trivial.
  rewrite IH. now rewrite orb_assoc.
Qed.

Lemma has_char_join (c sep : ascii) (pieces : list string) :
  Ascii.eqb c sep = false ->
  Forall (fun p => has_char c p = false) pieces ->
  has_char c (join sep pieces) = false.
Proof.
  intros Hsep. induction 1 as [|p pieces Hp Hrest IH]; trivial.
  destruct pieces as [|q pieces]; trivial.
  change (join sep (p :: q :: pieces))
    with (p ++ String sep (join sep (q :: pieces)))%string.
  rewrite has_char_app, Hp. unfold has_char at 1.
  cbn [list_ascii_of_string existsb]. rewrite Hsep. exact IH.
Qed.

Lemma read_hmm_line_no_tab (line : string) :
  has_char tab line = false -> read_hmm_line line = Raise IndexError.
Proof.
  intros H. unfold read_hmm_line. now rewrite (split_on_none _ _ H).
Qed.

Lemma read_hmm_line_tab (line : string) :
  has_char tab line = true -> exists fields, read_hmm_line line = Ok fields.
Proof.
  intros H. unfold read_hmm_line.
  destruct (split_on_some _ _ H) as (a & b & rest & ->).
  cbn [list_item nth_error bind].
  destruct (String.eqb b "NA"); eauto.
Qed.

Lemma parse_hmm_line_wf (hmm : hmm_dict) (line : hmm_line) :
  hmm_wf hmm -> hmm_wf (parse_hmm_line hmm line).
Proof.
  destruct line as [contig [pfamList|]]; unfold parse_hmm_line; simpl; trivial.
  revert hmm. induction pfamList as [|pfam pfamList IH]; intros hmm Hwf;
    simpl; trivial.
  apply IH. now apply add_pfam_wf.
Qed.

Lemma read_lines_ok (lines : list string) :
  forallb (has_char tab) lines = true ->
  forall acc : hmm_dict,
  exists fields,
    Forall2 (fun line f => read_hmm_line line = Ok f) lines fields /\
    for_in lines
      (fun line contig_markers =>
         fields <- read_hmm_line line ;;
         Ok (parse_hmm_line contig_markers fields))
      acc
    = Ok (fold_left parse_hmm_line fields acc).
Proof.
  induction lines as [|line lines IH]; intros Hall acc.
  - exists []. split; [constructor | reflexivity].
  - simpl in Hall. apply andb_true_iff in Hall as [Hline Hall].
    destruct (read_hmm_line_tab _ Hline) as [f Ef].
    destruct (IH Hall (parse_hmm_line acc f)) as (fields & Hfields & E).
    exists (f :: fields). split; [now constructor|].
    cbn [for_in]. rewrite Ef. cbn [bind]. exact E.
Qed.

Lemma read_lines_error (lines : list string) :
  forallb (has_char tab) lines = false ->
  forall acc : hmm_dict,
    for_in lines
      (fun line contig_markers =>
         fields <- read_hmm_line line ;;
         Ok (parse_hmm_line contig_markers fields))
      acc
    = Raise IndexError.
Proof.
  induction lines as [|line lines IH]; intros Hall acc; [discriminate|].
  simpl in Hall. cbn [for_in].
  destruct (has_char tab line) eqn:Hline.
  - destruct (read_hmm_line_tab _ Hline) as [f ->]. cbn [bind].
    now apply IH.
  - now rewrite (read_hmm_line_no_tab _ Hline).
Qed.

(** X14. Reading the marker table skips the first line, whatever it
    holds.  It raises IndexError when one of the other lines has no tab, a
    blank line included; otherwise it returns the profile of the lines'
    fields, which is a dict of dicts. *)
Theorem read_contig_markers_lines (hmm_table_lines : list string) :
  (forall header header' lines,
      read_contig_markers (header :: lines)
      = read_contig_markers (header' :: lines)) /\
  (forallb (has_char tab) (tl hmm_table_lines) = false ->
   read_contig_markers hmm_table_lines = Raise IndexError) /\
  (forallb (has_char tab) (tl hmm_table_lines) = true ->
   exists fields,
     Forall2 (fun line f => read_hmm_line line = Ok f)
             (tl hmm_table_lines) fields /\
     read_contig_markers hmm_table_lines = Ok (parse_hmm_table fields) /\
     hmm_wf (parse_hmm_table fields)).
Proof.
  split; [reflexivity|]. split.
  - intros H. unfold read_contig_markers. now apply read_lines_error.
  - intros H. unfold read_contig_markers.
    destruct (read_lines_ok _ H []) as (fields & Hfields & E).
    exists fields. split; trivial. split; trivial.
    apply parse_hmm_table_wf.
Qed.

Lemma read_contig_markers_lines_witness :
  read_contig_markers ["header"; ""]%string = Raise IndexError /\
  exists fields,
    read_contig_markers ex_hmm_lines = Ok (parse_hmm_table fields) /\
    hmm_wf (parse_hmm_table fields).
Proof.
  split.
  - apply (read_contig_markers_lines ["header"; ""]%string). reflexivity.
  - destruct (read_contig_markers_lines ex_hmm_lines) as (_ & _ & Hok).
    destruct Hok as (fields & _ & E & Hwf); [reflexivity|].
    exists fields. split; [exact E | exact Hwf].
Defined.

(** X15. A line written as the contig, a tab and the comma-separated
    markers is read back as that contig with those markers, provided the
    contig has no tab and the markers have neither tab nor comma; columns
    after a second tab are ignored; the second column 'NA' gives no
    marker list. *)
Theorem read_hmm_line_round_trip (contig : string) (pfamList : list string)
    (more : string) :
  has_char tab contig = false ->
  pfamList <> [] ->
  pfamList <> ["NA"%string] ->
  Forall (fun p => has_char tab p = false) pfamList ->
  Forall (fun p => has_char comma p = false) pfamList ->
  read_hmm_line (contig ++ String tab (join comma pfamList))
  = Ok (contig, Some pfamList) /\
  read_hmm_line (contig ++ String tab (join comma pfamList ++ String tab more))
  = Ok (contig, Some pfamList) /\
  read_hmm_line (contig ++ String tab "NA") = Ok (contig, None).
Proof.
  intros Hcontig Hne Hna Htab Hcomma.
  assert (Hjoin : has_char tab (join comma pfamList) = false)
    by (apply has_char_join; [reflexivity | assumption]).
  assert (Hnot : String.eqb (join comma pfamList) "NA" = false).
  { destruct (String.eqb_spec (join comma pfamList) "NA") as [E|]; trivial.
    exfalso. apply Hna. rewrite <- (@split_join comma pfamList Hne Hcomma), E. reflexivity. }
  unfold read_hmm_line. rewrite !split_on_app by assumption.
  rewrite (split_on_none _ _ Hjoin).
  cbn [list_item nth_error bind]. rewrite Hnot, (@split_join comma pfamList Hne Hcomma).
  split; [reflexivity|]. split; reflexivity.
Qed.

Lemma read_hmm_line_round_trip_witness :
  read_hmm_line ("C1" ++ String tab "PF01,PF02") = Ok ("C1", Some ["PF01"; "PF02"])%string.
Proof.
  apply (@read_hmm_line_round_trip "C1" ["PF01"; "PF02"]%string "").
  - reflexivity.
  - discriminate.
  - discriminate.
  - repeat constructor.
  - repeat constructor.
Defined.

Lemma add_pfam_count (c p : string) (hmm : hmm_dict) (contig pfam : string) :
  marker_count (contig_profile (add_pfam c hmm p) contig) pfam
  = (marker_count (contig_profile hmm contig) pfam
     + if String.eqb c contig && String.eqb p pfam then 1 else 0)%Z.
Proof.
  unfold add_pfam, contig_profile.
  destruct (String.eqb_spec c contig) as [->|Hne].
  - destruct (dict_get hmm contig) as [markers|] eqn:Em.
    + unfold marker_count.
      destruct (dict_get markers p) as [n|] eqn:Ep;
        rewrite dict_get_set_same, dict_get_set; cbn [key_eqb string_key];
        rewrite (string_eqb_sym pfam p);
        destruct (String.eqb_spec p pfam) as [->|Hp]; simpl;
        try rewrite Ep; try lia;
        destruct (dict_get markers pfam); lia.
    + rewrite dict_get_set_same. unfold marker_count. simpl.
      rewrite (string_eqb_sym pfam p).
      destruct (String.eqb p pfam); reflexivity.
  - simpl. rewrite Z.add_0_r.
    assert (E : String.eqb contig c = false).
    { apply String.eqb_neq. congruence. }
    destruct (dict_get hmm c) as [markers|];
      [destruct (dict_get markers p)|];
      rewrite dict_get_set; cbn [key_eqb string_key]; now rewrite E.
Qed.

Lemma add_pfams_count (c : string) (pfamList : list string) (hmm : hmm_dict)
    (contig pfam : string) :
  marker_count (contig_profile (fold_left (add_pfam c) pfamList hmm) contig)
               pfam
  = (marker_count (contig_profile hmm contig) pfam
     + if String.eqb c contig
       then Z.of_nat (count_occ string_dec pfamList pfam) else 0)%Z.
Proof.
  revert hmm. induction pfamList as [|p pfamList IH]; intros hmm; simpl.
  - destruct (String.eqb c contig); lia.
  - rewrite IH, add_pfam_count.
    destruct (String.eqb c contig); simpl; [|lia].
    destruct (string_dec p pfam) as [->|Hne].
    + rewrite String.eqb_refl. lia.
    + apply String.eqb_neq in Hne. rewrite Hne. lia.
Qed.

Lemma parse_hmm_lines_count (lines : list hmm_line) (hmm : hmm_dict)
    (contig pfam : string) :
  marker_count (contig_profile (fold_left parse_hmm_line lines hmm) contig)
               pfam
  = (marker_count (contig_profile hmm contig) pfam
     + table_occurrences lines contig pfam)%Z.
Proof.
  unfold table_occurrences. revert hmm.
  induction lines as [|[c pfams] lines IH]; intros hmm; simpl.
  - lia.
  - rewrite IH. unfold parse_hmm_line, line_occurrences. cbn [fst snd].
    destruct pfams as [pfamList|].
    + rewrite add_pfams_count. destruct (String.eqb c contig); lia.
    + destruct (String.eqb c contig); lia.
Qed.

(** X16. The profile counts, for every contig and marker, the occurrences
    of the marker on all the lines of the contig: the counts of a contig
    that is listed on several lines add up, and lines whose second column
    is 'NA' count nothing. *)
Theorem parse_hmm_table_counts (hmm_table_lines : list hmm_line)
    (contig pfam : string) :
  marker_count (contig_profile (parse_hmm_table hmm_table_lines) contig) pfam
  = table_occurrences hmm_table_lines contig pfam /\
  ((forall pfams, In (contig, pfams) hmm_table_lines -> pfams = None) ->
   forall m,
     marker_count (contig_profile (parse_hmm_table hmm_table_lines) contig) m
     = 0%Z).
Proof.
  assert (Hcount : forall m,
             marker_count
               (contig_profile (parse_hmm_table hmm_table_lines) contig) m
             = table_occurrences hmm_table_lines contig m).
  { intros m. unfold parse_hmm_table. now rewrite parse_hmm_lines_count. }
  split; [apply Hcount|].
  intros Hna m. rewrite Hcount. unfold table_occurrences.
  induction hmm_table_lines as [|[c pfams] lines IH]; simpl; trivial.
  rewrite IH.
  - unfold line_occurrences. cbn [fst snd].
    destruct (String.eqb_spec c contig) as [->|]; trivial.
    now rewrite (Hna pfams) by now left.
  - intros m'. unfold parse_hmm_table. now rewrite parse_hmm_lines_count.
  - intros pfams' Hin. apply Hna. now right.
Qed.

Lemma parse_hmm_table_counts_witness :
  marker_count (contig_profile (parse_hmm_table ex_hmm_repeated) "C1") "PF01"
  = 2%Z /\
  marker_count (contig_profile (parse_hmm_table ex_hmm_repeated) "C2") "PF01"
  = 0%Z.
Proof.
  split.
  - destruct (parse_hmm_table_counts ex_hmm_repeated "C1" "PF01") as [H _].
    rewrite H. reflexivity.
  - destruct (parse_hmm_table_counts ex_hmm_repeated "C2" "PF01") as [_ H].
    apply H. intros pfams Hin. simpl in Hin.
    repeat (destruct Hin as [Hin|Hin]; [congruence|]). contradiction.
Defined.

(** ** The summary table and the script as a whole *)

Lemma cluster_contig_info_fold_keys (rows : table) (cci : dict Z contig_dict) :
  dict_keys (fold_left cluster_contig_info_row rows cci)
  = fold_left add_key (map TableRow.db_cluster rows) (dict_keys cci).
Proof.
  revert cci. induction rows as [|r rows IH]; intros cci; simpl; trivial.
  now rewrite IH, cluster_contig_info_row_eq, dict_keys_set.
Qed.

Lemma cluster_contig_info_keys (t : table) :
  dict_keys (cluster_contig_info t) = first_seen (labels t).
Proof.
  unfold cluster_contig_info. rewrite cluster_contig_info_fold_keys.
  apply fold_add_key_nil.
Qed.

Lemma getClusterSummaryInfo_keys (t : table) :
  (forall c, In c (labels t) -> Zsum (cluster_lengths t c) <> 0%Z) ->
  exists out,
    getClusterSummaryInfo t = Ok out /\
    dict_keys out = first_seen (labels t) /\
    dict_wf out.
Proof.
  intros Hnz.
  destruct (cluster_contig_info_ok t) as (Hwf & _ & _).
  exists (dict_map_values summarize (cluster_contig_info t)).
  split; [|split].
  - apply getClusterSummaryInfo_summarize; trivial.
    + intros k contigs Hi. apply (cluster_contig_info_entries _ _ _ Hi).
    + intros k contigs Hi.
      destruct (cluster_contig_info_entries _ _ _ Hi) as [Hk Hco].
      rewrite (contigs_of_total Hco). auto.
  - rewrite dict_keys_map_values. apply cluster_contig_info_keys.
  - now apply dict_map_values_wf.
Qed.

Lemma summary_table_ok (summary_info : dict Z summary)
    (ci : dict Q (dict Z quality)) (best : Q) (info : dict Z quality)
    (cc pc : Z) :
  dict_wf summary_info ->
  dict_getitem ci best = Ok info ->
  (forall c, In c (dict_keys summary_info) -> dict_get info c <> None) ->
  exists lines,
    summary_table summary_info ci best cc pc = Ok lines /\
    Forall2 (fun cs line =>
               exists q,
                 dict_get info (fst cs) = Some q /\
                 line = summary_line_of cc pc (fst cs) (snd cs) q)
            summary_info lines.
Proof.
  intros Hwf Hci Hinfo. unfold summary_table.
  apply (for_in_dict_inv (d := summary_info)
           (summary_line_step summary_info ci best cc pc)
           (fun pre lines =>
              Forall2 (fun cs line =>
                         exists q,
                           dict_get info (fst cs) = Some q /\
                           line = summary_line_of cc pc (fst cs) (snd cs) q)
                      pre lines)).
  - constructor.
  - intros pre c s post lines Hd HP.
    assert (Hin : In (c, s) summary_info).
    { rewrite Hd. apply in_or_app. right. now left. }
    destruct (dict_get info c) as [q|] eqn:Eq.
    2:{ exfalso. apply (Hinfo c); trivial.
        unfold dict_keys. now apply (in_map fst) in Hin. }
    unfold summary_line_step.
    rewrite !(dict_getitem_In summary_info c s Hwf Hin). cbn [bind].
    rewrite !Hci. cbn [bind]. unfold dict_getitem. rewrite !Eq. cbn [bind].
    eexists. split; [reflexivity|].
    apply Forall2_app; trivial. constructor; [|constructor].
    exists q. split; trivial.
Qed.

Lemma summary_lines_clusters (info : dict Z quality) (cc pc : Z)
    (summary_info : dict Z summary) (lines : list SummaryLine.t) :
  Forall2 (fun cs line =>
             exists q,
               dict_get info (fst cs) = Some q /\
               line = summary_line_of cc pc (fst cs) (snd cs) q)
          summary_info lines ->
  map SummaryLine.cluster lines = dict_keys summary_info /\
  forall line,
    In line lines ->
    exists s q,
      In (SummaryLine.cluster line, s) summary_info /\
      dict_get info (SummaryLine.cluster line) = Some q /\
      line = summary_line_of cc pc (SummaryLine.cluster line) s q.
Proof.
  induction 1 as [|[c s] line summary_info lines (q & Eq & ->) Hrest IH].
  - split; [reflexivity | intros line []].
  - destruct IH as [Hkeys Hlines]. split.
    + cbn [map dict_keys fst]. f_equal. exact Hkeys.
    + intros line [<-|Hin].
      * exists s, q. cbn [SummaryLine.cluster summary_line_of fst snd].
        split; [now left|]. split; trivial.
      * destruct (Hlines line Hin) as (s' & q' & Hs & Hq & E).
        exists s', q'. split; [now right|]. split; trivial.
Qed.

Lemma info_of_mem (hmm : hmm_dict) (life_domain : string) (t : table)
    (c : Z) :
  hmm_wf hmm ->
  In c (first_seen (labels t)) ->
  dict_get (info_of hmm life_domain t) c <> None.
Proof.
  intros Hhmm Hc. rewrite <- (@info_of_keys hmm life_domain t Hhmm) in Hc.
  apply dict_mem_In in Hc. apply dict_mem_true in Hc as [q Hq]. congruence.
Qed.

(** X17. The summary table has one line per distinct label of the selected
    assignment, in the order in which the labels first appear; each line
    carries the cluster's summary and scores, and its status is
    'complete_and_pure' exactly when the cluster is among the complete and
    pure clusters of the partition, 'incomplete_or_impure' exactly when it
    is among the others. *)
Theorem summary_table_status (t : table) (hmm : hmm_dict)
    (life_domain : string) (cluster_info : dict Q (dict Z quality))
    (best_eps_value : Q) (completeness_cutoff purity_cutoff : Z) :
  hmm_wf hmm ->
  lengths_positive t ->
  dict_getitem cluster_info best_eps_value
  = getClusterInfo t hmm life_domain ->
  exists info summary_info p lines,
    getClusterInfo t hmm life_domain = Ok info /\
    getClusterSummaryInfo t = Ok summary_info /\
    partition_table t info completeness_cutoff purity_cutoff = Ok p /\
    summary_table summary_info cluster_info best_eps_value
      completeness_cutoff purity_cutoff = Ok lines /\
    map SummaryLine.cluster lines = first_seen (labels t) /\
    forall line,
      In line lines ->
      (exists s q,
          dict_get summary_info (SummaryLine.cluster line) = Some s /\
          dict_get info (SummaryLine.cluster line) = Some q /\
          line = summary_line_of completeness_cutoff purity_cutoff
                   (SummaryLine.cluster line) s q) /\
      (SummaryLine.status line = "complete_and_pure"%string <->
       dict_mem (complete_and_pure_clusters p) (SummaryLine.cluster line)
       = true) /\
      (SummaryLine.status line = "incomplete_or_impure"%string <->
       dict_mem (other_clusters p) (SummaryLine.cluster line) = true).
Proof.
  intros Hhmm Hpos Hci.
  destruct (@getClusterInfo_info_of hmm life_domain t Hhmm) as [Einfo Hinfo].
  rewrite Einfo in Hci.
  destruct (@getClusterSummaryInfo_keys t (@lengths_positive_totals t Hpos))
    as (summary_info & Esum & Hkeys & Hwf).
  destruct (partition_table_ok t (info_of hmm life_domain t)
              completeness_cutoff purity_cutoff)
    as (p & Ep & Hcp & Hother & _).
  destruct (@summary_table_ok summary_info cluster_info best_eps_value
              (info_of hmm life_domain t) completeness_cutoff purity_cutoff
              Hwf Hci)
    as (lines & Elines & Hlines).
  { intros c Hc. rewrite Hkeys in Hc. now apply info_of_mem. }
  destruct (@summary_lines_clusters _ _ _ _ _ Hlines) as [Hclusters Hall].
  exists (info_of hmm life_domain t), summary_info, p, lines.
  split; trivial. split; trivial. split; trivial. split; trivial.
  split; [now rewrite Hclusters|].
  intros line Hin. destruct (Hall line Hin) as (s & q & Hs & Hq & E).
  split.
  { exists s, q. split; [now apply dict_get_In|]. split; trivial. }
  rewrite Hcp, Hother. unfold class_of, dict_mem. rewrite Hq.
  rewrite E. cbn [SummaryLine.status summary_line_of]. unfold status_of.
  destruct (is_complete_and_pure completeness_cutoff purity_cutoff q);
    simpl; split; split; trivial; discriminate.
Qed.

Lemma summary_table_status_witness :
  exists lines,
    summary_table
      (dict_map_values summarize (cluster_contig_info ex_table))
      [((3 # 10)%Q, info_of ex_hmm "bacteria" ex_table)] (3 # 10) 0 0
    = Ok lines /\
    map SummaryLine.cluster lines = [1%Z; 0%Z] /\
    map SummaryLine.status lines
    = ["complete_and_pure"; "incomplete_or_impure"]%string.
Proof.
  destruct (@summary_table_status ex_table ex_hmm "bacteria"
              [((3 # 10)%Q, info_of ex_hmm "bacteria" ex_table)] (3 # 10)
              0%Z 0%Z ex_hmm_wf)
    as (info & summary_info & p & lines & _ & Esum & _ & Elines & Hclusters & _).
  - intros r Hr. simpl in Hr.
    repeat (destruct Hr as [<-|Hr]; [reflexivity|]). contradiction.
  - reflexivity.
  - vm_compute in Esum. injection Esum as <-.
    exists lines. split; [exact Elines|]. split; [exact Hclusters|].
    vm_compute in Elines. injection Elines as <-. reflexivity.
Defined.

Lemma with_cluster_positive (dbscan : list (Q * Q) -> Q -> Z -> list Z)
    (t : table) (eps : Q) :
  lengths_positive t -> lengths_positive (dbscan_simple dbscan t eps).
Proof.
  intros Hpos r Hr.
  apply dbscan_simple_rows in Hr as (r0 & c & Hr0 & ->).
  simpl. now apply Hpos.
Qed.

Lemma dict_get_key_In {V : Type} (d : dict Q V) (k : Q) :
  dict_wf d -> In k (dict_keys d) -> exists v, In (k, v) d /\ dict_get d k = Some v.
Proof.
  intros Hwf Hin. unfold dict_keys in Hin.
  apply in_map_iff in Hin as ([k' v] & E & Hin). simpl in E. subst k'.
  exists v. split; trivial. now apply dict_get_In.
Qed.

(** The stages of the script after a sweep that produced [tables], up to
    the FASTA output. *)
Lemma after_sweep_stages (tables : dict Q table) (hmm : hmm_dict)
    (life_domain : string) (cc pc : Z) (fasta : option (list seq_record))
    (outdir : string) :
  hmm_wf hmm ->
  dict_wf tables ->
  tables <> [] ->
  (forall eps t, In (eps, t) tables -> lengths_positive t) ->
  exists sel t p summary_info lines,
    In (best_eps_value sel, t) tables /\
    List.length lines = countClusters t /\
    after_sweep tables hmm life_domain cc pc fasta outdir
    = (output_fastas <-
         collect_fastas fasta (complete_and_pure_clusters p) t ;;
       written <-
         match output_fastas with
         | None => Ok None
         | Some output_fastas =>
             written <- write_fastas outdir output_fastas ;; Ok (Some written)
         end ;;
       Ok (mk_outputs sel t p summary_info lines written)).
Proof.
  intros Hhmm Hwf Hne Hpos.
  destruct (@select_eps_ok tables hmm life_domain cc pc Hhmm Hwf Hne)
    as (sel & Esel & Hci & _ & _ & Hbest).
  destruct (@dict_get_key_In _ tables _ Hwf Hbest) as (t & Hin & Hget).
  assert (Hinfo : dict_getitem (cluster_info sel) (best_eps_value sel)
                  = Ok (info_of hmm life_domain t)).
  { unfold dict_getitem. now rewrite Hci, dict_get_map_values, Hget. }
  destruct (partition_table_ok t (info_of hmm life_domain t) cc pc)
    as (p & Ep & _).
  destruct (@getClusterSummaryInfo_keys t
              (@lengths_positive_totals t (Hpos _ _ Hin)))
    as (summary_info & Esum & Hkeys & Hswf).
  destruct (@summary_table_ok summary_info (cluster_info sel)
              (best_eps_value sel) (info_of hmm life_domain t) cc pc
              Hswf Hinfo)
    as (lines & Elines & Hlines).
  { intros c Hc. rewrite Hkeys in Hc. now apply info_of_mem. }
  exists sel, t, p, summary_info, lines. split; trivial. split.
  - rewrite <- (length_map SummaryLine.cluster lines).
    destruct (@summary_lines_clusters _ _ _ _ _ Hlines) as [-> _].
    rewrite Hkeys, <- (@info_of_keys hmm life_domain t Hhmm).
    unfold dict_keys. rewrite length_map.
    now apply info_of_length.
  - unfold after_sweep. rewrite Esel. cbn [bind].
    unfold dict_getitem at 1. rewrite Hget. cbn [bind].
    rewrite Hinfo. cbn [bind]. rewrite Ep. cbn [bind].
    rewrite Esum. cbn [bind]. rewrite Elines. reflexivity.
Qed.

(** With a sequence for every contig, or without a FASTA file, the script
    returns. *)
Lemma after_sweep_ok (tables : dict Q table) (hmm : hmm_dict)
    (life_domain : string) (cc pc : Z) (fasta : option (list seq_record))
    (outdir : string) :
  hmm_wf hmm ->
  dict_wf tables ->
  tables <> [] ->
  (forall eps t, In (eps, t) tables -> lengths_positive t) ->
  (forall records eps t r,
      fasta = Some records -> In (eps, t) tables -> In r t ->
      dict_get (parse_assembly records) (TableRow.contig r) <> None) ->
  exists out,
    after_sweep tables hmm life_domain cc pc fasta outdir = Ok out /\
    In (best_eps_value (out_selection out), out_best_db_table out) tables /\
    List.length (out_summary_table out)
    = countClusters (out_best_db_table out) /\
    (out_fastas out = None <-> fasta = None).
Proof.
  intros Hhmm Hwf Hne Hpos Hfasta.
  destruct (@after_sweep_stages tables hmm life_domain cc pc fasta outdir
              Hhmm Hwf Hne Hpos)
    as (sel & t & p & summary_info & lines & Hin & Hcount & ->).
  destruct fasta as [records|].
  - destruct (@append_records_ok (parse_assembly records)
                (complete_and_pure_clusters p) t
                (fun r Hr => Hfasta records _ t r eq_refl Hin Hr)
                (init_output_fastas (complete_and_pure_clusters p))
                (init_output_fastas_ready (complete_and_pure_clusters p)))
      as (output_fastas & Eout & _).
    destruct (append_records_keys _ _ _ _ Eout) as (_ & Hofwf & _).
    specialize (Hofwf (init_output_fastas_wf _)).
    unfold collect_fastas. rewrite Eout. cbn [bind].
    rewrite (@write_fastas_ok outdir output_fastas Hofwf). cbn [bind].
    eexists. split; [reflexivity|].
    cbn [out_selection out_best_db_table out_summary_table out_fastas].
    split; trivial. split; trivial. split; discriminate.
  - cbn [collect_fastas bind].
    eexists. split; [reflexivity|].
    cbn [out_selection out_best_db_table out_summary_table out_fastas].
    split; trivial. split; trivial. split; trivial.
Qed.

(** X18. The script as a whole returns normally whenever the marker table
    has a tab on every line after the header, the contig lengths are
    positive, some radius of the sweep gives at most one distinct label and
    the FASTA file, when one is given, has a sequence for every contig.  The
    table it then partitions and summarises is the assignment of the
    selected radius, one of the radii of the sweep, and the summary table
    has one line per distinct label of that assignment. *)
Theorem script_returns (dbscan : list (Q * Q) -> Q -> Z -> list Z)
    (hmm_table_lines : list string) (vizbin_r : table) (domain : string)
    (completeness_cutoff purity_cutoff : Z)
    (fasta : option (list seq_record)) (outdir : string) (n : nat) :
  forallb (has_char tab) (tl hmm_table_lines) = true ->
  lengths_positive vizbin_r ->
  (countClusters (dbscan_simple dbscan vizbin_r (radius n)) <= 1)%nat ->
  (forall records r,
      fasta = Some records -> In r vizbin_r ->
      dict_get (parse_assembly records) (TableRow.contig r) <> None) ->
  exists out k,
    script dbscan (n + 2) hmm_table_lines vizbin_r domain completeness_cutoff
      purity_cutoff fasta outdir = Some (Ok out) /\
    (k <= n)%nat /\
    best_eps_value (out_selection out) = radius k /\
    out_best_db_table out = dbscan_simple dbscan vizbin_r (radius k) /\
    List.length (out_summary_table out)
    = countClusters (out_best_db_table out) /\
    (out_fastas out = None <-> fasta = None).
Proof.
  intros Hlines Hpos Hstop Hfasta.
  destruct (read_lines_ok _ Hlines []) as (fields & _ & Eread).
  destruct (@sweep_loop_stops dbscan vizbin_r n 0%nat sweep_init)
    as [st Hst]; trivial.
  assert (Hsweep : sweep dbscan (n + 2) vizbin_r = Some (db_tables st))
    by (unfold sweep; now rewrite Hst).
  destruct (sweep_result _ _ _ Hsweep) as (m & Htables & Hbefore & Hlast).
  assert (Hm : (m <= n)%nat).
  { destruct (Nat.le_gt_cases m n) as [|Hlt]; trivial.
    specialize (Hbefore n Hlt). unfold table_at in Hbefore. lia. }
  assert (Hentries : forall eps t,
             In (eps, t) (db_tables st) ->
             exists k, (k <= n)%nat /\ eps = radius k /\
                       t = dbscan_simple dbscan vizbin_r (radius k)).
  { intros eps t Hin. rewrite Htables in Hin. unfold assignments in Hin.
    apply in_map_iff in Hin as (k & [= <- <-] & Hk). apply in_seq in Hk.
    exists k. split; [lia | auto]. }
  destruct (@after_sweep_ok (db_tables st) (parse_hmm_table fields) domain
              completeness_cutoff purity_cutoff fasta outdir)
    as (out & Eout & Hin & Hcount & Hnone).
  - apply parse_hmm_table_wf.
  - rewrite Htables. apply sorted_keys_wf. rewrite assignments_keys.
    apply radii_sorted.
  - rewrite Htables. discriminate.
  - intros eps t Hin. destruct (Hentries _ _ Hin) as (k & _ & _ & ->).
    now apply with_cluster_positive.
  - intros records eps t r Hf Hin Hr.
    destruct (Hentries _ _ Hin) as (k & _ & _ & ->).
    apply dbscan_simple_rows in Hr as (r0 & c & Hr0 & ->).
    simpl. now apply (Hfasta records).
  - destruct (Hentries _ _ Hin) as (k & Hk & Ebest & Etable).
    exists out, k. split.
    + unfold script, read_contig_markers.
      change (fold_left parse_hmm_line fields []) with (parse_hmm_table fields)
        in Eread.
      rewrite Eread, Hsweep. now rewrite Eout.
    + auto.
Qed.

Lemma script_returns_witness :
  exists out,
    script ex_dbscan 4 ex_hmm_lines ex_vizbin "bacteria" 0 0 (Some ex_records)
      "out" = Some (Ok out) /\
    List.length (out_summary_table out)
    = countClusters (out_best_db_table out).
Proof.
  destruct (@script_returns ex_dbscan ex_hmm_lines ex_vizbin "bacteria" 0%Z
              0%Z (Some ex_records) "out" 2%nat)
    as (out & k & E & _ & _ & _ & Hcount & _).
  - reflexivity.
  - intros r Hr. simpl in Hr.
    repeat (destruct Hr as [<-|Hr]; [reflexivity|]). contradiction.
  - vm_compute. lia.
  - intros records r [= <-] Hr. simpl in Hr.
    repeat (destruct Hr as [<-|Hr]; [discriminate|]). contradiction.
  - exists out. split; [exact E | exact Hcount].
Defined.

(** ** The order of the classification, and what does not depend on the
    order of the rows *)

Lemma dict_get_unit_keys (l : list Z) (k : Z) :
  ~ In k l -> dict_get (map (fun c => (c, 1%Z)) l) k = None.
Proof.
  induction l as [|c l IH]; simpl; trivial.
  intros Hn. destruct (Z.eqb_spec k c) as [->|]; [|auto].
  exfalso. apply Hn. now left.
Qed.

Lemma classify_clusters_exact (info : dict Z quality) (cc pc : Z) :
  dict_wf info ->
  classify_clusters info cc pc
  = Ok (map (fun c => (c, 1%Z))
            (filter (class_of info cc pc) (dict_keys info)),
        map (fun c => (c, 1%Z))
            (filter (fun c => negb (class_of info cc pc c)) (dict_keys info))).
Proof.
  intros Hwf. unfold classify_clusters.
  destruct (for_in_dict_inv (d := info) (classify_cluster info cc pc)
              (fun pre st =>
                 st = (map (fun c => (c, 1%Z))
                           (filter (class_of info cc pc) (dict_keys pre)),
                       map (fun c => (c, 1%Z))
                           (filter (fun c => negb (class_of info cc pc c))
                                   (dict_keys pre))))
              ([], [])) as (st & E & ->); trivial.
  intros pre k q post st Hd ->.
  assert (Hin : In (k, q) info).
  { rewrite Hd. apply in_or_app. right. now left. }
  assert (Hk : ~ In k (dict_keys pre)).
  { intros Hi. apply dict_mem_In in Hi. apply dict_mem_true in Hi as [v Hv].
    rewrite (dict_wf_app_get pre ((k, q) :: post)) in Hv; [discriminate | |].
    - now rewrite <- Hd.
    - now left. }
  assert (Hclass : class_of info cc pc k = is_complete_and_pure cc pc q).
  { unfold class_of. now rewrite (dict_get_In _ _ _ Hwf Hin). }
  unfold classify_cluster. rewrite !(dict_getitem_In info k q Hwf Hin).
  cbn [bind]. fold (is_complete_and_pure cc pc q).
  unfold dict_keys. rewrite map_app, !filter_app. cbn [map fst filter].
  rewrite Hclass.
  destruct (is_complete_and_pure cc pc q); cbn [negb];
    eexists; (split; [reflexivity|]);
    rewrite dict_set_fresh, ?app_nil_r, ?map_app; trivial;
    apply dict_get_unit_keys; rewrite filter_In; tauto.
Qed.

(** X19. The classification keeps the order of the labels: the complete
    and pure clusters are the labels that pass both cutoffs, the other
    clusters those that do not, each list in the order in which the labels
    first appear in the selected assignment; every label is in exactly one
    of the two, and each is stored with the value 1. *)
Theorem classification_order (t : table) (hmm : hmm_dict)
    (life_domain : string) (completeness_cutoff purity_cutoff : Z) :
  hmm_wf hmm ->
  exists info p,
    getClusterInfo t hmm life_domain = Ok info /\
    partition_table t info completeness_cutoff purity_cutoff = Ok p /\
    complete_and_pure_clusters p
    = map (fun c => (c, 1%Z))
          (filter (class_of info completeness_cutoff purity_cutoff)
                  (first_seen (labels t))) /\
    other_clusters p
    = map (fun c => (c, 1%Z))
          (filter (fun c => negb (class_of info completeness_cutoff
                                    purity_cutoff c))
                  (first_seen (labels t))) /\
    Permutation (dict_keys (complete_and_pure_clusters p)
                 ++ dict_keys (other_clusters p))
                (first_seen (labels t)).
Proof.
  intros Hhmm.
  destruct (@getClusterInfo_info_of hmm life_domain t Hhmm) as [Einfo Hwf].
  exists (info_of hmm life_domain t). eexists. split; trivial.
  unfold partition_table.
  rewrite (@classify_clusters_exact (info_of hmm life_domain t)
             completeness_cutoff purity_cutoff Hwf).
  cbn [bind]. rewrite (@info_of_keys hmm life_domain t Hhmm).
  split; [reflexivity|].
  cbn [complete_and_pure_clusters other_clusters].
  split; [reflexivity|]. split; [reflexivity|].
  unfold dict_keys. rewrite !map_map. cbn [fst]. rewrite !map_id.
  apply filter_partition_perm.
Qed.

Lemma classification_order_witness :
  exists info p,
    getClusterInfo ex_table ex_hmm "bacteria" = Ok info /\
    partition_table ex_table info 0 0 = Ok p /\
    complete_and_pure_clusters p = [(1%Z, 1%Z)] /\
    other_clusters p = [(0%Z, 1%Z)].
Proof.
  destruct (@classification_order ex_table ex_hmm "bacteria" 0%Z 0%Z
              ex_hmm_wf) as (info & p & Einfo & Ep & Hcp & Hother & _).
  exists info, p. split; trivial. split; trivial.
  vm_compute in Einfo. injection Einfo as <-.
  rewrite Hcp, Hother. split; reflexivity.
Defined.

Lemma filter_false {A : Type} (p : A -> bool) (l : list A) :
  (forall x, In x l -> p x = false) -> filter p l = [].
Proof.
  induction l as [|x l IH]; simpl; trivial. intros H.
  rewrite (H x) by now left. apply IH. intros y Hy. apply H. now right.
Qed.

Lemma filter_true {A : Type} (p : A -> bool) (l : list A) :
  (forall x, In x l -> p x = true) -> filter p l = l.
Proof.
  induction l as [|x l IH]; simpl; trivial. intros H.
  rewrite (H x) by now left. f_equal. apply IH. intros y Hy. apply H.
  now right.
Qed.

(** X20. When no cluster of the selected assignment passes both cutoffs,
    nothing fails: no cluster is complete and pure, every label is among the
    other clusters, the clustered table has no row and the nonclustered
    table is the whole assignment. *)
Theorem partition_none_passes (t : table) (hmm : hmm_dict)
    (life_domain : string) (completeness_cutoff purity_cutoff : Z) :
  hmm_wf hmm ->
  complete_and_pure_count completeness_cutoff purity_cutoff
    (info_of hmm life_domain t) = 0%Z ->
  exists info p,
    getClusterInfo t hmm life_domain = Ok info /\
    partition_table t info completeness_cutoff purity_cutoff = Ok p /\
    complete_and_pure_clusters p = [] /\
    dict_keys (other_clusters p) = first_seen (labels t) /\
    clustered_table p = [] /\
    nonclustered_table p = t.
Proof.
  intros Hhmm Hzero.
  destruct (@getClusterInfo_info_of hmm life_domain t Hhmm) as [Einfo Hwf].
  set (info := info_of hmm life_domain t) in *.
  assert (Hclass : forall c, class_of info completeness_cutoff purity_cutoff c
                             = false).
  { intros c. unfold class_of. destruct (dict_get info c) as [q|] eqn:Eq; trivial.
    destruct (is_complete_and_pure completeness_cutoff purity_cutoff q) eqn:Ecp;
      trivial.
    exfalso. unfold complete_and_pure_count in Hzero.
    apply dict_get_Some_In in Eq as (c' & _ & Hin).
    assert (Hf : In (c', q)
                    (filter (fun kq => is_complete_and_pure completeness_cutoff
                                         purity_cutoff (snd kq)) info)).
    { apply filter_In. split; trivial. }
    destruct (filter _ info); [contradiction | discriminate]. }
  exists info. eexists. split; trivial.
  unfold partition_table.
  rewrite (@classify_clusters_exact info completeness_cutoff purity_cutoff Hwf).
  cbn [bind]. unfold info.
  rewrite !(@info_of_keys hmm life_domain t Hhmm). fold info.
  rewrite !(@filter_false _ (class_of info completeness_cutoff purity_cutoff))
    by (intros; apply Hclass).
  rewrite !(@filter_true _ (fun c => negb (class_of info completeness_cutoff
                                             purity_cutoff c)))
    by (intros; now rewrite Hclass).
  split; [reflexivity|].
  cbn [complete_and_pure_clusters other_clusters clustered_table
       nonclustered_table subset_tables map dict_keys fold_left].
  split; [reflexivity|]. split; [|split; [|reflexivity]].
  - unfold dict_keys. rewrite map_map. cbn [fst]. apply map_id.
  - rewrite drop_clusters_filter. apply filter_false. intros r Hr.
    apply negb_false_iff. apply existsb_exists.
    exists (TableRow.db_cluster r). split; [|apply Z.eqb_refl].
    unfold dict_keys. rewrite map_map. cbn [fst]. rewrite map_id.
    apply first_seen_In. now apply in_map.
Qed.

Lemma partition_none_passes_witness :
  exists info p,
    getClusterInfo ex_table ex_hmm "bacteria" = Ok info /\
    partition_table ex_table info 90 90 = Ok p /\
    clustered_table p = [] /\
    nonclustered_table p = ex_table.
Proof.
  destruct (@partition_none_passes ex_table ex_hmm "bacteria" 90%Z 90%Z
              ex_hmm_wf) as (info & p & Einfo & Ep & _ & _ & Hc & Hn).
  - reflexivity.
  - exists info, p. auto.
Defined.

(** X21. Every assignment that a sweep keeps has the rows of the input
    table in the same order, with the labels that the primitive returned for
    its radius and all other columns unchanged, provided the primitive
    returns one label per point. *)
Theorem sweep_assignments_rows (dbscan : list (Q * Q) -> Q -> Z -> list Z)
    (vizbin_r : table) (fuel : nat) (tables : dict Q table) :
  (forall eps,
      List.length (dbscan (coordinates vizbin_r) eps 3%Z)
      = List.length vizbin_r) ->
  sweep dbscan fuel vizbin_r = Some tables ->
  forall eps t,
    In (eps, t) tables ->
    map unlabelled t = map unlabelled vizbin_r /\
    labels t = dbscan (coordinates vizbin_r) eps 3%Z /\
    List.length t = List.length vizbin_r.
Proof.
  intros Hlen Hsweep eps t Hin.
  destruct (sweep_result _ _ _ Hsweep) as (n & -> & _).
  unfold assignments in Hin. apply in_map_iff in Hin as (k & [= <- <-] & _).
  unfold dbscan_simple. fold (coordinates vizbin_r).
  destruct (@combine_columns vizbin_r
              (dbscan (coordinates vizbin_r) (radius k) 3%Z) (Hlen (radius k)))
    as [Hrows Hlabels].
  split; trivial. split; trivial.
  apply (f_equal (@List.length row)) in Hrows.
  rewrite !length_map in Hrows. now rewrite length_map.
Qed.

Lemma sweep_assignments_rows_witness :
  map unlabelled (dbscan_simple ex_dbscan ex_vizbin (radius 2))
  = map unlabelled ex_vizbin /\
  labels (dbscan_simple ex_dbscan ex_vizbin (radius 2)) = [1%Z; 1%Z; 1%Z].
Proof.
  destruct (@sweep_assignments_rows ex_dbscan ex_vizbin 4
              (assignments ex_dbscan ex_vizbin 3))
    with (eps := radius 2) (t := dbscan_simple ex_dbscan ex_vizbin (radius 2))
    as (Hrows & Hlabels & _).
  - intros eps. unfold ex_dbscan. destruct (Qle_bool (1 # 2) eps);
      now rewrite length_map.
  - reflexivity.
  - simpl. tauto.
  - split; [exact Hrows | exact Hlabels].
Defined.

Lemma cluster_marker_ids_perm (hmm : hmm_dict) (t t' : table) (c : Z) :
  Permutation t t' ->
  Permutation (cluster_marker_ids hmm t c) (cluster_marker_ids hmm t' c).
Proof.
  intros Hp. unfold cluster_marker_ids, cluster_rows.
  apply Permutation_flat_map. now apply filter_Permutation.
Qed.

Lemma summed_occurrence_perm (hmm : hmm_dict) (t t' : table) (c : Z)
    (m : string) :
  Permutation t t' ->
  summed_occurrence hmm t c m = summed_occurrence hmm t' c m.
Proof.
  intros Hp. unfold summed_occurrence, cluster_rows.
  apply Zsum_perm. apply Permutation_map. now apply filter_Permutation.
Qed.

Lemma distinct_markers_perm (hmm : hmm_dict) (t t' : table) (c : Z) :
  Permutation t t' ->
  Permutation (distinct_markers hmm t c) (distinct_markers hmm t' c).
Proof.
  intros Hp. unfold distinct_markers.
  apply NoDup_Permutation; try apply NoDup_nodup.
  intros m. rewrite !nodup_In.
  split; apply Permutation_in;
    [|apply Permutation_sym]; now apply cluster_marker_ids_perm.
Qed.

(** X22. The scores of a cluster do not depend on the order of the rows:
    [getClusterInfo] gives every label the same completeness and purity on
    any rearrangement of the table. *)
Theorem getClusterInfo_row_order (t t' : table) (hmm : hmm_dict)
    (life_domain : string) :
  hmm_wf hmm ->
  Permutation t t' ->
  exists info info',
    getClusterInfo t hmm life_domain = Ok info /\
    getClusterInfo t' hmm life_domain = Ok info' /\
    forall c, dict_get info c = dict_get info' c.
Proof.
  intros Hhmm Hp.
  destruct (getClusterInfo_ok t life_domain Hhmm) as (mt & Hinv & E).
  destruct (getClusterInfo_ok t' life_domain Hhmm) as (mt' & Hinv' & E').
  eexists. eexists. split; [exact E|]. split; [exact E'|].
  intros c. rewrite !dict_get_map_values.
  destruct Hinv as (_ & Hkeys & Htot). destruct Hinv' as (_ & Hkeys' & Htot').
  destruct (dict_get mt c) as [totals|] eqn:Em;
    destruct (dict_get mt' c) as [totals'|] eqn:Em'; cbn [option_map]; trivial.
  - f_equal. unfold score.
    rewrite (totals_of_length (Htot _ _ Em)), (totals_of_length (Htot' _ _ Em')).
    rewrite (totals_of_unique (Htot _ _ Em)), (totals_of_unique (Htot' _ _ Em')).
    assert (Hm : total_markers hmm t c = total_markers hmm t' c).
    { unfold total_markers. f_equal. apply Permutation_length.
      now apply distinct_markers_perm. }
    assert (Hu : total_unique hmm t c = total_unique hmm t' c).
    { unfold total_unique. f_equal.
      rewrite (filter_ext _ (fun m => Z.eqb (summed_occurrence hmm t' c m) 1))
        by (intros m; now rewrite (summed_occurrence_perm hmm c m Hp)).
      apply Permutation_length, filter_Permutation.
      now apply distinct_markers_perm. }
    now rewrite Hm, Hu.
  - exfalso. apply Hkeys' in Em'. apply Em'.
    apply (Permutation_in _ (Permutation_map TableRow.db_cluster Hp)).
    destruct (in_dec Z.eq_dec c (map TableRow.db_cluster t)) as [|Hn]; trivial.
    apply Hkeys in Hn. congruence.
  - exfalso. apply Hkeys in Em. apply Em.
    apply (Permutation_in _
             (Permutation_sym (Permutation_map TableRow.db_cluster Hp))).
    destruct (in_dec Z.eq_dec c (map TableRow.db_cluster t')) as [|Hn]; trivial.
    apply Hkeys' in Hn. congruence.
Qed.

Lemma getClusterInfo_row_order_witness :
  exists info info',
    getClusterInfo ex_table ex_hmm "bacteria" = Ok info /\
    getClusterInfo (rev ex_table) ex_hmm "bacteria" = Ok info' /\
    forall c, dict_get info c = dict_get info' c.
Proof.
  apply (@getClusterInfo_row_order ex_table (rev ex_table) ex_hmm "bacteria"
           ex_hmm_wf).
  apply Permutation_rev.
Defined.

(** ** Failures of the script, and clusters of one contig *)

(** X23. A marker table with a line without a tab after the header makes
    the script fail with IndexError before anything is clustered: whatever
    the other inputs, and whether or not the sweep would ever stop. *)
Theorem script_marker_error (dbscan : list (Q * Q) -> Q -> Z -> list Z)
    (fuel : nat) (hmm_table_lines : list string) (vizbin_r : table)
    (domain : string) (completeness_cutoff purity_cutoff : Z)
    (fasta : option (list seq_record)) (outdir : string) :
  forallb (has_char tab) (tl hmm_table_lines) = false ->
  script dbscan fuel hmm_table_lines vizbin_r domain completeness_cutoff
    purity_cutoff fasta outdir
  = Some (Raise IndexError).
Proof.
  intros Hlines. unfold script, read_contig_markers.
  now rewrite (@read_lines_error (tl hmm_table_lines) Hlines []).
Qed.

Lemma script_marker_error_witness :
  script ex_dbscan_apart 0 ["contig"; "C1"]%string ex_vizbin "bacteria" 90 90
    None "out"
  = Some (Raise IndexError).
Proof.
  apply (@script_marker_error ex_dbscan_apart 0%nat ["contig"; "C1"]%string
           ex_vizbin "bacteria" 90%Z 90%Z None "out").
  reflexivity.
Defined.

Lemma unlabelled_contig (r r' : row) :
  unlabelled r = unlabelled r' -> TableRow.contig r = TableRow.contig r'.
Proof.
  intros E. apply (f_equal TableRow.contig) in E. exact E.
Qed.

(** X24. With a FASTA file that lacks the sequence of some contig of the
    input table, the script fails with KeyError whichever radius is
    selected, when the primitive returns one label per point and nothing
    fails before the FASTA step. *)
Theorem script_missing_sequence (dbscan : list (Q * Q) -> Q -> Z -> list Z)
    (hmm_table_lines : list string) (vizbin_r : table) (domain : string)
    (completeness_cutoff purity_cutoff : Z) (records : list seq_record)
    (outdir : string) (n : nat) :
  forallb (has_char tab) (tl hmm_table_lines) = true ->
  lengths_positive vizbin_r ->
  (forall eps,
      List.length (dbscan (coordinates vizbin_r) eps 3%Z)
      = List.length vizbin_r) ->
  (countClusters (dbscan_simple dbscan vizbin_r (radius n)) <= 1)%nat ->
  (exists r, In r vizbin_r /\
             dict_get (parse_assembly records) (TableRow.contig r) = None) ->
  script dbscan (n + 2) hmm_table_lines vizbin_r domain completeness_cutoff
    purity_cutoff (Some records) outdir
  = Some (Raise KeyError).
Proof.
  intros Hlines Hpos Hlen Hstop (r0 & Hr0 & Hmiss).
  destruct (read_lines_ok _ Hlines []) as (fields & _ & Eread).
  destruct (@sweep_loop_stops dbscan vizbin_r n 0%nat sweep_init)
    as [st Hst]; trivial.
  assert (Hsweep : sweep dbscan (n + 2) vizbin_r = Some (db_tables st))
    by (unfold sweep; now rewrite Hst).
  destruct (sweep_result _ _ _ Hsweep) as (m & Htables & _).
  assert (Hentries : forall eps t,
             In (eps, t) (db_tables st) ->
             exists k, t = dbscan_simple dbscan vizbin_r (radius k)).
  { intros eps t Hin. rewrite Htables in Hin. unfold assignments in Hin.
    apply in_map_iff in Hin as (k & [= <- <-] & _). eauto. }
  destruct (@after_sweep_stages (db_tables st) (parse_hmm_table fields) domain
              completeness_cutoff purity_cutoff (Some records) outdir)
    as (sel & t & p & summary_info & lines & Hin & _ & Eafter).
  - apply parse_hmm_table_wf.
  - rewrite Htables. apply sorted_keys_wf. rewrite assignments_keys.
    apply radii_sorted.
  - rewrite Htables. discriminate.
  - intros eps t Hin. destruct (Hentries _ _ Hin) as (k & ->).
    now apply with_cluster_positive.
  - unfold script, read_contig_markers.
    change (fold_left parse_hmm_line fields []) with (parse_hmm_table fields)
      in Eread.
    rewrite Eread, Hsweep, Eafter. f_equal.
    destruct (Hentries _ _ Hin) as (k & Et).
    assert (Hrow : exists r, In r t /\
                     dict_get (parse_assembly records) (TableRow.contig r)
                     = None).
    { destruct (@combine_columns vizbin_r
                  (dbscan (coordinates vizbin_r) (radius k) 3%Z)
                  (Hlen (radius k))) as [Hrows _].
      assert (Hu : In (unlabelled r0) (map unlabelled t)).
      { rewrite Et. unfold dbscan_simple. fold (coordinates vizbin_r).
        rewrite Hrows. now apply in_map. }
      apply in_map_iff in Hu as (r & E & Hr). exists r. split; trivial.
      now rewrite (unlabelled_contig E). }
    unfold collect_fastas.
    rewrite (@append_records_missing (parse_assembly records)
               (complete_and_pure_clusters p) t Hrow
               (init_output_fastas (complete_and_pure_clusters p))
               (init_output_fastas_ready (complete_and_pure_clusters p))).
    reflexivity.
Qed.

Lemma script_missing_sequence_witness :
  script ex_dbscan 4 ex_hmm_lines ex_vizbin "bacteria" 0 0
    (Some (removelast ex_records)) "out"
  = Some (Raise KeyError).
Proof.
  apply (@script_missing_sequence ex_dbscan ex_hmm_lines ex_vizbin "bacteria"
           0%Z 0%Z (removelast ex_records) "out" 2%nat).
  - reflexivity.
  - intros r Hr. simpl in Hr.
    repeat (destruct Hr as [<-|Hr]; [reflexivity|]). contradiction.
  - intros eps. unfold ex_dbscan. destruct (Qle_bool (1 # 2) eps);
      now rewrite length_map.
  - vm_compute. lia.
  - exists (ex_point "C3" 2). split; [simpl; tauto | reflexivity].
Defined.

(** X25. A cluster with a single contig is summarised by that contig: its
    size, longest contig and N50 are the contig's length, it counts one
    contig, and its weighted GC and coverage are the contig's own. *)
Theorem summary_single_contig (t : table) (c : Z) (r : row) :
  lengths_positive t ->
  cluster_contigs t c = [r] ->
  exists out s,
    getClusterSummaryInfo t = Ok out /\
    dict_get out c = Some s /\
    size s = TableRow.length r /\
    longest_contig s = TableRow.length r /\
    n50 s = Some (TableRow.length r) /\
    number_contigs s = 1%Z /\
    (gc_percent s == TableRow.gc r)%Q /\
    (cov s == TableRow.cov r)%Q.
Proof.
  intros Hpos Hone.
  assert (Hr : In r t /\ TableRow.db_cluster r = c).
  { apply cluster_contigs_rows. rewrite Hone. now left. }
  assert (Hc : In c (labels t)).
  { destruct Hr as [Hin <-]. unfold labels. now apply in_map. }
  assert (Hlen : (0 < TableRow.length r)%Z) by (apply Hpos, Hr).
  assert (Hlens : cluster_lengths t c = [TableRow.length r]).
  { unfold cluster_lengths. now rewrite Hone. }
  destruct (@getClusterSummaryInfo_clusters t
              (@lengths_positive_totals t Hpos))
    as (out & Eout & Hout).
  destruct (Hout c Hc) as (contigs & Hco & Hs).
  exists out, (summarize contigs). split; trivial. split; trivial.
  cbn [size gc_percent cov number_contigs longest_contig n50 summarize].
  rewrite (contigs_of_count Hco), (contigs_of_n50 Hco).
  rewrite (contigs_of_total Hco), (contigs_of_sorted Hco).
  pose proof (weighted_average_contigs Info.gc Hco) as Hgc.
  pose proof (weighted_average_contigs Info.cov Hco) as Hcov.
  destruct (@n50_scan_sorted (cluster_lengths t c)) as (n & Hn & _ & Hin & _).
  { rewrite Hlens. discriminate. }
  { rewrite Hlens. constructor; [lia | constructor]. }
  rewrite Hn. rewrite Hlens in *. rewrite Hone in *.
  destruct Hin as [<-|[]].
  assert (Hsum : Zsum [TableRow.length r] = TableRow.length r).
  { unfold Zsum. cbn [fold_right]. lia. }
  rewrite Hsum in *.
  split; trivial. split; [reflexivity|]. split; trivial. split.
  { rewrite <- cluster_contigs_ids, Hone. reflexivity. }
  assert (Hone_weight : (contig_weight (TableRow.length r) r == 1)%Q).
  { unfold contig_weight. field. apply inject_Z_nonzero. lia. }
  split.
  - rewrite Hgc. cbn [map Qsum fold_right Info.of_row Info.gc].
    rewrite Hone_weight. ring.
  - rewrite Hcov. cbn [map Qsum fold_right Info.of_row Info.cov].
    rewrite Hone_weight. ring.
Qed.

Lemma summary_single_contig_witness :
  exists out s,
    getClusterSummaryInfo ex_table = Ok out /\
    dict_get out 0%Z = Some s /\
    size s = 150%Z /\
    n50 s = Some 150%Z /\
    (gc_percent s == 1 # 2)%Q.
Proof.
  destruct (@summary_single_contig ex_table 0%Z (ex_row "C3" 150 0))
    as (out & s & Eout & Es & Hsize & _ & Hn50 & _ & Hgc & _).
  - intros r Hr. simpl in Hr.
    repeat (destruct Hr as [<-|Hr]; [reflexivity|]). contradiction.
  - reflexivity.
  - exists out, s. auto.
Defined.

